(** * Device monitor: the event-scan-and-escalation pipeline

    A shallow embedding of the Python sources

      - [src/monitor.py]       (hardware collectors, [analyze_event_logs],
                                [parse_event_log_string], [run_monitor]),
      - [src/llm_analyzer.py]  ([preprocess_logs], [analyze_logs_with_llm]),
      - [src/db_manager.py]    (sessions, [store_hardware_info],
                                [store_events]),
      - [src/utils.py]         ([load_api_key]),
      - [src/cli.py]           (the command [monitor] of [run_cli]),

    followed by a program logic for the embedding and by the properties
    of the design specification, each proved or refuted on it.

    Conventions of the embedding.

      - A Python [str] is a [string] holding its UTF-8 bytes.  Substring
        tests and the fixed literals of the program are exact on UTF-8;
        [lower], [strip] and the class [\d] act on the ASCII range (Hangul
        has neither case nor digits).
      - A Python exception is a value [Exn]; [isinstance] follows the
        class list carried by the value, so an [except] clause catches
        exactly what Python catches.  [exn_class] is the class's
        [__name__]; [exn_mro] lists the qualified names of the classes
        the exception is an instance of.
      - Every function that logs, touches the database, the event log or
        the network runs in the monad [M]: explicit passing of a [World]
        (database, open connection, oracle clock, trace of effects)
        with Python's exceptions.  What the outside does (rows of the
        event log, the HTTP answer, database faults, the clock) is read
        from an [Env].
      - A Python [int] is a [Z].  A [nat] is a number that Python or
        SQLite produced itself as a length, as a count of the items of
        a list or as a row id: these stay below 2^63.  Where an [int]
        is bound to an SQL parameter, [Size n] marks such a number and
        [Int z] any other integer; [sqlite3] raises [OverflowError]
        for an [Int z] that does not fit in 64 bits.
      - Not embedded: the set-up of the logger, the branch of
        [run_monitor] that loads the configuration itself, and
        [init_database], which only issues [CREATE TABLE IF NOT EXISTS]
        and appears in the trace as one external call; the queries
        that read the database back ([get_recent_events],
        [get_event_statistics], [export_events_to_json]), whose rows
        have columns and an order that the tables of this embedding do
        not record; the parsing of the command line and the other
        commands of [run_cli]. *)

From Stdlib Require Import ZArith NArith List String Ascii Bool Lia DecimalString.
Import ListNotations.
Local Open Scope string_scope.
Local Open Scope list_scope.

Infix "+++" := String.append (right associativity, at level 60).

(* ================================================================== *)
(** * Python runtime *)
(* ================================================================== *)

Module Py.

(** An exception object: its class, the other classes it is an instance
    of, the [winerror] attribute ([pywintypes.error]; 0 elsewhere),
    [str(e)], and the [response] attribute when it is set (status code
    and text). *)
Record Exn := mkExn {
  exn_class : string;
  exn_mro : list string;
  exn_winerror : Z;
  exn_str : string;
  exn_response : option (Z * string)
}.

(** Every [Exn] is an instance of [Exception]: the signals that are not
    ([KeyboardInterrupt], [SystemExit]) are outside the model. *)
Definition isinstance (e : Exn) (cls : string) : bool :=
  String.eqb cls "Exception"
  || existsb (String.eqb cls) (exn_class e :: exn_mro e).

Definition builtin_exn (name : string) (bases : list string) : Exn :=
  mkExn name bases 0 "" None.

Definition IndexError := builtin_exn "IndexError" ["LookupError"].
Definition KeyError := builtin_exn "KeyError" ["LookupError"].
Definition AttributeError := builtin_exn "AttributeError" [].
Definition TypeError := builtin_exn "TypeError" [].
Definition ValueError := builtin_exn "ValueError" [].
Definition UnboundLocalError := builtin_exn "UnboundLocalError" ["NameError"].
Definition OverflowError := builtin_exn "OverflowError" ["ArithmeticError"].

(** [sqlite3.OperationalError], the fault the database oracle injects. *)
Definition sqlite3_OperationalError : Exn :=
  builtin_exn "OperationalError" ["sqlite3.DatabaseError"; "sqlite3.Error"].
(** [sqlite3.IntegrityError]: a NOT NULL column received NULL. *)
Definition sqlite3_IntegrityError : Exn :=
  builtin_exn "IntegrityError" ["sqlite3.DatabaseError"; "sqlite3.Error"].
(** [requests.exceptions.HTTPError], raised by [raise_for_status]. *)
Definition requests_HTTPError : Exn :=
  builtin_exn "HTTPError"
    ["requests.exceptions.RequestException"; "OSError"].

Inductive Outcome (A : Type) : Type :=
| Return (a : A)
| Raise (e : Exn).
Arguments Return {A} a.
Arguments Raise {A} e.

(** ** Strings *)

Definition nl : string := String (ascii_of_nat 10) "".

(** [needle in hay]. *)
Fixpoint str_in (needle hay : string) : bool :=
  prefix needle hay ||
  match hay with
  | EmptyString => false
  | String _ rest => str_in needle rest
  end.

Definition lower_char (c : ascii) : ascii :=
  let n := nat_of_ascii c in
  if (65 <=? n)%nat && (n <=? 90)%nat then ascii_of_nat (n + 32) else c.

Fixpoint lower (s : string) : string :=
  match s with
  | EmptyString => EmptyString
  | String c r => String (lower_char c) (lower r)
  end.

Definition is_space (c : ascii) : bool :=
  let n := nat_of_ascii c in
  ((9 <=? n)%nat && (n <=? 13)%nat) || ((28 <=? n)%nat && (n <=? 32)%nat).

Fixpoint lstrip (s : string) : string :=
  match s with
  | EmptyString => EmptyString
  | String c r => if is_space c then lstrip r else s
  end.

Fixpoint rstrip (s : string) : string :=
  match s with
  | EmptyString => EmptyString
  | String c r =>
      match rstrip r with
      | EmptyString => if is_space c then EmptyString else String c EmptyString
      | r' => String c r'
      end
  end.

Definition strip (s : string) : string := rstrip (lstrip s).

(** [str(n)] for integers. *)
Definition str_of_Z (z : Z) : string := NilZero.string_of_int (Z.to_int z).
Definition str_of_nat (n : nat) : string :=
  NilZero.string_of_uint (Nat.to_uint n).

(** [sep.join(l)]. *)
Fixpoint join (sep : string) (l : list string) : string :=
  match l with
  | [] => ""
  | [x] => x
  | x :: rest => x +++ sep +++ join sep rest
  end.

(** ** Lists *)

(** [l[:n]], for any integer [n]. *)
Definition slice_to {A : Type} (l : list A) (n : Z) : list A :=
  if (0 <=? n)%Z then firstn (Z.to_nat n) l
  else firstn (List.length l - Z.to_nat (- n)) l.

(** [l[-k:]] for a positive literal [k]. *)
Definition slice_last {A : Type} (k : nat) (l : list A) : list A :=
  skipn (List.length l - k) l.

(** Truthiness of a list and of a string. *)
Definition truthy_list {A : Type} (l : list A) : bool :=
  match l with [] => false | _ => true end.
Definition truthy_str (s : string) : bool :=
  match s with EmptyString => false | _ => true end.

End Py.
Export Py.

(* ================================================================== *)
(** * Data model *)
(* ================================================================== *)

(** The event dictionary built by the scanner and handed to the store.
    One field per key; [None] is an absent key (the store reads every
    key with [dict.get] and a default). *)
Record Event := mkEvent {
  ev_timestamp : option string;
  ev_source : option string;
  ev_event_id : option Z;
  ev_message : option string;
  ev_llm_analysis : option string;
  ev_abnormal : option bool
}.

(** The device dictionary [{'name', 'description', 'device_id'}]; the
    three keys are always present, [None] is the Python value [None]. *)
Record Device := mkDevice {
  dev_name : option string;
  dev_description : option string;
  dev_device_id : option string
}.

(** A point in time: the [TimeGenerated] of an event-log record, or a
    Python [datetime]. *)
Record PyTime := mkTime {
  year : N; month : N; day : N; hour : N; minute : N; second : N
}.

(** One record of the Windows event log, as [ReadEventLog] returns it.
    [formatted] is what [win32evtlogutil.SafeFormatMessage(event,
    log_name)] does on this record: the text, or the exception. *)
Record EventLogRecord := mkRecord {
  EventID : Z;
  SourceName : string;
  TimeGenerated : PyTime;
  formatted : Outcome string
}.

(** One call of [win32evtlog.ReadEventLog]. *)
Inductive ReadResult :=
| ReadBatch (events : list EventLogRecord)
| ReadRaises (e : Exn).

(** What [serial.tools.list_ports.comports()] lists. *)
Record ComPort := mkPort {
  port_device : string; port_description : string; port_hwid : string
}.

(** A [Win32_PnPEntity] row; [None] in [wmi_Description] is an object
    without that attribute. *)
Record WmiEntity := mkWmi {
  wmi_Name : option string;
  wmi_Description : option (option string);
  wmi_DeviceID : string
}.

(** Parsed JSON, as [response.json()] returns it.  An object holds its
    keys once; of a real number the code can only observe truthiness. *)
#[warnings="-register-all"]
Inductive Json :=
| JNull
| JBool (b : bool)
| JInt (z : Z)
| JFloat (nonzero : bool)
| JStr (s : string)
| JArr (l : list Json)
| JObj (fields : list (string * Json)).

(** The HTTP answer of [requests.post]: the status code and what
    [response.json()] does. *)
Record Response := mkResponse {
  status_code : Z;
  json_body : Outcome Json;
  text : string
}.

(** A Python float the code only forwards (numerator, denominator). *)
Definition PyFloat : Type := (Z * positive)%type.

(** The user prompt: the fixed template of [analyze_logs_with_llm] and
    the values interpolated into it. *)
Record Prompt := mkPrompt {
  pr_log_name : string;
  pr_sources : list string;
  pr_ids : list Z;
  pr_collected_at : string;
  pr_log_summary : string
}.

(** The JSON body of the request: the two messages, the model, the
    [stream] flag and the temperature. *)
Record Payload := mkPayload {
  req_system : string;
  req_user : Prompt;
  req_model : string;
  req_stream : bool;
  req_temperature : PyFloat
}.

(** ** Database *)

(** A row holds the columns the program's statements name; the columns
    SQLite fills by itself ([created_at], and [id] except for sessions)
    are left out. *)

Record EventRow := mkEventRow {
  er_timestamp : string;
  er_source : string;
  er_event_id : Z;
  er_message : string;
  er_llm_analysis : string;
  er_abnormal_flag : Z
}.

Record HardwareRow := mkHardwareRow {
  hr_timestamp : string;
  hr_hw_type : string;
  hr_name : string;
  hr_description : option string;
  hr_device_id : option string
}.

Record SessionRow := mkSessionRow {
  sr_id : nat;
  sr_start_time : string;
  sr_end_time : option string;
  sr_events_found : Z;
  sr_hw_devices_found : Z;
  sr_llm_analysis_performed : Z;
  sr_summary : option string
}.

Record Database := mkDatabase {
  events_tbl : list EventRow;
  hardware_info_tbl : list HardwareRow;
  scan_sessions_tbl : list SessionRow
}.

(** ** Configuration ([config.yaml] after [yaml.safe_load]) *)

Record EventLogConf := mkEventLogConf {
  log_name : option string;
  max_events_to_read : option Z;
  target_sources : option (list string);
  target_event_ids : option (list Z)
}.

Record LlmConf := mkLlmConf {
  api_url : option string;
  model : option string;
  request_timeout : option Z;
  temperature : option PyFloat;
  max_log_details_for_llm : option Z;
  abnormal_keywords : option (list string);
  check_threshold : option Z;
  enabled : option bool
}.

Record Config := mkConfig {
  event_log : option EventLogConf;
  llm : option LlmConf
}.

(** [d.get(key, default)]. *)
Definition get {A : Type} (field : option A) (default : A) : A :=
  match field with Some v => v | None => default end.

(** [config.get('event_log', {})] and [config.get('llm', {})]. *)
Definition empty_event_log : EventLogConf := mkEventLogConf None None None None.
Definition empty_llm : LlmConf :=
  mkLlmConf None None None None None None None None.

(* ================================================================== *)
(** * Effects, world and the monad of the program *)
(* ================================================================== *)

Inductive Level := DEBUG | INFO | WARNING | ERROR | CRITICAL.

(** A value interpolated into a log message or bound to an SQL
    parameter. *)
Inductive Arg :=
| AStr (s : string)
| AInt (z : Z)
| ANat (n : nat)
| AStrs (l : list string)
| AInts (l : list Z)
| AExn (e : Exn)
| ANone.

(** An [int] passed to a statement as a parameter.  [Size n] is a
    number that cannot leave the 64 bits of an SQLite integer: the
    length of a list or a count of its items (at most [sys.maxsize],
    2^63 - 1), or a row id read from [cursor.lastrowid]; it always
    binds.  [Int z] is any other integer, which binds when it fits. *)
Inductive PyInt :=
| Size (n : nat)
| Int (z : Z).

Definition int_value (i : PyInt) : Z :=
  match i with Size n => Z.of_nat n | Int z => z end.

Definition arg_of_int (i : PyInt) : Arg :=
  match i with Size n => ANat n | Int z => AInt z end.

(** [sqlite3] stores an [int] as a signed integer of 64 bits. *)
Definition fits_int64 (z : Z) : bool :=
  ((- 2 ^ 63 <=? z) && (z <? 2 ^ 63))%Z.

(** The parameters can be bound: every integer among them fits. *)
Definition binds (params : list Arg) : bool :=
  forallb (fun a => match a with AInt z => fits_int64 z | _ => true end) params.

(** What a run leaves in the trace: the calls of the logger (the
    message as its template and the values interpolated), the entries
    into the components of the pipeline ([Call fn], which makes "[fn]
    was invoked" observable), and the calls to the outside. *)
Inductive Effect :=
| Log (lvl : Level) (template : string) (args : list Arg)
| Call (fn : string)
| OpenEventLog (name : string)
| ReadEventLog
| CloseEventLog
| HttpPost (url : string) (bearer : string) (body : Payload) (timeout : Z)
| SqlConnect
| SqlExecute (stmt : string) (params : list Arg)
| SqlCommit
| SqlClose
| ListComPorts
| WmiQuery (query : string)
| External (what : string).

(** The connection object of [sqlite3]: the view of the open
    transaction.  [commit] publishes it, [close] drops it. *)
Record World := mkWorld {
  db : Database;
  conn : option Database;
  clock : nat;
  trace : list Effect
}.

(** What the outside does during one run. *)
Record Env := mkEnv {
  is_windows : bool;
  wmi_loaded : bool;
  win32evtlog_loaded : bool;
  comports : Outcome (list ComPort);
  wmi_cameras : Outcome (list WmiEntity);
  wmi_usb : Outcome (list WmiEntity);
  open_event_log : Outcome unit;
  read_event_log : list ReadResult;
  close_event_log : option Exn;
  requests_post : Outcome Response;
  sql_fault : nat -> bool;
  now_isoformat : nat -> string;
  now_strftime : nat -> string;
  db_path : option string;
  load_dotenv : option Exn;
  getenv_GROK_API_KEY : option string;
  repr_json : Json -> string
}.

Definition M (A : Type) : Type := World -> Outcome A * World.

Definition ret {A : Type} (a : A) : M A := fun w => (Return a, w).

Definition raise {A : Type} (e : Exn) : M A := fun w => (Raise e, w).

Definition bind {A B : Type} (m : M A) (k : A -> M B) : M B :=
  fun w =>
    match m w with
    | (Return a, w') => k a w'
    | (Raise e, w') => (Raise e, w')
    end.

Notation "x <- m ;; k" := (bind m (fun x => k))
  (at level 61, m at next level, right associativity).
Notation "' pat <- m ;; k" := (bind m (fun x => match x with pat => k end))
  (at level 61, pat pattern, m at next level, right associativity).
Notation "m ;;; k" := (bind m (fun _ => k))
  (at level 61, right associativity).

(** [try: m  except <clauses>]: [handler e] is the first clause that
    matches [e], if any. *)
Definition try_except {A : Type} (m : M A) (handler : Exn -> option (M A))
  : M A :=
  fun w =>
    match m w with
    | (Raise e, w') =>
        match handler e with
        | Some k => k w'
        | None => (Raise e, w')
        end
    | r => r
    end.

(** [try: m  finally: f]. *)
Definition try_finally {A : Type} (m : M A) (f : M unit) : M A :=
  fun w =>
    match m w with
    | (r, w') =>
        match f w' with
        | (Return _, w'') => (r, w'')
        | (Raise e, w'') => (Raise e, w'')
        end
    end.

(** One [except C as e:] clause. *)
Definition except {A : Type} (cls : string) (body : Exn -> M A)
  (rest : Exn -> option (M A)) (e : Exn) : option (M A) :=
  if isinstance e cls then Some (body e) else rest e.
Definition no_more {A : Type} (e : Exn) : option (M A) := None.

Definition emit (e : Effect) : M unit :=
  fun w => (Return tt, mkWorld (db w) (conn w) (clock w) (trace w ++ [e])).

Definition logger (lvl : Level) (template : string) (args : list Arg) : M unit :=
  emit (Log lvl template args).

(** The oracle clock: every call to the outside takes one tick. *)
Definition tick : M nat :=
  fun w => (Return (clock w),
            mkWorld (db w) (conn w) (S (clock w)) (trace w)).

(** Run an outcome the environment prescribes. *)
Definition lift {A : Type} (o : Outcome A) : M A := fun w => (o, w).

(** [for x in l: body x], threading the loop's variables [acc]. *)
Fixpoint for_each {A S : Type} (l : list A) (body : A -> S -> M S) (acc : S)
  : M S :=
  match l with
  | [] => ret acc
  | x :: rest => acc' <- body x acc ;; for_each rest body acc'
  end.

(** Truthiness of a session id ([None] and [0] are falsy). *)
Definition truthy_session (session_id : option nat) : bool :=
  match session_id with Some (S _) => true | _ => false end.

(* ================================================================== *)
(** * src/db_manager.py *)
(* ================================================================== *)

Module db_manager.
Section WithEnv.
Variable env : Env.

(** ** The [sqlite3] connection *)

Definition set_conn (c : option Database) : M unit :=
  fun w => (Return tt, mkWorld (db w) c (clock w) (trace w)).

(** [sqlite3.connect(db_path)]: the new connection sees the committed
    rows. *)
Definition sqlite3_connect : M unit :=
  emit SqlConnect ;;;
  t <- tick ;;
  if sql_fault env t then raise sqlite3_OperationalError
  else fun w => (Return tt, mkWorld (db w) (Some (db w)) (clock w) (trace w)).

(** [cursor.execute(stmt, params)]; [run] is the statement's action on
    the rows the connection sees.  An integer parameter that does not
    fit in 64 bits raises [OverflowError], which is no [sqlite3.Error],
    and the statement does not run. *)
Definition execute {A : Type} (stmt : string) (params : list Arg)
  (run : Database -> Outcome (A * Database)) : M A :=
  emit (SqlExecute stmt params) ;;;
  t <- tick ;;
  if sql_fault env t then raise sqlite3_OperationalError
  else if negb (binds params) then raise OverflowError
  else fun w =>
    match conn w with
    | None => (Raise (builtin_exn "ProgrammingError" ["sqlite3.Error"]), w)
    | Some view =>
        match run view with
        | Return (a, view') =>
            (Return a, mkWorld (db w) (Some view') (clock w) (trace w))
        | Raise e => (Raise e, w)
        end
    end.

(** [conn.commit()]. *)
Definition commit : M unit :=
  emit SqlCommit ;;;
  t <- tick ;;
  if sql_fault env t then raise sqlite3_OperationalError
  else fun w =>
    (Return tt, mkWorld (get (conn w) (db w)) (conn w) (clock w) (trace w)).

(** [conn.close()]: what was not committed is lost. *)
Definition close : M unit :=
  emit SqlClose ;;; set_conn None.

(** [datetime.datetime.now().isoformat()]. *)
Definition now : M string :=
  t <- tick ;; ret (now_isoformat env t).

(** ** The functions of the module *)

(** The data directory is the environment's; [None] when it cannot be
    created. *)
Definition get_db_path : M (option string) := ret (db_path env).

Definition get_db_connection : M (option unit) :=
  p <- get_db_path ;;
  match p with
  | None => ret None
  | Some _ =>
      try_except
        (sqlite3_connect ;;; ret (Some tt))
        (except "sqlite3.Error" (fun e =>
           logger ERROR "데이터베이스 연결 실패: {e}" [AExn e] ;;;
           ret None)
         no_more)
  end.

Definition next_session_id (v : Database) : nat :=
  S (list_max (map sr_id (scan_sessions_tbl v))).

Definition insert_session (start_time : string) (v : Database)
  : Outcome (nat * Database) :=
  let id := next_session_id v in
  Return (id,
          mkDatabase (events_tbl v) (hardware_info_tbl v)
            (scan_sessions_tbl v ++
             [mkSessionRow id start_time None 0 0 0 None])).

Definition start_scan_session : M (option nat) :=
  emit (Call "start_scan_session") ;;;
  c <- get_db_connection ;;
  match c with
  | None => ret None
  | Some _ =>
      try_finally
        (try_except
           (start_time <- now ;;
            session_id <-
              execute "INSERT INTO scan_sessions (start_time) VALUES (?)"
                [AStr start_time] (insert_session start_time) ;;
            commit ;;;
            logger DEBUG "새 스캔 세션 시작: ID={session_id}" [ANat session_id] ;;;
            ret (Some session_id))
           (except "sqlite3.Error" (fun e =>
              logger ERROR "스캔 세션 생성 오류: {e}" [AExn e] ;;;
              ret None)
            no_more))
        close
  end.

Definition update_session (end_time : string)
  (events_found hw_devices_found llm_analysis_performed : Z)
  (summary : option string) (session_id : Z) (v : Database)
  : Outcome (unit * Database) :=
  Return (tt,
          mkDatabase (events_tbl v) (hardware_info_tbl v)
            (map (fun r =>
                    if (Z.of_nat (sr_id r) =? session_id)%Z
                    then mkSessionRow (sr_id r) (sr_start_time r)
                           (Some end_time) events_found hw_devices_found
                           llm_analysis_performed summary
                    else r)
                 (scan_sessions_tbl v))).

Definition end_scan_session (session_id : option PyInt)
  (events_found hw_devices_found llm_analysis_performed : PyInt)
  (summary : option string) : M bool :=
  emit (Call "end_scan_session") ;;;
  match session_id with
  | None => ret false
  | Some sid =>
      c <- get_db_connection ;;
      match c with
      | None => ret false
      | Some _ =>
          try_finally
            (try_except
               (end_time <- now ;;
                execute
                  ("UPDATE scan_sessions SET end_time=?, events_found=?, hw_devices_found=?, "
                   +++ "llm_analysis_performed=?, summary=? WHERE id=?")
                  [AStr end_time; arg_of_int events_found;
                   arg_of_int hw_devices_found;
                   arg_of_int llm_analysis_performed;
                   match summary with Some s => AStr s | None => ANone end;
                   arg_of_int sid]
                  (update_session end_time (int_value events_found)
                     (int_value hw_devices_found)
                     (int_value llm_analysis_performed) summary
                     (int_value sid)) ;;;
                commit ;;;
                logger DEBUG
                  "스캔 세션 종료: ID={session_id}, 이벤트={events_found}, 장치={hw_devices_found}"
                  [arg_of_int sid; arg_of_int events_found;
                   arg_of_int hw_devices_found] ;;;
                ret true)
               (except "sqlite3.Error" (fun e =>
                  logger ERROR "스캔 세션 업데이트 오류: {e}" [AExn e] ;;;
                  ret false)
                no_more))
            close
      end
  end.

Definition arg_of (v : option string) : Arg :=
  match v with Some s => AStr s | None => ANone end.

(** The INSERT into [hardware_info]; the column [name] is NOT NULL. *)
Definition insert_hardware (timestamp hw_type : string) (d : Device)
  (v : Database) : Outcome (unit * Database) :=
  match dev_name d with
  | None => Raise sqlite3_IntegrityError
  | Some n =>
      Return (tt,
              mkDatabase (events_tbl v)
                (hardware_info_tbl v ++
                 [mkHardwareRow timestamp hw_type n (dev_description d)
                    (dev_device_id d)])
                (scan_sessions_tbl v))
  end.

Definition store_hardware_info (session_id : option nat) (hw_type : string)
  (devices : list Device) : M nat :=
  emit (Call "store_hardware_info") ;;;
  if negb (truthy_list devices) then ret 0%nat
  else
    c <- get_db_connection ;;
    match c with
    | None => ret 0%nat
    | Some _ =>
        try_finally
          (try_except
             (timestamp <- now ;;
              count <-
                for_each devices
                  (fun device count =>
                     execute
                       ("INSERT INTO hardware_info (timestamp, hw_type, name, description, device_id) "
                        +++ "VALUES (?, ?, ?, ?, ?)")
                       [AStr timestamp; AStr hw_type; arg_of (dev_name device);
                        arg_of (dev_description device);
                        arg_of (dev_device_id device)]
                       (insert_hardware timestamp hw_type device) ;;;
                     ret (count + 1)%nat)
                  0%nat ;;
              commit ;;;
              logger DEBUG "{hw_type} 정보 {count}개 저장됨" [AStr hw_type; ANat count] ;;;
              ret count)
             (except "sqlite3.Error" (fun e =>
                logger ERROR "하드웨어 정보 저장 오류: {e}" [AExn e] ;;;
                ret 0%nat)
              no_more))
          close
    end.

(** The row [store_events] binds for one event: every key is read with
    [event.get(key, default)]. *)
Definition event_row (now_iso : string) (event : Event) : EventRow :=
  mkEventRow
    (get (ev_timestamp event) now_iso)
    (get (ev_source event) "")
    (get (ev_event_id event) 0%Z)
    (get (ev_message event) "")
    (get (ev_llm_analysis event) "")
    (if get (ev_abnormal event) false then 1%Z else 0%Z).

Definition insert_event (r : EventRow) (v : Database)
  : Outcome (unit * Database) :=
  Return (tt,
          mkDatabase (events_tbl v ++ [r]) (hardware_info_tbl v)
            (scan_sessions_tbl v)).

Definition store_events (session_id : option nat) (events : list Event)
  : M nat :=
  emit (Call "store_events") ;;;
  if negb (truthy_list events) then ret 0%nat
  else
    c <- get_db_connection ;;
    match c with
    | None => ret 0%nat
    | Some _ =>
        try_finally
          (try_except
             (count <-
                for_each events
                  (fun event count =>
                     default_ts <- now ;;
                     let r := event_row default_ts event in
                     execute
                       ("INSERT INTO events (timestamp, source, event_id, message, llm_analysis, abnormal_flag) "
                        +++ "VALUES (?, ?, ?, ?, ?, ?)")
                       [AStr (er_timestamp r); AStr (er_source r);
                        AInt (er_event_id r); AStr (er_message r);
                        AStr (er_llm_analysis r); AInt (er_abnormal_flag r)]
                       (insert_event r) ;;;
                     ret (count + 1)%nat)
                  0%nat ;;
              commit ;;;
              logger DEBUG "이벤트 {count}개 저장됨" [ANat count] ;;;
              ret count)
             (except "sqlite3.Error" (fun e =>
                logger ERROR "이벤트 저장 오류: {e}" [AExn e] ;;;
                ret 0%nat)
              no_more))
          close
    end.

End WithEnv.
End db_manager.

(* ================================================================== *)
(** * Library models: [re] and [datetime.strptime] *)
(* ================================================================== *)

(** A backtracking matcher for the regular expressions the program
    uses: the successes of a pattern are listed in the order in which
    Python's engine tries them. *)
Module re.

Inductive Re :=
| Lit (s : string)
| Chr (p : ascii -> bool)
| Many1 (p : ascii -> bool)
| Seq (a b : Re)
| Alt (a b : Re)
| Grp (a : Re).

Record Found := mkFound {
  matched : string;
  groups : list string;
  rest : string
}.

Fixpoint drop (n : nat) (s : string) : string :=
  match n, s with
  | S n', String _ r => drop n' r
  | _, _ => s
  end.

(** [p+], greedy: the longest run first. *)
Fixpoint many1 (p : ascii -> bool) (s : string) : list Found :=
  match s with
  | String c r =>
      if p c
      then map (fun f => mkFound (String c (matched f)) [] (rest f)) (many1 p r)
           ++ [mkFound (String c "") [] r]
      else []
  | EmptyString => []
  end.

Fixpoint run (r : Re) (s : string) : list Found :=
  match r with
  | Lit l => if prefix l s then [mkFound l [] (drop (String.length l) s)] else []
  | Chr p =>
      match s with
      | String c r' => if p c then [mkFound (String c "") [] r'] else []
      | EmptyString => []
      end
  | Many1 p => many1 p s
  | Seq a b =>
      flat_map
        (fun f1 =>
           map (fun f2 =>
                  mkFound (matched f1 +++ matched f2)
                    (groups f1 ++ groups f2) (rest f2))
               (run b (rest f1)))
        (run a s)
  | Alt a b => run a s ++ run b s
  | Grp a =>
      map (fun f => mkFound (matched f) (matched f :: groups f) (rest f))
          (run a s)
  end.

(** [re.match(r, s)]. *)
Definition match_ (r : Re) (s : string) : option Found := hd_error (run r s).

(** [re.search(r, s)]: the leftmost position with a match. *)
Fixpoint search (r : Re) (s : string) : option Found :=
  match match_ r s with
  | Some f => Some f
  | None =>
      match s with
      | EmptyString => None
      | String _ s' => search r s'
      end
  end.

(** [m.group(1)]. *)
Definition group1 (f : Found) : string := nth 0 (groups f) "".

(** Character classes. *)
Definition range (lo hi : string) (c : ascii) : bool :=
  match lo, hi with
  | String l _, String h _ =>
      (nat_of_ascii l <=? nat_of_ascii c)%nat
      && (nat_of_ascii c <=? nat_of_ascii h)%nat
  | _, _ => false
  end.
Definition digit : ascii -> bool := range "0" "9".
Definition one (ch : string) (c : ascii) : bool := range ch ch c.
Definition either (p q : ascii -> bool) (c : ascii) : bool := p c || q c.
Definition non (p : ascii -> bool) (c : ascii) : bool := negb (p c).

(** A pattern followed by [$]: a success of the pattern counts when
    what follows it is the end of the text, or a newline that ends the
    text.  The engine takes the first such success. *)
Definition at_end (s : string) : bool :=
  match s with
  | EmptyString => true
  | String c EmptyString => Ascii.eqb c (ascii_of_nat 10)
  | _ => false
  end.

Definition match_end (r : Re) (s : string) : option Found :=
  find (fun f => at_end (rest f)) (run r s).

(** [re.search(r + '$', s)]. *)
Fixpoint search_end (r : Re) (s : string) : option Found :=
  match match_end r s with
  | Some f => Some f
  | None =>
      match s with
      | EmptyString => None
      | String _ s' => search_end r s'
      end
  end.

End re.

Module datetime.

(** [datetime.datetime.min]. *)
Definition min : PyTime := mkTime 1 1 1 0 0 0.

Definition leb (a b : PyTime) : bool :=
  let key t := [year t; month t; day t; hour t; minute t; second t] in
  (fix lex (x y : list N) : bool :=
     match x, y with
     | p :: x', q :: y' => (p <? q)%N || ((p =? q)%N && lex x' y')
     | _, _ => true
     end) (key a) (key b).

(** [int(s)] on a run of decimal digits, blanks around it ignored. *)
Definition int (s : string) : N :=
  (fix go (acc : N) (s : string) : N :=
     match s with
     | EmptyString => acc
     | String c r => go (10 * acc + (N_of_ascii c - 48))%N r
     end) 0%N (strip s).

Definition is_leap (y : N) : bool :=
  ((y mod 4 =? 0) && negb (y mod 100 =? 0) || (y mod 400 =? 0))%N.

Definition days_in_month (y m : N) : N :=
  if (m =? 2)%N then (if is_leap y then 29 else 28)%N
  else if ((m =? 4) || (m =? 6) || (m =? 9) || (m =? 11))%N then 30%N
  else 31%N.

Import re.

(** The pattern [_strptime] compiles for ['%Y-%m-%d %H:%M:%S']. *)
Definition format_regex : Re :=
  let d := Chr digit in
  let Y := Grp (Seq d (Seq d (Seq d d))) in
  let m := Grp (Alt (Seq (Lit "1") (Chr (range "0" "2")))
               (Alt (Seq (Lit "0") (Chr (range "1" "9")))
                    (Chr (range "1" "9")))) in
  let dd := Grp (Alt (Seq (Lit "3") (Chr (range "0" "1")))
                (Alt (Seq (Chr (range "1" "2")) d)
                (Alt (Seq (Lit "0") (Chr (range "1" "9")))
                (Alt (Chr (range "1" "9"))
                     (Seq (Lit " ") (Chr (range "1" "9"))))))) in
  let H := Grp (Alt (Seq (Lit "2") (Chr (range "0" "3")))
               (Alt (Seq (Chr (range "0" "1")) d) d)) in
  let MM := Grp (Alt (Seq (Chr (range "0" "5")) d) d) in
  let SS := Grp (Alt (Seq (Lit "6") (Chr (range "0" "1")))
                (Alt (Seq (Chr (range "0" "5")) d) d)) in
  Seq Y (Seq (Lit "-") (Seq m (Seq (Lit "-") (Seq dd
    (Seq (Many1 is_space) (Seq H (Seq (Lit ":") (Seq MM
      (Seq (Lit ":") SS))))))))).

(** [datetime.datetime.strptime(s, '%Y-%m-%d %H:%M:%S')]: the text must
    match the pattern and be consumed whole, and the fields must name a
    date and a time that exist; otherwise [ValueError]. *)
Definition strptime (s : string) : Outcome PyTime :=
  match match_ format_regex s with
  | None => Raise ValueError
  | Some f =>
      match rest f, map int (groups f) with
      | EmptyString, [y; m; d; h; mi; sec] =>
          if ((1 <=? y) && (1 <=? d) && (d <=? days_in_month y m)
              && (sec <=? 59))%N
          then Return (mkTime y m d h mi sec)
          else Raise ValueError
      | _, _ => Raise ValueError
      end
  end.

(** [t.Format(fmt)] for the two formats of the scanner: fields are
    zero-padded ([%Y] to four digits, the others to two). *)
Definition pad (width : nat) (n : N) : string :=
  let s := NilZero.string_of_uint (N.to_uint n) in
  (fix zeros (k : nat) : string :=
     match k with O => s | S k' => "0" +++ zeros k' end)
    (width - String.length s)%nat.

Definition Format (sep : string) (t : PyTime) : string :=
  pad 4 (year t) +++ "-" +++ pad 2 (month t) +++ "-" +++ pad 2 (day t)
  +++ sep +++ pad 2 (hour t) +++ ":" +++ pad 2 (minute t) +++ ":"
  +++ pad 2 (second t).

End datetime.

(* ================================================================== *)
(** * src/llm_analyzer.py *)
(* ================================================================== *)

Module llm_analyzer.

(** The dictionary [preprocess_logs] builds for one line. *)
Record ParsedLog := mkParsed {
  pl_time : string;
  pl_timestamp : PyTime;
  pl_source : string;
  pl_event_id : string;
  pl_full_log : string
}.

(** [r'시간: ([\d-]+ [\d:]+)'], [r'ID: (\d+)'], [r'소스: ([^,]+)']. *)
Definition time_re : re.Re :=
  re.Seq (re.Lit "시간: ")
    (re.Grp (re.Seq (re.Many1 (re.either re.digit (re.one "-")))
               (re.Seq (re.Lit " ")
                  (re.Many1 (re.either re.digit (re.one ":")))))).
Definition event_id_re : re.Re :=
  re.Seq (re.Lit "ID: ") (re.Grp (re.Many1 re.digit)).
Definition source_re : re.Re :=
  re.Seq (re.Lit "소스: ") (re.Grp (re.Many1 (re.non (re.one ",")))).

Definition no_data : string := "분석할 관련 이벤트 로그 내용이 없습니다.".

(** The entry appended when parsing a line raised. *)
Definition parse_failed (log : string) : ParsedLog :=
  mkParsed "1970-01-01 00:00:00" datetime.min "파싱 실패" "0" log.

(** The body of the [try] for one line: nothing is appended when the
    time pattern is not found. *)
Definition parse_line (log : string) (parsed_logs : list ParsedLog)
  : M (list ParsedLog) :=
  match re.search time_re log with
  | Some time_match =>
      let time_str := re.group1 time_match in
      let event_id :=
        match re.search event_id_re log with
        | Some event_id_match => re.group1 event_id_match
        | None => "알 수 없음"
        end in
      let source :=
        match re.search source_re log with
        | Some source_match => strip (re.group1 source_match)
        | None => "알 수 없음"
        end in
      timestamp <- lift (datetime.strptime time_str) ;;
      ret (parsed_logs ++ [mkParsed time_str timestamp source event_id log])
  | None => ret parsed_logs
  end.

Definition parse_logs (recent_logs : list string) : M (list ParsedLog) :=
  for_each recent_logs
    (fun log parsed_logs =>
       try_except (parse_line log parsed_logs)
         (except "Exception" (fun e =>
            logger DEBUG "로그 파싱 실패 (무시됨): {e}" [AExn e] ;;;
            ret (parsed_logs ++ [parse_failed log]))
          no_more))
    [].

(** [sorted(parsed_logs, key=lambda x: x['timestamp'])]: stable. *)
Fixpoint insert_sorted (x : ParsedLog) (l : list ParsedLog) : list ParsedLog :=
  match l with
  | [] => [x]
  | y :: ys =>
      if datetime.leb (pl_timestamp x) (pl_timestamp y) then x :: l
      else y :: insert_sorted x ys
  end.
Definition sorted (l : list ParsedLog) : list ParsedLog :=
  fold_right insert_sorted [] l.

(** [grouped_logs]: a dictionary in insertion order. *)
Definition group_key (log : ParsedLog) : string :=
  pl_source log +++ " (ID: " +++ pl_event_id log +++ ")".

Fixpoint group_append (key : string) (log : ParsedLog)
  (grouped_logs : list (string * list ParsedLog))
  : list (string * list ParsedLog) :=
  match grouped_logs with
  | [] => [(key, [log])]
  | (k, logs) :: others =>
      if String.eqb k key then (k, logs ++ [log]) :: others
      else (k, logs) :: group_append key log others
  end.

Definition group_logs (sorted_logs : list ParsedLog)
  : list (string * list ParsedLog) :=
  fold_left (fun grouped_logs log => group_append (group_key log) log grouped_logs)
    sorted_logs [].

(** The entries of a group that are displayed. *)
Definition display_logs (logs : list ParsedLog) : list ParsedLog :=
  if (5 <? List.length logs)%nat then firstn 3 logs ++ slice_last 2 logs
  else logs.

Definition entry_line (log : ParsedLog) : string :=
  "[" +++ pl_time log +++ "] " +++ pl_full_log log.

(** The lines the final loop appends for one group. *)
Definition group_lines (group : string * list ParsedLog) : list string :=
  let (group_key, logs) := group in
  ["## " +++ group_key +++ " - " +++ str_of_nat (List.length logs) +++ "건"]
  ++ (if (5 <? List.length logs)%nat
      then ["전체 " +++ str_of_nat (List.length logs)
            +++ "건 중 처음 3건과 마지막 2건만 표시합니다."]
      else [])
  ++ map entry_line (display_logs logs)
  ++ [""].

(** The list [result] before it is joined. *)
Definition digest_lines (sorted_logs : list ParsedLog)
  (grouped_logs : list (string * list ParsedLog)) : Outcome (list string) :=
  match sorted_logs with
  | [] => Raise IndexError
  | first :: _ =>
      Return
        (["## 요약 정보";
          "- 총 로그 수: " +++ str_of_nat (List.length sorted_logs) +++ "개";
          "- 시간 범위: " +++ pl_time first +++ " ~ "
            +++ pl_time (last sorted_logs first);
          "- 이벤트 소스 유형: " +++ str_of_nat (List.length grouped_logs)
            +++ "개" +++ nl]
         ++ flat_map group_lines grouped_logs)
  end.

Definition preprocess_logs (log_details : list string) (max_logs : Z)
  : M string :=
  if negb (truthy_list log_details) then ret no_data
  else
    let recent_logs := slice_to log_details max_logs in
    parsed_logs <- parse_logs recent_logs ;;
    let sorted_logs := sorted parsed_logs in
    let grouped_logs := group_logs sorted_logs in
    result <- lift (digest_lines sorted_logs grouped_logs) ;;
    ret (join nl result).

(** ** [analyze_logs_with_llm] *)

Section WithEnv.
Variable env : Env.

(** Dynamic operations on the parsed response. *)

Definition truthy (j : Json) : bool :=
  match j with
  | JNull => false
  | JBool b => b
  | JInt z => negb (z =? 0)%Z
  | JFloat nonzero => nonzero
  | JStr s => truthy_str s
  | JArr l => truthy_list l
  | JObj fields => truthy_list fields
  end.

Fixpoint lookup (key : string) (fields : list (string * Json)) : option Json :=
  match fields with
  | [] => None
  | (k, v) :: others => if String.eqb k key then Some v else lookup key others
  end.

(** [d.get(key)]. *)
Definition method_get (d : Json) (key : string) : Outcome Json :=
  match d with
  | JObj fields => Return (get (lookup key fields) JNull)
  | _ => Raise AttributeError
  end.

(** [d[key]] for a string key. *)
Definition subscript (d : Json) (key : string) : Outcome Json :=
  match d with
  | JObj fields =>
      match lookup key fields with
      | Some v => Return v
      | None => Raise KeyError
      end
  | _ => Raise TypeError
  end.

(** [len(x)]. *)
Definition len (x : Json) : Outcome nat :=
  match x with
  | JStr s => Return (String.length s)
  | JArr l => Return (List.length l)
  | JObj fields => Return (List.length fields)
  | _ => Raise TypeError
  end.

(** [x[0]]. *)
Definition item0 (x : Json) : Outcome Json :=
  match x with
  | JArr (first :: _) => Return first
  | JArr [] => Raise IndexError
  | JStr (String c _) => Return (JStr (String c ""))
  | JStr EmptyString => Raise IndexError
  | JObj _ => Raise KeyError
  | _ => Raise TypeError
  end.

(** [x[:200]]: only whether it raises matters (it is logged). *)
Definition slice200 (x : Json) : Outcome unit :=
  match x with
  | JStr _ | JArr _ => Return tt
  | _ => Raise TypeError
  end.

(** [x.lower()]. *)
Definition method_lower (x : Json) : Outcome string :=
  match x with
  | JStr s => Return (lower s)
  | _ => Raise AttributeError
  end.

(** [str(x)] inside an f-string. *)
Definition py_str (x : Json) : string :=
  match x with
  | JStr s => s
  | _ => repr_json env x
  end.

(** [any(keyword in content.lower() for keyword in abnormal_keywords)]. *)
Fixpoint any_keyword_in (content : Json) (abnormal_keywords : list string)
  : Outcome bool :=
  match abnormal_keywords with
  | [] => Return false
  | keyword :: others =>
      match method_lower content with
      | Raise e => Raise e
      | Return lowered =>
          if str_in keyword lowered then Return true
          else any_keyword_in content others
      end
  end.

Definition system_message : string :=
  "당신은 Windows 시스템 이벤트 로그 분석 전문가입니다. 하드웨어 장치 연결 문제, 드라이버 오류, 시스템 장애 패턴을 식별하는 데 특화되어 있습니다."
  +++ nl +++ "분석 시에는 다음 원칙을 따르세요:"
  +++ nl +++ "1. 데이터에 기반한 객관적 분석 제공"
  +++ nl +++ "2. 명확한 패턴이 있을 때만 비정상으로 판단"
  +++ nl +++ "3. 불확실한 경우 '추가 모니터링 필요' 권고"
  +++ nl +++ "4. 기술적 용어와 일반 사용자 용어를 적절히 혼합하여 설명"
  +++ nl +++ "5. 복잡한 기술적 문제도 명확하게 설명".

(** [response.raise_for_status()]. *)
Definition raise_for_status (response : Response) : M unit :=
  if ((400 <=? status_code response) && (status_code response <? 600))%Z
  then raise (mkExn "HTTPError"
                ["requests.exceptions.HTTPError";
                 "requests.exceptions.RequestException"; "OSError"]
                0 "" (Some (status_code response, text response)))
  else ret tt.

(** The body of the [try] block. *)
Definition request_and_classify (api_url api_key model : string)
  (payload : Payload) (timeout : Z) (abnormal_keywords : list string)
  : M string :=
  emit (HttpPost api_url api_key payload timeout) ;;;
  response <- lift (requests_post env) ;;
  raise_for_status response ;;;
  result <- lift (json_body response) ;;
  choices <- lift (method_get result "choices") ;;
  nonempty <-
    (if truthy choices
     then choices' <- lift (subscript result "choices") ;;
          n <- lift (len choices') ;;
          ret (0 <? n)%nat
     else ret false) ;;
  if nonempty : bool then
    choices' <- lift (subscript result "choices") ;;
    choice <- lift (item0 choices') ;;
    message <- lift (method_get choice "message") ;;
    has_content <-
      (if truthy message
       then content <- lift (method_get message "content") ;;
            ret (truthy content)
       else ret false) ;;
    if has_content : bool then
      llm_response_content <- lift (subscript message "content") ;;
      logger INFO "LLM 분석 응답 수신 성공." [] ;;;
      lift (slice200 llm_response_content) ;;;
      logger DEBUG "LLM 응답 내용: {llm_response_content[:200]}..."
        [AStr (py_str llm_response_content)] ;;;
      is_abnormal <- lift (any_keyword_in llm_response_content abnormal_keywords) ;;
      if is_abnormal : bool then
        logger WARNING "LLM 분석 결과: 비정상 패턴 의심." [] ;;;
        ret ("비정상 패턴 의심됨: " +++ py_str llm_response_content)
      else
        logger INFO "LLM 분석 결과: 명확한 비정상 패턴 언급 없음." [] ;;;
        ret ("정상 범위 추정: " +++ py_str llm_response_content)
    else
      logger ERROR "LLM 응답 형식 오류: content 누락. 응답: {result}"
        [AStr (py_str result)] ;;;
      ret "LLM 응답 형식 오류"
  else
    logger ERROR "LLM 응답 형식 오류: choices 누락. 응답: {result}"
      [AStr (py_str result)] ;;;
    ret "LLM 응답 형식 오류".

Definition analyze_logs_with_llm (log_details : list string) (config : Config)
  (api_key : option string) : M string :=
  emit (Call "analyze_logs_with_llm") ;;;
  match api_key with
  | None | Some EmptyString =>
      logger ERROR "LLM 분석을 위한 API 키가 제공되지 않았습니다." [] ;;;
      ret "API 키 없음"
  | Some api_key =>
      let llm_config := get (llm config) empty_llm in
      let timeout := get (request_timeout llm_config) 60%Z in
      let temperature := get (temperature llm_config) (1%Z, 2%positive) in
      let max_logs := get (max_log_details_for_llm llm_config) 20%Z in
      let abnormal_keywords := get (abnormal_keywords llm_config) [] in
      match api_url llm_config, model llm_config with
      | Some (String _ _ as api_url), Some (String _ _ as model) =>
          log_summary <- preprocess_logs log_details max_logs ;;
          if negb (truthy_str log_summary) || String.eqb log_summary no_data
          then ret "분석할 로그 내용 없음"
          else
            let event_config := get (event_log config) empty_event_log in
            let sources := get (target_sources event_config) [] in
            let ids := get (target_event_ids event_config) [] in
            t <- tick ;;
            let prompt :=
              mkPrompt (get (log_name event_config) "System") sources ids
                (now_strftime env t) log_summary in
            let payload :=
              mkPayload system_message prompt model false temperature in
            logger INFO "'{model}' 모델로 LLM 분석 요청 시작..." [AStr model] ;;;
            try_except
              (request_and_classify api_url api_key model payload timeout
                 abnormal_keywords)
              (except "requests.exceptions.Timeout" (fun _ =>
                 logger ERROR "LLM API 호출 시간 초과 ({timeout}초)." [AInt timeout] ;;;
                 ret "LLM API 시간 초과")
              (except "requests.exceptions.ConnectionError" (fun e =>
                 logger ERROR "LLM API 연결 오류: {e}" [AExn e] ;;;
                 ret "LLM API 연결 오류")
              (except "requests.exceptions.RequestException" (fun e =>
                 logger ERROR "LLM API 요청 중 오류 발생: {e}" [AExn e] ;;;
                 match exn_response e with
                 | Some (code, body) =>
                     logger ERROR
                       "LLM API 응답 코드: {e.response.status_code}, 내용: {e.response.text[:500]}"
                       [AInt code; AStr body]
                 | None => ret tt
                 end ;;;
                 ret ("LLM API 요청 오류: " +++ exn_class e))
              (except "json.JSONDecodeError" (fun e =>
                 logger ERROR "LLM API 응답 JSON 파싱 오류: {e}" [AExn e] ;;;
                 match requests_post env with
                 | Return response =>
                     logger ERROR "오류 발생 시 응답 내용: {response.text[:500]}"
                       [AStr (text response)]
                 | Raise _ => raise UnboundLocalError
                 end ;;;
                 ret "LLM 응답 파싱 오류")
              (except "Exception" (fun e =>
                 logger ERROR "LLM 분석 중 예기치 않은 오류 발생: {e}" [AExn e] ;;;
                 ret "LLM 분석 중 알 수 없는 오류")
               no_more)))))
      | _, _ =>
          logger ERROR "LLM 설정(api_url, model)이 설정 파일에 없습니다." [] ;;;
          ret "LLM 설정 오류"
      end
  end.

End WithEnv.
End llm_analyzer.

(* ================================================================== *)
(** * src/utils.py *)
(* ================================================================== *)

Module utils.
Section WithEnv.
Variable env : Env.

Definition load_api_key : M (option string) :=
  try_except
    (match load_dotenv env with
     | Some e => raise e
     | None => ret tt
     end ;;;
     match getenv_GROK_API_KEY env with
     | None | Some EmptyString =>
         logger ERROR
           "GROK_API_KEY 환경 변수를 찾을 수 없습니다. .env 파일을 확인하세요." [] ;;;
         ret None
     | Some api_key =>
         logger DEBUG "GROK API 키 로드 성공 (값은 로깅되지 않음)." [] ;;;
         ret (Some api_key)
     end)
    (except "Exception" (fun e =>
       logger ERROR ".env 파일 로드 또는 API 키 검색 중 오류 발생: {e}" [AExn e] ;;;
       ret None)
     no_more).

End WithEnv.
End utils.

(* ================================================================== *)
(** * src/monitor.py *)
(* ================================================================== *)

Module monitor.

(** What [analyze_event_logs] returns:
    [(event_count, matched_event_details, matched_events)]. *)
Definition ScanResult : Type := (nat * list string * list Event)%type.

(** What [run_monitor] returns. *)
Record RunResult := mkRunResult {
  rr_event_count : nat;
  rr_hw_devices_found : nat;
  rr_llm_analysis_performed : bool;
  rr_llm_result : string;
  rr_session_id : option nat
}.

(** The test on one record: [match_found] after the two [if]s. *)
Definition match_found (target_sources : list string)
  (target_event_ids : list Z) (source_name : string) (event_id : Z) : bool :=
  let match_found := false in
  let match_found :=
    if truthy_list target_sources
       && existsb (String.eqb source_name) target_sources
    then true else match_found in
  let match_found :=
    if negb match_found && truthy_list target_event_ids
       && existsb (Z.eqb event_id) target_event_ids
    then true else match_found in
  match_found.

Section WithEnv.
Variable env : Env.

(** ** Hardware collectors *)

Definition get_com_ports (session_id : option nat) : M (list Device) :=
  logger INFO "COM 포트 정보 수집 시작..." [] ;;;
  try_except
    (emit ListComPorts ;;;
     ports <- lift (comports env) ;;
     if negb (truthy_list ports) then
       logger INFO "사용 가능한 COM 포트를 찾을 수 없습니다." [] ;;;
       ret []
     else
       logger INFO "발견된 COM 포트 수: {len(ports)}" [ANat (List.length ports)] ;;;
       com_devices <-
         for_each ports
           (fun port com_devices =>
              logger INFO "  장치: {port.device}, 설명: {port.description}, HWID: {port.hwid}"
                [AStr (port_device port); AStr (port_description port);
                 AStr (port_hwid port)] ;;;
              ret (com_devices ++
                   [mkDevice (Some (port_device port))
                      (Some (port_description port)) (Some (port_hwid port))]))
           [] ;;
       (if truthy_session session_id && truthy_list com_devices
        then count <- db_manager.store_hardware_info env session_id "COM"
                      com_devices ;;
             logger DEBUG "{count}개의 COM 포트 정보가 데이터베이스에 저장되었습니다."
               [ANat count]
        else ret tt) ;;;
       ret com_devices)
    (except "Exception" (fun e =>
       logger ERROR "COM 포트 검색 중 오류 발생: {e}" [AExn e] ;;;
       ret [])
     no_more).

(** [{cam.DeviceID: cam for cam in cameras}]: the first occurrence of a
    key fixes its place, the last one its value. *)
Fixpoint dict_put (cam : WmiEntity) (d : list WmiEntity) : list WmiEntity :=
  match d with
  | [] => [cam]
  | c :: others =>
      if String.eqb (wmi_DeviceID c) (wmi_DeviceID cam) then cam :: others
      else c :: dict_put cam others
  end.
Definition unique_by_id (cameras : list WmiEntity) : list WmiEntity :=
  fold_left (fun d cam => dict_put cam d) cameras [].

(** [getattr(x, 'Description', default)]. *)
Definition getattr_Description (x : WmiEntity) (default : string)
  : option string :=
  match wmi_Description x with
  | Some v => v
  | None => Some default
  end.

Definition camera_query : string :=
  "SELECT Name, Description, DeviceID FROM Win32_PnPEntity WHERE ClassGuid='{6bdd1fc6-810f-11d0-bec7-08002be2092f}' OR ClassGuid='{ca3e7ab9-b4c3-4ae6-8251-579ef933890f}' OR PNPClass='Camera' OR Service='usbvideo'".

Definition get_cameras_windows (session_id : option nat) : M (list Device) :=
  if negb (is_windows env) || negb (wmi_loaded env) then
    logger WARNING
      "Windows 환경이 아니거나 WMI 모듈 로드 실패로 카메라 정보를 가져올 수 없습니다." [] ;;;
    ret []
  else
    logger INFO "카메라 정보 수집 시작 (WMI 사용)..." [] ;;;
    try_except
      (emit (WmiQuery camera_query) ;;;
       cameras <- lift (wmi_cameras env) ;;
       if negb (truthy_list cameras) then
         logger INFO "연결된 카메라를 찾을 수 없습니다 (WMI)." [] ;;;
         ret []
       else
         logger INFO "발견된 카메라 수 (중복 포함 가능): {len(cameras)}"
           [ANat (List.length cameras)] ;;;
         let unique_cameras := unique_by_id cameras in
         camera_devices <-
           for_each unique_cameras
             (fun cam camera_devices =>
                logger INFO "  카메라: {cam.Name}, 설명: {...}, ID: {cam.DeviceID}"
                  [db_manager.arg_of (wmi_Name cam);
                   db_manager.arg_of (getattr_Description cam "없음");
                   AStr (wmi_DeviceID cam)] ;;;
                ret (camera_devices ++
                     [mkDevice (wmi_Name cam) (getattr_Description cam "")
                        (Some (wmi_DeviceID cam))]))
             [] ;;
         (if truthy_session session_id && truthy_list camera_devices
          then count <- db_manager.store_hardware_info env session_id "Camera"
                        camera_devices ;;
               logger DEBUG "{count}개의 카메라 정보가 데이터베이스에 저장되었습니다."
                 [ANat count]
          else ret tt) ;;;
         ret camera_devices)
      (except "wmi.x_wmi" (fun e =>
         logger ERROR "WMI 쿼리 오류 (카메라): {e}. 관리자 권한이 필요할 수 있습니다."
           [AExn e] ;;;
         ret [])
      (except "Exception" (fun e =>
         logger ERROR "카메라 정보 수집 중 예기치 않은 오류 발생: {e}" [AExn e] ;;;
         ret [])
       no_more)).

(** The filter of the USB list:
    [dev.Name and not any(keyword in dev.Name.lower() for keyword in ...)]. *)
Definition usb_kept (dev : WmiEntity) : bool :=
  match wmi_Name dev with
  | Some (String _ _ as n) =>
      negb (existsb (fun keyword => str_in keyword (lower n))
              ["hub"; "복합"; "composite"; "root"])
  | _ => false
  end.

Definition usb_query : string :=
  "SELECT Name, Description, DeviceID FROM Win32_PnPEntity WHERE DeviceID LIKE 'USB\%'".

Definition get_usb_devices_windows (session_id : option nat) : M (list Device) :=
  if negb (is_windows env) || negb (wmi_loaded env) then
    logger WARNING
      "Windows 환경이 아니거나 WMI 모듈 로드 실패로 USB 장치 정보를 가져올 수 없습니다." [] ;;;
    ret []
  else
    logger INFO "USB 장치 정보 수집 시작 (WMI 사용)..." [] ;;;
    try_except
      (emit (WmiQuery usb_query) ;;;
       usb_devices <- lift (wmi_usb env) ;;
       if negb (truthy_list usb_devices) then
         logger INFO "연결된 USB 장치를 찾을 수 없습니다 (WMI)." [] ;;;
         ret []
       else
         logger INFO "발견된 USB 장치 수 (허브, 루트 등 포함): {len(usb_devices)}"
           [ANat (List.length usb_devices)] ;;;
         let filtered_devices := filter usb_kept usb_devices in
         usb_device_list <-
           (if truthy_list filtered_devices then
              logger INFO "필터링된 USB 장치 수: {len(filtered_devices)}"
                [ANat (List.length filtered_devices)] ;;;
              for_each filtered_devices
                (fun dev usb_device_list =>
                   logger INFO "  USB 장치: {dev.Name}, 설명: {...}, ID: {dev.DeviceID}"
                     [db_manager.arg_of (wmi_Name dev);
                      db_manager.arg_of (getattr_Description dev "없음");
                      AStr (wmi_DeviceID dev)] ;;;
                   ret (usb_device_list ++
                        [mkDevice (wmi_Name dev) (getattr_Description dev "")
                           (Some (wmi_DeviceID dev))]))
                []
            else
              logger INFO
                "필터링 조건에 맞는 사용자 인식 가능 USB 장치를 찾지 못했습니다." [] ;;;
              ret []) ;;
         (if truthy_session session_id && truthy_list usb_device_list
          then count <- db_manager.store_hardware_info env session_id "USB"
                        usb_device_list ;;
               logger DEBUG "{count}개의 USB 장치 정보가 데이터베이스에 저장되었습니다."
                 [ANat count]
          else ret tt) ;;;
         ret usb_device_list)
      (except "wmi.x_wmi" (fun e =>
         logger ERROR "WMI 쿼리 오류 (USB): {e}. 관리자 권한이 필요할 수 있습니다."
           [AExn e] ;;;
         ret [])
      (except "Exception" (fun e =>
         logger ERROR "USB 장치 정보 수집 중 예기치 않은 오류 발생: {e}" [AExn e] ;;;
         ret [])
       no_more)).

(** ** [analyze_event_logs] *)

(** The body of [for i in range(events_to_process_in_batch)] for one
    record. *)
Definition scan_event (log_name : string) (target_sources : list string)
  (target_event_ids : list Z) (event : EventLogRecord) (acc : ScanResult)
  : M ScanResult :=
  let '(event_count, matched_event_details, matched_events) := acc in
  let event_id := Z.land (EventID event) 65535 in
  let source_name := SourceName event in
  if match_found target_sources target_event_ids source_name event_id then
    let event_count := (event_count + 1)%nat in
    try_except
      (msg <- lift (formatted event) ;;
       let event_time := datetime.Format " " (TimeGenerated event) in
       let event_iso_time := datetime.Format "T" (TimeGenerated event) in
       let detail :=
         "시간: " +++ event_time +++ ", 소스: " +++ source_name +++ ", ID: "
         +++ str_of_Z event_id +++ ", 메시지: " +++ strip msg in
       logger DEBUG "  조건 일치 이벤트 발견: {detail[:150]}..." [AStr detail] ;;;
       ret (event_count,
            matched_event_details ++ [detail],
            matched_events ++
            [mkEvent (Some event_iso_time) (Some source_name) (Some event_id)
               (Some (strip msg)) (Some "") (Some false)]))
      (except "Exception" (fun format_err =>
         let event_time := datetime.Format " " (TimeGenerated event) in
         let event_iso_time := datetime.Format "T" (TimeGenerated event) in
         let error_msg := "포맷 오류: " +++ exn_str format_err in
         let detail :=
           "시간: " +++ event_time +++ ", 소스: " +++ source_name +++ ", ID: "
           +++ str_of_Z event_id +++ ", 메시지: (" +++ error_msg +++ ")" in
         logger WARNING "이벤트 메시지 포맷팅 오류 발생: {format_err}"
           [AExn format_err] ;;;
         ret (event_count,
              matched_event_details ++ [detail],
              matched_events ++
              [mkEvent (Some event_iso_time) (Some source_name) (Some event_id)
                 (Some error_msg) (Some "") (Some false)]))
       no_more)
  else ret acc.

(** The [while total_read < max_events] loop; [reads] is what the
    successive calls of [ReadEventLog] do ([[]] once the log is
    exhausted). *)
Fixpoint read_loop (log_name : string) (target_sources : list string)
  (target_event_ids : list Z) (max_events : Z) (reads : list ReadResult)
  (total_read : Z) (acc : ScanResult) : M (Z * ScanResult) :=
  if (total_read <? max_events)%Z then
    emit ReadEventLog ;;;
    match reads with
    | ReadRaises e :: _ =>
        if isinstance e "pywintypes.error" && (exn_winerror e =? 18)%Z then
          logger DEBUG "더 이상 읽을 이벤트가 없습니다." [] ;;;
          ret (total_read, acc)
        else raise e
    | [] | ReadBatch [] :: _ =>
        logger DEBUG "이벤트 읽기 결과가 비어있습니다." [] ;;;
        ret (total_read, acc)
    | ReadBatch events :: later =>
        let batch_size := Z.of_nat (List.length events) in
        let events_to_process_in_batch :=
          Z.min batch_size (max_events - total_read) in
        acc <-
          for_each (firstn (Z.to_nat events_to_process_in_batch) events)
            (scan_event log_name target_sources target_event_ids) acc ;;
        let total_read := (total_read + events_to_process_in_batch)%Z in
        if (total_read >=? max_events)%Z then
          logger INFO "최대 검색 이벤트 수 ({max_events}개) 도달." [AInt max_events] ;;;
          ret (total_read, acc)
        else
          read_loop log_name target_sources target_event_ids max_events later
            total_read acc
    end
  else ret (total_read, acc).

Definition analyze_event_logs (config : Config) : M ScanResult :=
  emit (Call "analyze_event_logs") ;;;
  if negb (is_windows env) || negb (win32evtlog_loaded env) then
    logger WARNING
      "Windows 환경이 아니거나 pywin32 모듈 로드 실패로 이벤트 로그를 분석할 수 없습니다." [] ;;;
    ret (0%nat, [], [])
  else
    let evt_conf := get (event_log config) empty_event_log in
    let log_name := get (log_name evt_conf) "System" in
    let max_events := get (max_events_to_read evt_conf) 1000%Z in
    let target_sources := get (target_sources evt_conf) [] in
    let target_event_ids := get (target_event_ids evt_conf) [] in
    logger INFO "'{log_name}' 이벤트 로그 분석 시작 (최대 {max_events}개)..."
      [AStr log_name; AInt max_events] ;;;
    logger INFO "  검색 조건 - 소스: {target_sources}, ID: {target_event_ids}"
      [AStrs target_sources; AInts target_event_ids] ;;;
    if negb (truthy_list target_sources) && negb (truthy_list target_event_ids)
    then
      logger ERROR "분석할 이벤트 소스 또는 ID가 설정 파일에 지정되지 않았습니다." [] ;;;
      ret (0%nat, [], [])
    else
      try_finally
        (try_except
           (emit (OpenEventLog log_name) ;;;
            lift (open_event_log env) ;;;
            '(total_read, (event_count, matched_event_details, matched_events)) <-
              read_loop log_name target_sources target_event_ids max_events
                (read_event_log env) 0%Z (0%nat, [], []) ;;
            logger INFO "총 분석된 최근 이벤트 수: {total_read}" [AInt total_read] ;;;
            logger INFO "지정된 기준과 일치하는 이벤트 수: {event_count}"
              [ANat event_count] ;;;
            ret (event_count, matched_event_details, matched_events))
           (except "pywintypes.error" (fun e =>
              logger ERROR
                "'{log_name}' 이벤트 로그 접근 오류: {e}. 권한 또는 로그 이름 확인 필요."
                [AStr log_name; AExn e] ;;;
              ret (0%nat, [], []))
           (except "Exception" (fun e =>
              logger ERROR "이벤트 로그 분석 중 예기치 않은 오류 발생: {e}" [AExn e] ;;;
              ret (0%nat, [], []))
            no_more)))
        (match open_event_log env with
         | Return _ =>
             try_except
               (emit CloseEventLog ;;;
                match close_event_log env with
                | Some close_err => raise close_err
                | None => ret tt
                end)
               (except "Exception" (fun close_err =>
                  logger ERROR "이벤트 로그 핸들 닫기 오류: {close_err}"
                    [AExn close_err])
                no_more)
         | Raise _ => ret tt
         end).

(** ** [parse_event_log_string] *)

(** [int(s)] on a run of decimal digits; CPython refuses a text of more
    than 4300 digits with [ValueError]. *)
Definition int (s : string) : Outcome Z :=
  if (4300 <? String.length s)%nat then Raise ValueError
  else Return (Z.of_N (datetime.int s)).

(** [r'메시지: (.+)$'], without the anchor. *)
Definition message_re : re.Re :=
  re.Seq (re.Lit "메시지: ") (re.Grp (re.Many1 (re.non (re.one nl)))).

(** The patterns for the time, the source and the ID are those of
    [preprocess_logs]. *)
Definition parse_event_log_string (log_string : string) : M (option Event) :=
  try_except
    (let time_match := re.search llm_analyzer.time_re log_string in
     let source_match := re.search llm_analyzer.source_re log_string in
     let id_match := re.search llm_analyzer.event_id_re log_string in
     let message_match := re.search_end message_re log_string in
     match time_match, source_match, id_match with
     | Some time_match, Some source_match, Some id_match =>
         let event_time := re.group1 time_match in
         let source := strip (re.group1 source_match) in
         event_id <- lift (int (re.group1 id_match)) ;;
         let message :=
           match message_match with
           | Some message_match => strip (re.group1 message_match)
           | None => ""
           end in
         iso_time <-
           try_except
             (dt <- lift (datetime.strptime event_time) ;;
              ret (datetime.Format "T" dt))
             (except "ValueError" (fun _ => db_manager.now env) no_more) ;;
         ret (Some (mkEvent (Some iso_time) (Some source) (Some event_id)
                      (Some message) (Some "") (Some false)))
     | _, _, _ => ret None
     end)
    (except "Exception" (fun _ => ret None) no_more).

(** ** [run_monitor] *)

(** [config['llm']['enabled'] = False]. *)
Definition disable_llm (config : Config) : M Config :=
  match llm config with
  | None => raise KeyError
  | Some c =>
      ret (mkConfig (event_log config)
             (Some (mkLlmConf (api_url c) (model c) (request_timeout c)
                      (temperature c) (max_log_details_for_llm c)
                      (abnormal_keywords c) (check_threshold c) (Some false))))
  end.

(** [event['llm_analysis'] = llm_result; event['abnormal'] = is_abnormal]. *)
Definition annotate (llm_result : string) (is_abnormal : bool) (event : Event)
  : Event :=
  mkEvent (ev_timestamp event) (ev_source event) (ev_event_id event)
    (ev_message event) (Some llm_result) (Some is_abnormal).

Definition banner : string := "========================================".

(** The third stage of [run_monitor], from the comment
    [# --- 3. LLM 분석 (조건 충족 시) ---] to the end: the threshold
    decision, the analysis, the back-fill and store of the records,
    and the close of the session. *)
Definition llm_stage (config : Config) (api_key : option string)
  (session_id : option nat) (hw_devices_found : nat) (scan : ScanResult)
  : M RunResult :=
  let '(event_count, event_log_strings, event_objects) := scan in
  logger INFO "[단계 3/3] LLM 분석 (조건 충족 시)" [] ;;;
  let llm_config := get (llm config) empty_llm in
  let llm_check_threshold := get (check_threshold llm_config) 5%Z in
  let llm_enabled := get (enabled llm_config) true in
  let llm_analysis_performed := false in
  let llm_result := "LLM 분석 미수행" in
  let session_summary :=
    "이벤트 발견: " +++ str_of_nat event_count +++ "개, 장치 발견: "
    +++ str_of_nat hw_devices_found +++ "개" in
  '(llm_analysis_performed, llm_result, session_summary) <-
    (if (Z.of_nat event_count >=? llm_check_threshold)%Z && llm_enabled then
       logger WARNING
         "지정된 이벤트가 임계값({llm_check_threshold}회) 이상 ({event_count}회) 발생하여 LLM 분석을 시작합니다."
         [AInt llm_check_threshold; ANat event_count] ;;;
       match api_key with
       | Some (String _ _) =>
           llm_result <-
             llm_analyzer.analyze_logs_with_llm env event_log_strings config
               api_key ;;
           let llm_analysis_performed := true in
           logger INFO "LLM 분석 결과: {llm_result}" [AStr llm_result] ;;;
           '(is_abnormal, session_summary) <-
             (if str_in "비정상 패턴 의심됨" llm_result then
                logger CRITICAL
                  "!!! LLM 경고: 비정상적인 연결 끊김 패턴이 의심됩니다. 상세 점검 필요 !!!"
                  [] ;;;
                ret (true, session_summary +++ ", 비정상 패턴 감지됨")
              else ret (false, session_summary)) ;;
           let event_objects := map (annotate llm_result is_abnormal) event_objects in
           (if truthy_session session_id && truthy_list event_objects then
              stored_count <- db_manager.store_events env session_id event_objects ;;
              logger DEBUG "{stored_count}개의 이벤트가 데이터베이스에 저장되었습니다."
                [ANat stored_count]
            else ret tt) ;;;
           ret (llm_analysis_performed, llm_result, session_summary)
       | _ =>
           logger ERROR
             "LLM 분석 필요 조건이 충족되었으나 API 키가 없어 분석을 건너뜁니다." [] ;;;
           ret (llm_analysis_performed, llm_result,
                session_summary +++ ", LLM 분석 실패 (API 키 없음)")
       end
     else
       session_summary <-
         (if negb llm_enabled then
            logger INFO "LLM 분석 기능이 비활성화되어 있습니다." [] ;;;
            ret (session_summary +++ ", LLM 분석 비활성화됨")
          else
            logger INFO
              "이벤트 발생 횟수({event_count}회)가 LLM 검사 임계값({llm_check_threshold}회) 미만입니다."
              [ANat event_count; AInt llm_check_threshold] ;;;
            ret (session_summary +++ ", LLM 분석 임계값 미달")) ;;
       (if truthy_session session_id && truthy_list event_objects then
          stored_count <- db_manager.store_events env session_id event_objects ;;
          logger DEBUG "{stored_count}개의 이벤트가 데이터베이스에 저장되었습니다."
            [ANat stored_count]
        else ret tt) ;;;
       ret (llm_analysis_performed, llm_result, session_summary)) ;;
  (if truthy_session session_id then
     db_manager.end_scan_session env (option_map Size session_id)
       (Size event_count) (Size hw_devices_found)
       (Int (if llm_analysis_performed : bool then 1 else 0))
       (Some session_summary) ;;;
     logger INFO "스캔 세션 종료 (ID: {session_id})"
       [ANat (get session_id 0%nat)]
   else ret tt) ;;;
  logger INFO banner [] ;;;
  logger INFO " 스크립트 실행 완료." [] ;;;
  logger INFO banner [] ;;;
  ret (mkRunResult event_count hw_devices_found llm_analysis_performed
         llm_result session_id).


(** [run_monitor], up to the scan of the event log; the third stage
    follows in [llm_stage]. *)
Definition run_monitor (config : Config) : M RunResult :=
  logger INFO banner [] ;;;
  logger INFO " 장치 및 이벤트 로그 모니터 스크립트 시작" [] ;;;
  logger INFO banner [] ;;;
  emit (External "init_database(force=False)") ;;;
  session_id <- db_manager.start_scan_session env ;;
  match session_id with
  | None => logger WARNING "스캔 세션을 생성할 수 없어 DB 저장 기능이 제한됩니다." []
  | Some id => logger INFO "스캔 세션 시작 (ID: {session_id})" [ANat id]
  end ;;;
  api_key <- utils.load_api_key env ;;
  config <-
    match api_key with
    | None =>
        if get (enabled (get (llm config) empty_llm)) true then
          logger WARNING "API 키를 로드할 수 없어 LLM 분석 기능이 비활성화됩니다." [] ;;;
          disable_llm config
        else ret config
    | Some _ => ret config
    end ;;
  logger INFO "[단계 1/3] 하드웨어 정보 수집" [] ;;;
  let hw_devices_found := 0%nat in
  com_devices <- get_com_ports session_id ;;
  let hw_devices_found := (hw_devices_found + List.length com_devices)%nat in
  hw_devices_found <-
    (if is_windows env then
       camera_devices <- get_cameras_windows session_id ;;
       let hw_devices_found :=
         (hw_devices_found + List.length camera_devices)%nat in
       usb_devices <- get_usb_devices_windows session_id ;;
       ret (hw_devices_found + List.length usb_devices)%nat
     else
       logger INFO
         "Windows 환경이 아니므로 카메라 및 USB 정보 수집(WMI)을 건너뜁니다." [] ;;;
       ret hw_devices_found) ;;
  logger INFO "[단계 2/3] 이벤트 로그 분석" [] ;;;
  scan <- analyze_event_logs config ;;
  llm_stage config api_key session_id hw_devices_found scan.

End WithEnv.
End monitor.

(* ================================================================== *)
(** * src/cli.py *)
(* ================================================================== *)

Module cli.
Section WithEnv.
Variable env : Env.

(** The branch of [run_cli] for the command [monitor]; [no_llm] is the
    flag [--no-llm]. *)
Definition monitor_command (no_llm : bool) (config : Config)
  : M monitor.RunResult :=
  logger INFO "모니터링 모드로 실행합니다." [] ;;;
  config <-
    (if no_llm then
       logger INFO "LLM 분석 기능을 비활성화합니다." [] ;;;
       match llm config with
       | Some _ => monitor.disable_llm config
       | None => ret config
       end
     else ret config) ;;
  monitor.run_monitor env config.

End WithEnv.
End cli.

(* ================================================================== *)
(** * A program logic for [M] *)
(* ================================================================== *)

Import llm_analyzer.

(** [hoare T R Q m]: from every world, [m] moves to a world related by
    [T]; when it returns [a], [Q a] holds, and when it raises [e],
    [R e] holds.  With [R] empty the computation always returns. *)
Definition hoare {A : Type} (T : World -> World -> Prop) (R : Exn -> Prop)
  (Q : A -> Prop) (m : M A) : Prop :=
  forall w,
    T w (snd (m w)) /\
    match fst (m w) with
    | Return a => Q a
    | Raise e => R e
    end.

Definition never : Exn -> Prop := fun _ => False.
Definition any {A : Type} : A -> Prop := fun _ => True.
Definition every : Effect -> Prop := fun _ => True.

(** ** Relations between the worlds before and after *)

Definition add_trace (added : list Effect) (w : World) : World :=
  mkWorld (db w) (conn w) (clock w) (trace w ++ added).

(** The world only gained trace entries, all of them in [P]. *)
Definition only_logs (P : Effect -> Prop) (w w' : World) : Prop :=
  exists added, w' = add_trace added w /\ Forall P added.

(** The trace grew by entries in [P]; database and clock are free. *)
Definition extends (P : Effect -> Prop) (w w' : World) : Prop :=
  exists added, trace w' = trace w ++ added /\ Forall P added.

(** ** Other judgements *)

(** [pure_log m]: the outcome of [m] and the entries it adds to the
    trace are the same from every world, and nothing else changes. *)
Definition pure_log {A : Type} (m : M A) : Prop :=
  exists (r : Outcome A) (added : list Effect),
    forall w, m w = (r, add_trace added w).

(** [calls fn m]: from every world, [m] ends with a call of [fn] in
    the trace. *)
Definition calls {A : Type} (fn : string) (m : M A) : Prop :=
  forall w, In (Call fn) (trace (snd (m w))).

(** [reaches T m target Q]: from every world, [m] runs without raising
    up to the point where only [target x] remains to be run, for some
    [x] in [Q], in a world related by [T]. *)
Definition reaches {X B : Type} (T : World -> World -> Prop) (m : M B)
  (target : X -> M B) (Q : X -> Prop) : Prop :=
  forall w, exists x w1, Q x /\ T w w1 /\ m w = target x w1.

(** ** Classes of effects and of exceptions *)

(** The effects of the event-log scan. *)
Definition scan_effect (e : Effect) : Prop :=
  match e with
  | Log _ _ _ | OpenEventLog _ | ReadEventLog | CloseEventLog => True
  | Call fn => fn = "analyze_event_logs"
  | _ => False
  end.

(** The effects of the persistence functions. *)
Definition db_effect (e : Effect) : Prop :=
  match e with
  | Log _ _ _ | SqlConnect | SqlExecute _ _ | SqlCommit | SqlClose => True
  | Call fn =>
      fn = "start_scan_session" \/ fn = "end_scan_session"
      \/ fn = "store_hardware_info" \/ fn = "store_events"
  | _ => False
  end.

(** The effects of a hardware collector that does not store. *)
Definition probe_effect (e : Effect) : Prop :=
  match e with
  | Log _ _ _ | ListComPorts | WmiQuery _ => True
  | _ => False
  end.

(** Every effect but a call of the analysis client. *)
Definition not_analysis (e : Effect) : Prop :=
  e <> Call "analyze_logs_with_llm".


(** The exceptions of [sqlite3]. *)
Definition sqlite_error (e : Exn) : Prop := isinstance e "sqlite3.Error" = true.

(** The exceptions of a statement: those of [sqlite3], and the
    [OverflowError] of an integer parameter that cannot be bound. *)
Definition statement_error (e : Exn) : Prop :=
  sqlite_error e \/ e = OverflowError.

(** The only exception that a guarded transaction lets through. *)
Definition overflow (e : Exn) : Prop := e = OverflowError.

(** An integer that [sqlite3] can bind. *)
Definition int_fits (i : PyInt) : bool :=
  match i with Size _ => true | Int z => fits_int64 z end.

(* ================================================================== *)
(** * Predicates of the statements *)
(* ================================================================== *)

(** The invariant of the scan: one detail line and one structured
    record per counted match. *)
Definition counts_agree (r : monitor.ScanResult) : Prop :=
  let '(event_count, matched_event_details, matched_events) := r in
  event_count = List.length matched_event_details /\
  event_count = List.length matched_events.

(** What the parsing loop keeps of a line in which the time pattern is
    found: the line under its own time, with the label "unknown" for a
    source or an ID that is not found; or, when the time text does not
    convert, the line under the sentinel entry. *)
Definition retained (p : ParsedLog) : Prop :=
  exists tm,
    re.search time_re (pl_full_log p) = Some tm /\
    ((datetime.strptime (re.group1 tm) = Return (pl_timestamp p)
      /\ pl_time p = re.group1 tm
      /\ pl_source p =
           match re.search source_re (pl_full_log p) with
           | Some m => strip (re.group1 m)
           | None => "알 수 없음"
           end
      /\ pl_event_id p =
           match re.search event_id_re (pl_full_log p) with
           | Some m => re.group1 m
           | None => "알 수 없음"
           end)
     \/ ((exists e, datetime.strptime (re.group1 tm) = Raise e)
         /\ p = parse_failed (pl_full_log p))).

(** An entry shown in full: its time between brackets, then the whole
    line it was parsed from. *)
Definition shown_in_full (log : ParsedLog) : string :=
  "[" +++ pl_time log +++ "] " +++ pl_full_log log.

(** How the digest shows one group: in full up to five entries, and
    beyond that the first three and the last two under a note that
    names the total. *)
Definition shown_in_full_or_head_and_tail (group : string * list ParsedLog)
  : Prop :=
  let (group_key, logs) := group in
  let n := List.length logs in
  let header := "## " +++ group_key +++ " - " +++ str_of_nat n +++ "건" in
  ((n <= 5)%nat ->
   group_lines group = header :: map shown_in_full logs ++ [""])
  /\ ((5 < n)%nat ->
      exists e1 e2 e3 middle e4 e5,
        logs = [e1; e2; e3] ++ middle ++ [e4; e5]
        /\ middle <> []
        /\ group_lines group
           = header
             :: ("전체 " +++ str_of_nat n
                 +++ "건 중 처음 3건과 마지막 2건만 표시합니다.")
             :: map shown_in_full [e1; e2; e3; e4; e5] ++ [""]).

(** ** What [store_events] does to the database *)

(** The rows bound for a batch whose first [datetime.now()] is taken at
    tick [t]: each event takes two ticks (the default timestamp, the
    INSERT). *)
Fixpoint event_rows (env : Env) (t : nat) (events : list Event)
  : list EventRow :=
  match events with
  | [] => []
  | event :: others =>
      db_manager.event_row (now_isoformat env t) event
      :: event_rows env (S (S t)) others
  end.

(** The event ID that [store_events] binds fits in 64 bits. *)
Definition id_fits (event : Event) : bool :=
  fits_int64 (get (ev_event_id event) 0%Z).

(** The exception that ends the INSERT loop of [store_events] entered
    at tick [t]: the fault of the database at an INSERT, or the
    [OverflowError] of an event ID that cannot be bound, whichever
    comes first. *)
Fixpoint loop_failure (env : Env) (t : nat) (events : list Event)
  : option Exn :=
  match events with
  | [] => None
  | event :: others =>
      if sql_fault env (S t) then Some sqlite3_OperationalError
      else if id_fits event then loop_failure env (S (S t)) others
      else Some OverflowError
  end.



(** The database with [rows] appended to the table [events]. *)
Definition with_events (d : Database) (rows : list EventRow) : Database :=
  mkDatabase (events_tbl d ++ rows) (hardware_info_tbl d) (scan_sessions_tbl d).

(** What one turn of the INSERT loop of [store_events] does: nothing is
    committed; a fault raises, and so does an event ID that cannot be
    bound; otherwise the count grows by one, two ticks pass and the
    connection sees one more row. *)
Definition inserts_one (env : Env) (body : Event -> nat -> M nat) : Prop :=
  forall event count w view,
    conn w = Some view ->
    exists w',
      db w' = db w /\
      if sql_fault env (S (clock w))
      then body event count w = (Raise sqlite3_OperationalError, w')
      else if id_fits event
      then body event count w = (Return (S count), w')
           /\ clock w' = S (S (clock w))
           /\ conn w' =
              Some (with_events view
                      [db_manager.event_row (now_isoformat env (clock w)) event])
      else body event count w = (Raise OverflowError, w').

(* ================================================================== *)
(** * Predicates of the further properties *)
(* ================================================================== *)

(** ** The scan as a function of the log *)

(** The test of the scan on one record. *)
Definition is_match (target_sources : list string) (target_event_ids : list Z)
  (event : EventLogRecord) : bool :=
  monitor.match_found target_sources target_event_ids (SourceName event)
    (Z.land (EventID event) 65535).

(** The message kept for a matching record: the formatted text,
    stripped, or the note of the formatting error. *)
Definition message_of (event : EventLogRecord) : string :=
  match formatted event with
  | Return msg => strip msg
  | Raise format_err => "포맷 오류: " +++ exn_str format_err
  end.

(** The detail line and the dictionary appended for a matching
    record. *)
Definition detail_of (event : EventLogRecord) : string :=
  "시간: " +++ datetime.Format " " (TimeGenerated event) +++ ", 소스: "
  +++ SourceName event +++ ", ID: " +++ str_of_Z (Z.land (EventID event) 65535)
  +++ ", 메시지: "
  +++ match formatted event with
      | Return _ => message_of event
      | Raise _ => "(" +++ message_of event +++ ")"
      end.

Definition event_dict (event : EventLogRecord) : Event :=
  mkEvent (Some (datetime.Format "T" (TimeGenerated event)))
    (Some (SourceName event)) (Some (Z.land (EventID event) 65535))
    (Some (message_of event)) (Some "") (Some false).

(** The result of the scan after the matching records [hits]. *)
Definition scan_result (hits : list EventLogRecord) : monitor.ScanResult :=
  (List.length hits, map detail_of hits, map event_dict hits).

(** The records of the log in the order of reading: the batches of the
    successive reads, up to the first read that is empty or raises. *)
Fixpoint log_records (reads : list ReadResult) : list EventLogRecord :=
  match reads with
  | ReadBatch (event :: events) :: later =>
      (event :: events) ++ log_records later
  | _ => []
  end.

(** The error that ends the reading, when it is not the end of the log
    ([winerror] 18). *)
Fixpoint read_failure (reads : list ReadResult) : option Exn :=
  match reads with
  | ReadBatch (_ :: _) :: later => read_failure later
  | ReadRaises e :: _ =>
      if isinstance e "pywintypes.error" && (exn_winerror e =? 18)%Z
      then None else Some e
  | _ => None
  end.

(** The records the scan examines: the first [max_events] of the log. *)
Definition examined (max_events : Z) (reads : list ReadResult)
  : list EventLogRecord :=
  firstn (Z.to_nat max_events) (log_records reads).

(** The configured values the scan reads. *)
Definition max_events_of (config : Config) : Z :=
  get (max_events_to_read (get (event_log config) empty_event_log)) 1000%Z.
Definition sources_of (config : Config) : list string :=
  get (target_sources (get (event_log config) empty_event_log)) [].
Definition event_ids_of (config : Config) : list Z :=
  get (target_event_ids (get (event_log config) empty_event_log)) [].

(** The scan goes as far as opening the log: a Windows host with
    [win32evtlog], and a criterion to search for. *)
Definition scan_enabled (env : Env) (config : Config) : bool :=
  is_windows env && win32evtlog_loaded env
  && (truthy_list (sources_of config) || truthy_list (event_ids_of config)).

(** What the reading loop does once [total_read] records have been
    examined: the records it goes on to examine, or the error that ends
    it before [max_events] is reached. *)
Definition reading (max_events : Z) (reads : list ReadResult) (total_read : Z)
  : Outcome (list EventLogRecord) :=
  let remaining := Z.to_nat (max_events - total_read) in
  match read_failure reads with
  | Some e =>
      if (List.length (log_records reads) <? remaining)%nat then Raise e
      else Return (firstn remaining (log_records reads))
  | None => Return (firstn remaining (log_records reads))
  end.

(** The accumulated result after the records [seen]. *)
Definition add_hits (target_sources : list string) (target_event_ids : list Z)
  (acc : monitor.ScanResult) (seen : list EventLogRecord) : monitor.ScanResult :=
  let '(event_count, matched_event_details, matched_events) := acc in
  let hits := filter (is_match target_sources target_event_ids) seen in
  ((event_count + List.length hits)%nat,
   matched_event_details ++ map detail_of hits,
   matched_events ++ map event_dict hits).

(** The effects of the scan before the log is closed. *)
Definition reading_effect (e : Effect) : Prop :=
  match e with
  | Log _ _ _ | OpenEventLog _ | ReadEventLog => True
  | Call fn => fn = "analyze_event_logs"
  | _ => False
  end.

(** ** The hardware collectors *)

(** The dictionaries built for a COM port and for a WMI entity. *)
Definition device_of_port (port : ComPort) : Device :=
  mkDevice (Some (port_device port)) (Some (port_description port))
    (Some (port_hwid port)).

Definition device_of_entity (entity : WmiEntity) : Device :=
  mkDevice (wmi_Name entity) (monitor.getattr_Description entity "")
    (Some (wmi_DeviceID entity)).

(** What the WMI collectors return: nothing without Windows and WMI or
    when the query raises; otherwise the cameras, one per device ID,
    and the USB devices that pass the filter. *)
Definition cameras_found (env : Env) : list Device :=
  if is_windows env && wmi_loaded env then
    match wmi_cameras env with
    | Return cameras => map device_of_entity (monitor.unique_by_id cameras)
    | Raise _ => []
    end
  else [].

Definition usb_found (env : Env) : list Device :=
  if is_windows env && wmi_loaded env then
    match wmi_usb env with
    | Return usb_devices =>
        map device_of_entity (filter monitor.usb_kept usb_devices)
    | Raise _ => []
    end
  else [].

(** ** What the session and hardware functions do to the database *)

(** The database with one more session row, and with more hardware
    rows. *)
Definition with_session (d : Database) (row : SessionRow) : Database :=
  mkDatabase (events_tbl d) (hardware_info_tbl d) (scan_sessions_tbl d ++ [row]).

Definition with_hardware (d : Database) (rows : list HardwareRow) : Database :=
  mkDatabase (events_tbl d) (hardware_info_tbl d ++ rows) (scan_sessions_tbl d).

(** The database with the session rows of id [session_id] closed. *)
Definition with_session_closed (d : Database) (session_id : Z)
  (end_time : string) (events_found hw_devices_found llm_analysis_performed : Z)
  (summary : option string) : Database :=
  mkDatabase (events_tbl d) (hardware_info_tbl d)
    (map (fun row =>
            if (Z.of_nat (sr_id row) =? session_id)%Z
            then mkSessionRow (sr_id row) (sr_start_time row) (Some end_time)
                   events_found hw_devices_found llm_analysis_performed summary
            else row)
         (scan_sessions_tbl d)).

(** A database error during [start_scan_session] or [end_scan_session]
    called at tick [t0]: at the connection, at the statement (after the
    time was read), or at the commit. *)
Definition session_error (env : Env) (t0 : nat) : bool :=
  sql_fault env t0 || sql_fault env (2 + t0) || sql_fault env (3 + t0).

(** [end_scan_session] called at tick [t0] reaches its UPDATE: the
    database has a path, the connection is made and the statement
    meets no fault. *)
Definition update_reached (env : Env) (t0 : nat) : bool :=
  match db_path env with
  | Some _ => negb (sql_fault env t0 || sql_fault env (2 + t0))
  | None => false
  end.

(** The row bound for a device that has a name. *)
Definition hardware_row (timestamp hw_type : string) (device : Device)
  : HardwareRow :=
  mkHardwareRow timestamp hw_type (get (dev_name device) "")
    (dev_description device) (dev_device_id device).

Definition named (device : Device) : bool :=
  match dev_name device with Some _ => true | None => false end.

(** An INSERT of the loop of [store_hardware_info] fails, the first one
    being issued at tick [t]: by a fault of the database, or for a
    device whose name is [None]. *)
Fixpoint hardware_insert_fails (env : Env) (t : nat) (devices : list Device)
  : bool :=
  match devices with
  | [] => false
  | device :: others =>
      sql_fault env t || negb (named device)
      || hardware_insert_fails env (S t) others
  end.

(** A database error during [store_hardware_info] called at tick [t0]:
    at the connection, at an INSERT, or at the commit. *)
Definition hardware_error (env : Env) (t0 : nat) (devices : list Device)
  : bool :=
  sql_fault env t0 || hardware_insert_fails env (2 + t0) devices
  || sql_fault env (2 + t0 + List.length devices).

(** ** The failures of the request *)

(** The handler that takes an exception raised in the [try] block of
    [analyze_logs_with_llm], and what it answers; [response_bound]
    tells whether [requests.post] had returned. *)
Definition failure_text (e : Exn) (response_bound : bool) : Outcome string :=
  if isinstance e "requests.exceptions.Timeout" then Return "LLM API 시간 초과"
  else if isinstance e "requests.exceptions.ConnectionError"
  then Return "LLM API 연결 오류"
  else if isinstance e "requests.exceptions.RequestException"
  then Return ("LLM API 요청 오류: " +++ exn_class e)
  else if isinstance e "json.JSONDecodeError"
  then (if response_bound then Return "LLM 응답 파싱 오류"
        else Raise UnboundLocalError)
  else Return "LLM 분석 중 알 수 없는 오류".

(** The request is sent: a key, a URL, a model, and a digest built from
    at least one detail line. *)
Definition request_is_sent (log_details : list string) (config : Config)
  (api_key : option string) : Prop :=
  let llm_config := get (llm config) empty_llm in
  get api_key "" <> ""
  /\ get (api_url llm_config) "" <> ""
  /\ get (model llm_config) "" <> ""
  /\ log_details <> []
  /\ exists digest,
       fst (llm_analyzer.preprocess_logs log_details
              (get (max_log_details_for_llm llm_config) 20%Z)
              (mkWorld (mkDatabase [] [] []) None 0 []))
       = Return digest.

(** ** The run *)

(** The key [load_api_key] returns: the value of [GROK_API_KEY] when
    the [.env] file loads and the value is not empty. *)
Definition loaded_key (env : Env) : option string :=
  match load_dotenv env, getenv_GROK_API_KEY env with
  | None, Some (String c key) => Some (String c key)
  | _, _ => None
  end.

(** The effects of a run in which nothing is asked of the model. *)
Definition no_request (e : Effect) : Prop :=
  match e with
  | Call fn => fn <> "analyze_logs_with_llm"
  | HttpPost _ _ _ _ => False
  | _ => True
  end.

(** The stored flag agrees with the stored analysis: 1 exactly when
    the text contains the marker of an abnormal verdict. *)
Definition flag_agrees (row : EventRow) : Prop :=
  er_abnormal_flag row
  = if str_in "비정상 패턴 의심됨" (er_llm_analysis row) then 1%Z else 0%Z.

(** The table [events] only gained rows, each with a flag that agrees
    with its analysis. *)
Definition gains_agreeing_rows (w w' : World) : Prop :=
  exists rows,
    events_tbl (db w') = events_tbl (db w) ++ rows /\ Forall flag_agrees rows.

(** The table of sessions is left as it was. *)
Definition keeps_sessions (w w' : World) : Prop :=
  scan_sessions_tbl (db w') = scan_sessions_tbl (db w).

(** [reaches_or_raises T m target]: from every world, [m] either raises
    or runs up to the point where only [target x] remains to be run,
    for some [x]; in both cases in a world related by [T]. *)
Definition reaches_or_raises {X B : Type} (T : World -> World -> Prop)
  (m : M B) (target : X -> M B) : Prop :=
  forall w,
    (exists e w', m w = (Raise e, w') /\ T w w')
    \/ (exists x w1, T w w1 /\ m w = target x w1).

(** The event as the scan leaves it: no analysis yet, not abnormal. *)
Definition unanalysed (event : Event) : Prop :=
  ev_llm_analysis event = Some "" /\ ev_abnormal event = Some false.

(** The third stage runs the analysis: enough matches, the feature
    enabled, a key. *)
Definition analysis_due (config : Config) (api_key : option string)
  (event_count : nat) : bool :=
  let llm_config := get (llm config) empty_llm in
  (Z.of_nat event_count >=? get (check_threshold llm_config) 5%Z)%Z
  && get (enabled llm_config) true
  && truthy_str (get api_key "").

(** What the scan returns on this host with this configuration. *)
Definition scan_of (env : Env) (config : Config) : monitor.ScanResult :=
  if scan_enabled env config then
    match open_event_log env,
          reading (max_events_of config) (read_event_log env) 0 with
    | Return _, Return seen =>
        scan_result
          (filter (is_match (sources_of config) (event_ids_of config)) seen)
    | _, _ => (0%nat, [], [])
    end
  else (0%nat, [], []).

(** The COM ports [get_com_ports] returns, and the number of devices
    the three collectors of a run find. *)
Definition com_found (env : Env) : list Device :=
  match comports env with
  | Return ports => map device_of_port ports
  | Raise _ => []
  end.

Definition devices_found (env : Env) : nat :=
  if is_windows env
  then (List.length (com_found env) + List.length (cameras_found env)
        + List.length (usb_found env))%nat
  else List.length (com_found env).

(** ** The lines of the scan, read back *)

(** Every character of [s] is in the class [p]. *)
Fixpoint all_chars (p : ascii -> bool) (s : string) : bool :=
  match s with
  | EmptyString => true
  | String c r => p c && all_chars p r
  end.

(** A time that exists, with a year of four digits. *)
Definition valid_time (t : PyTime) : bool :=
  ((1 <=? year t) && (year t <=? 9999) && (1 <=? month t) && (month t <=? 12)
   && (1 <=? day t) && (day t <=? datetime.days_in_month (year t) (month t))
   && (hour t <=? 23) && (minute t <=? 59) && (second t <=? 59))%N.

(** A source name of printable ASCII characters without comma or
    colon, not empty and without blanks around it. *)
Definition plain_char (c : ascii) : bool :=
  let n := nat_of_ascii c in
  (32 <=? n)%nat && (n <=? 126)%nat && negb (re.one "," c) && negb (re.one ":" c).

Definition plain_source (s : string) : bool :=
  all_chars plain_char s && negb (String.eqb s "") && String.eqb (strip s) s.

(** The record has a time that exists and a plain source name. *)
Definition plain_record (event : EventLogRecord) : bool :=
  valid_time (TimeGenerated event) && plain_source (SourceName event).

(** The entry the summarizer builds from the detail line of a
    record. *)
Definition parsed_of (event : EventLogRecord) : llm_analyzer.ParsedLog :=
  llm_analyzer.mkParsed (datetime.Format " " (TimeGenerated event))
    (TimeGenerated event) (SourceName event)
    (str_of_Z (Z.land (EventID event) 65535)) (detail_of event).

(* ================================================================== *)
(** * Scenarios *)
(* ================================================================== *)

(** Concrete machines, logs and answers on which the statements below
    are evaluated. *)

Definition world0 : World := mkWorld (mkDatabase [] [] []) None 0 [].

(** A Windows host with no COM port, camera or USB device, a working
    database and the credential ["secret"]; the event log, the model's
    answer and the database faults are the scenario's. *)
Definition scenario (reads : list ReadResult) (post : Outcome Response)
  (fault : nat -> bool) : Env :=
  mkEnv true true true (Return []) (Return []) (Return []) (Return tt)
    reads None post fault
    (fun _ => "2024-01-01T00:00:00") (fun _ => "2024-01-01 00:00:00")
    (Some "data/device_monitor.db") None (Some "secret") (fun _ => "").

Definition no_fault : nat -> bool := fun _ => false.

Definition answer (content : string) : Outcome Response :=
  Return (mkResponse 200
            (Return (JObj [("choices",
                            JArr [JObj [("message",
                                         JObj [("content", JStr content)])]])]))
            "").

Definition record_of (source_name : string) (raw_id : Z) (sec : N)
  : EventLogRecord :=
  mkRecord raw_id source_name (mkTime 2023 5 1 12 34 sec) (Return "unplugged").

Definition criteria (sources : list string) (ids : list Z) : EventLogConf :=
  mkEventLogConf (Some "System") (Some 1000%Z) (Some sources) (Some ids).

Definition llm_settings (keywords : list string) (threshold max_lines : Z)
  : LlmConf :=
  mkLlmConf (Some "https://api.example/v1/chat") (Some "model-x") (Some 60%Z)
    None (Some max_lines) (Some keywords) (Some threshold) (Some true).

(** A batch of one detail line, as the scanner writes it. *)
Definition sample_lines : list string :=
  ["시간: 2023-05-01 12:34:56, 소스: DriverX, ID: 1, 메시지: unplugged"].

(** The source DriverX is watched; the keyword is "disconnect", the
    threshold 1 and the digest is bounded to 20 lines. *)
Definition sample_config : Config :=
  mkConfig (Some (criteria ["DriverX"] []))
    (Some (llm_settings ["disconnect"] 1 20)).

(** A batch of two events, the second with no key at all, and one
    device. *)
Definition sample_events : list Event :=
  [mkEvent (Some "2023-05-01T12:34:56") (Some "DriverX") (Some 1%Z)
     (Some "unplugged") (Some "verdict") (Some true);
   mkEvent None None None None None None].

(** A host whose database works, and one whose second INSERT of a
    batch fails (ticks: connection 0, then timestamp and INSERT for
    each event, commit). *)
Definition plain_env : Env := scenario [] (answer "ok") no_fault.
Definition failing_insert_env : Env :=
  scenario [] (answer "ok") (fun t => Nat.eqb t 4).



(** C1: both lists empty, against a real scan that matches nothing. *)
Definition c1_env : Env :=
  scenario [ReadBatch [record_of "Other" 7 56]] (answer "ok") no_fault.
Definition c1_config : Config :=
  mkConfig (Some (criteria [] [])) (Some (llm_settings [] 5 20)).
Definition c1_config_real : Config :=
  mkConfig (Some (criteria ["DriverX"] [])) (Some (llm_settings [] 5 20)).

(** C4: one line without a time field, followed by a regular line. *)
Definition c4_lines : list string :=
  ["no time stamp here";
   "시간: 2023-05-01 12:34:56, 소스: Kernel-PnP, ID: 2102, 메시지: unplugged"].

(** A window whose lines all carry a time field: a regular line, a line
    whose date does not exist, a line without source and ID. *)
Definition c4_window : list string :=
  ["시간: 2023-05-01 12:34:56, 소스: Kernel-PnP, ID: 2102, 메시지: unplugged";
   "시간: 2023-02-30 12:00:00, 소스: Kernel-PnP, ID: 2102, 메시지: unplugged";
   "시간: 2023-05-01 12:35:10 something else"].

(** C5: six lines of (SrcA, 1) and two lines of (SrcB, 2), most recent
    first as the scanner supplies them. *)
Definition c5_line (source_name : string) (id : Z) (sec : N) : string :=
  "시간: " +++ datetime.Format " " (mkTime 2023 5 1 12 0 sec) +++ ", 소스: "
  +++ source_name +++ ", ID: " +++ str_of_Z id +++ ", 메시지: unplugged".

Definition c5_lines : list string :=
  [c5_line "SrcA" 1 8; c5_line "SrcB" 2 7; c5_line "SrcA" 1 6;
   c5_line "SrcA" 1 5; c5_line "SrcA" 1 4; c5_line "SrcB" 2 3;
   c5_line "SrcA" 1 2; c5_line "SrcA" 1 1].

Definition c5_digest : string :=
  Eval vm_compute in
    match fst (llm_analyzer.preprocess_logs c5_lines 20 world0) with
    | Return digest => digest
    | Raise _ => ""
    end.

(** C6: one matching record, threshold 1.  In the first scenario the
    configured keyword is capitalised and the answer contains it; in
    the second the answer contains no keyword but quotes the marker of
    an abnormal verdict. *)
Definition c6_content : string := "Disconnect detected repeatedly".
Definition c6_env : Env :=
  scenario [ReadBatch [record_of "DriverX" 1 56]] (answer c6_content) no_fault.
Definition c6_config : Config :=
  mkConfig (Some (criteria ["DriverX"] []))
    (Some (llm_settings ["Disconnect"] 1 20)).

Definition c6b_content : string := "비정상 패턴 의심됨 여부: 근거 없음".
Definition c6b_env : Env :=
  scenario [ReadBatch [record_of "DriverX" 1 56]] (answer c6b_content) no_fault.

(** C7: three matching records and a threshold of three; then the same
    log with a threshold of four. *)
Definition c7_env : Env :=
  scenario
    [ReadBatch [record_of "DriverX" 1 58; record_of "DriverX" 1 57;
                record_of "DriverX" 1 56]]
    (answer "the device reports a disconnect again and again") no_fault.
Definition c7_config (threshold : Z) : Config :=
  mkConfig (Some (criteria ["DriverX"] []))
    (Some (llm_settings ["disconnect"] threshold 20)).
Definition c7_scan : monitor.ScanResult :=
  Eval vm_compute in
    match fst (monitor.analyze_event_logs c7_env (c7_config 3) world0) with
    | Return scan => scan
    | Raise _ => (0%nat, [], [])
    end.

(** C9: the configuration bounds the digest to zero lines; the model
    would answer. *)
Definition c9_env : Env :=
  scenario [ReadBatch [record_of "DriverX" 1 56]] (answer "all quiet") no_fault.
Definition c9_config : Config :=
  mkConfig (Some (criteria ["DriverX"] []))
    (Some (llm_settings ["disconnect"] 1 0)).

(** ** Scenarios of the further properties *)

(** [pywintypes.error] with [winerror] 5: the read is refused. *)
Definition access_denied : Exn :=
  mkExn "error" ["pywintypes.error"] 5 "Access is denied." None.

(** A log delivered in two batches, four records of which the second is
    of another source; the third read is refused. *)
Definition two_batches : list ReadResult :=
  [ReadBatch [record_of "DriverX" 1 58; record_of "Other" 7 57];
   ReadBatch [record_of "DriverX" 1 56; record_of "DriverX" 1 55];
   ReadRaises access_denied].
Definition two_batch_env : Env := scenario two_batches (answer "ok") no_fault.

(** The source DriverX is watched and at most [max_events] records are
    examined. *)
Definition bounded_config (max_events : Z) : Config :=
  mkConfig
    (Some (mkEventLogConf (Some "System") (Some max_events) (Some ["DriverX"])
             (Some [])))
    (Some (llm_settings ["disconnect"] 5 20)).


(** A database that holds one closed session, and a device without a
    name. *)
Definition world1 : World :=
  mkWorld
    (mkDatabase [] []
       [mkSessionRow 7 "2023-12-31T23:00:00" (Some "2023-12-31T23:05:00") 0 2 0
          (Some "이벤트 발견: 0개, 장치 발견: 2개")])
    None 0 [].

(** Exceptions of [requests]: a connection attempt that timed out, and
    the decoding error of [response.json()]. *)
Definition connect_timeout : Exn :=
  mkExn "ConnectTimeout"
    ["requests.exceptions.ConnectTimeout"; "requests.exceptions.ConnectionError";
     "requests.exceptions.Timeout"; "requests.exceptions.RequestException";
     "OSError"]
    0 "timed out" None.
Definition requests_json_error : Exn :=
  mkExn "JSONDecodeError"
    ["requests.exceptions.JSONDecodeError"; "requests.exceptions.InvalidJSONError";
     "requests.exceptions.RequestException"; "json.JSONDecodeError"; "ValueError";
     "OSError"]
    0 "Expecting value" None.

(** A host without the API key, and a configuration without the
    section [llm]. *)
Definition keyless_env : Env :=
  mkEnv true true true (Return []) (Return []) (Return []) (Return tt)
    [] None (answer "ok") no_fault
    (fun _ => "2024-01-01T00:00:00") (fun _ => "2024-01-01 00:00:00")
    (Some "data/device_monitor.db") None None (fun _ => "").
Definition config_without_llm : Config :=
  mkConfig (Some (criteria ["DriverX"] [])) None.
(** ** Basic facts *)

Lemma for_each_cons {A S} (x : A) (l : list A) (body : A -> S -> M S)
  (acc : S) (w : World) :
  for_each (x :: l) body acc w =
  match body x acc w with
  | (Return acc', w') => for_each l body acc' w'
  | (Raise e, w') => (Raise e, w')
  end.
Proof. reflexivity. Qed.

Lemma Return_inj {A} (a b : A) : Return a = Return b -> a = b.
Proof. intros H; injection H; auto. Qed.

Section HoareRules.
Variable T : World -> World -> Prop.
Hypothesis T_refl : forall w, T w w.
Hypothesis T_trans : forall a b c, T a b -> T b c -> T a c.

Lemma hoare_ret {A} (R : Exn -> Prop) (Q : A -> Prop) (a : A) :
  Q a -> hoare T R Q (ret a).
Proof. intros H w; simpl; auto. Qed.

Lemma hoare_raise {A} (R : Exn -> Prop) (Q : A -> Prop) (e : Exn) :
  R e -> hoare T R Q (@raise A e).
Proof. intros H w; simpl; auto. Qed.

Lemma hoare_lift {A} (R : Exn -> Prop) (Q : A -> Prop) (o : Outcome A) :
  match o with Return a => Q a | Raise e => R e end -> hoare T R Q (lift o).
Proof. intros H w; simpl; auto. Qed.

Lemma hoare_bind {A B} (R : Exn -> Prop) (Q1 : A -> Prop) (Q : B -> Prop)
  (m : M A) (k : A -> M B) :
  hoare T R Q1 m -> (forall a, Q1 a -> hoare T R Q (k a)) ->
  hoare T R Q (bind m k).
Proof.
  intros Hm Hk w. unfold bind.
  destruct (Hm w) as [Ht Hq]. destruct (m w) as [[a | e] w1]; simpl in *.
  - destruct (Hk a Hq w1) as [Ht' Hq']. split; [eapply T_trans; eauto | exact Hq'].
  - auto.
Qed.

Lemma hoare_try_except {A} (R1 R : Exn -> Prop) (Q : A -> Prop) (m : M A)
  (handler : Exn -> option (M A)) :
  hoare T R1 Q m ->
  (forall e, R1 e ->
     match handler e with
     | Some k => hoare T R Q k
     | None => R e
     end) ->
  hoare T R Q (try_except m handler).
Proof.
  intros Hm Hh w. unfold try_except.
  destruct (Hm w) as [Ht Hq]. destruct (m w) as [[a | e] w1]; simpl in *.
  - auto.
  - specialize (Hh e Hq). destruct (handler e) as [k |]; simpl.
    + destruct (Hh w1) as [Ht' Hq']. split; [eapply T_trans; eauto | exact Hq'].
    + auto.
Qed.

Lemma hoare_try_finally {A} (R : Exn -> Prop) (Q : A -> Prop) (m : M A)
  (f : M unit) :
  hoare T R Q m -> hoare T R any f -> hoare T R Q (try_finally m f).
Proof.
  intros Hm Hf w. unfold try_finally.
  destruct (Hm w) as [Ht Hq]. destruct (m w) as [r w1]; simpl in *.
  destruct (Hf w1) as [Ht' Hq']. destruct (f w1) as [[u | e] w2]; simpl in *.
  - split; [eapply T_trans; eauto | exact Hq].
  - split; [eapply T_trans; eauto | exact Hq'].
Qed.

Lemma hoare_for_each {A S} (R : Exn -> Prop) (I : S -> Prop) (l : list A)
  (body : A -> S -> M S) :
  (forall x acc, In x l -> I acc -> hoare T R I (body x acc)) ->
  forall acc, I acc -> hoare T R I (for_each l body acc).
Proof.
  induction l as [| x l IH]; intros Hb acc Hacc; simpl.
  - apply hoare_ret; exact Hacc.
  - eapply hoare_bind.
    + apply Hb; [left; reflexivity | exact Hacc].
    + intros acc' Hacc'. apply IH; [| exact Hacc'].
      intros y a Hy. apply Hb. right; exact Hy.
Qed.

Lemma hoare_weaken {A} (R R' : Exn -> Prop) (Q Q' : A -> Prop) (m : M A) :
  hoare T R Q m -> (forall e, R e -> R' e) -> (forall a, Q a -> Q' a) ->
  hoare T R' Q' m.
Proof.
  intros Hm HR HQ w. destruct (Hm w) as [Ht Hq]. split; [exact Ht |].
  destruct (fst (m w)); auto.
Qed.

End HoareRules.

Lemma hoare_relax {A} (T T' : World -> World -> Prop) (R : Exn -> Prop)
  (Q : A -> Prop) (m : M A) :
  (forall w w', T w w' -> T' w w') -> hoare T R Q m -> hoare T' R Q m.
Proof. intros HT Hm w. destruct (Hm w); split; auto. Qed.

(** ** The two transition relations *)

Lemma add_trace_app l1 l2 w : add_trace l2 (add_trace l1 w) = add_trace (l1 ++ l2) w.
Proof. unfold add_trace; simpl. rewrite app_assoc. reflexivity. Qed.

Lemma add_trace_nil w : add_trace [] w = w.
Proof. unfold add_trace. rewrite app_nil_r. destruct w; reflexivity. Qed.

Lemma only_logs_refl P w : only_logs P w w.
Proof. exists []. split; [rewrite add_trace_nil; reflexivity | constructor]. Qed.

Lemma only_logs_trans P a b c :
  only_logs P a b -> only_logs P b c -> only_logs P a c.
Proof.
  intros [l1 [E1 F1]] [l2 [E2 F2]]. exists (l1 ++ l2). subst.
  rewrite add_trace_app. split; [reflexivity | apply Forall_app; auto].
Qed.

Lemma extends_refl P w : extends P w w.
Proof. exists []. rewrite app_nil_r. split; [reflexivity | constructor]. Qed.

Lemma extends_trans P a b c : extends P a b -> extends P b c -> extends P a c.
Proof.
  intros [l1 [E1 F1]] [l2 [E2 F2]]. exists (l1 ++ l2).
  rewrite E2, E1, app_assoc. split; [reflexivity | apply Forall_app; auto].
Qed.

Lemma only_logs_extends P w w' : only_logs P w w' -> extends P w w'.
Proof. intros [l [E F]]. exists l. subst; simpl. auto. Qed.

Lemma only_logs_mono (P P' : Effect -> Prop) w w' :
  (forall e, P e -> P' e) -> only_logs P w w' -> only_logs P' w w'.
Proof.
  intros H [l [E F]]. exists l. split; [exact E |].
  eapply Forall_impl; [| exact F]. exact H.
Qed.

Lemma hoare_emit_logs P (R : Exn -> Prop) (Q : unit -> Prop) e :
  P e -> Q tt -> hoare (only_logs P) R Q (emit e).
Proof.
  intros Hp Hq w; simpl. split; [| exact Hq].
  exists [e]. split; [reflexivity | constructor; [exact Hp | constructor]].
Qed.

Lemma hoare_emit_extends P (R : Exn -> Prop) (Q : unit -> Prop) e :
  P e -> Q tt -> hoare (extends P) R Q (emit e).
Proof.
  intros Hp Hq. eapply hoare_relax; [apply only_logs_extends |].
  apply hoare_emit_logs; assumption.
Qed.

Lemma hoare_tick_extends P (R : Exn -> Prop) (Q : nat -> Prop) :
  (forall n, Q n) -> hoare (extends P) R Q tick.
Proof.
  intros Hq w; simpl. split; [| apply Hq].
  exists []. rewrite app_nil_r. split; [reflexivity | constructor].
Qed.

(** ** Proof steps *)

Lemma isinstance_Exception e : isinstance e "Exception" = true.
Proof. reflexivity. Qed.

Ltac handler_cases :=
  unfold except, no_more; rewrite ?isinstance_Exception;
  repeat match goal with
         | |- context [isinstance ?e ?c] => destruct (isinstance e c)
         end.

Ltac hoare_side :=
  first [ apply only_logs_refl | apply only_logs_trans
        | apply extends_refl | apply extends_trans ].

(** One rule of the logic, chosen by the shape of the program;
    [P_tac] shows that an emitted effect is allowed. *)
Ltac hoare_step P_tac :=
  lazymatch goal with
  | |- hoare _ _ _ (ret _) => apply hoare_ret; [hoare_side | ]
  | |- hoare _ _ _ (raise _) => apply hoare_raise; [hoare_side | ]
  | |- hoare (only_logs _) _ _ (emit _) => apply hoare_emit_logs; [P_tac | ]
  | |- hoare (only_logs _) _ _ (logger _ _ _) => apply hoare_emit_logs; [P_tac | ]
  | |- hoare (extends _) _ _ (emit _) => apply hoare_emit_extends; [P_tac | ]
  | |- hoare (extends _) _ _ (logger _ _ _) => apply hoare_emit_extends; [P_tac | ]
  | |- hoare (extends _) _ _ tick => apply hoare_tick_extends; intros
  | |- hoare _ _ _ (lift ?o) => apply hoare_lift; [hoare_side | destruct o ]
  | |- hoare _ _ _ (bind (emit _) _) =>
      eapply hoare_bind with (Q1 := any); [hoare_side | | intros ? _ ]
  | |- hoare _ _ _ (bind (logger _ _ _) _) =>
      eapply hoare_bind with (Q1 := any); [hoare_side | | intros ? _ ]
  | |- hoare _ _ _ (bind (lift _) _) =>
      eapply hoare_bind with (Q1 := any); [hoare_side | | intros ? _ ]
  | |- hoare _ _ _ (bind tick _) =>
      eapply hoare_bind with (Q1 := any); [hoare_side | | intros ? _ ]
  | |- hoare _ _ _ (bind (ret _) _) =>
      eapply hoare_bind with (Q1 := any); [hoare_side | | intros ? _ ]
  | |- hoare _ _ _ (bind (raise _) _) =>
      eapply hoare_bind with (Q1 := any); [hoare_side | | intros ? _ ]
  | |- hoare _ _ _ (try_except _ _) =>
      eapply hoare_try_except with (R1 := any);
      [hoare_side | | intros ? _; handler_cases]
  | |- hoare _ _ _ (try_finally _ _) =>
      apply hoare_try_finally; [hoare_side | | ]
  | |- hoare _ _ _ (if ?c then _ else _) => destruct c eqn:?
  | |- hoare _ _ _ (match ?x with _ => _ end) => destruct x eqn:?
  end.

Ltac hoare_trivial := try solve [exact I | simpl; auto | unfold any; auto].

(** ** The event-log scan *)

Lemma scan_event_spec ln ts ids event acc :
  counts_agree acc ->
  hoare (only_logs scan_effect) never counts_agree
    (monitor.scan_event ln ts ids event acc).
Proof.
  intros Hacc. unfold monitor.scan_event.
  destruct acc as [[c d] r]. destruct Hacc as [Hd Hr].
  hoare_step ltac:(exact I).
  2:{ hoare_step ltac:(exact I). split; assumption. }
  repeat hoare_step ltac:(exact I); hoare_trivial;
    simpl; rewrite !length_app; simpl; lia.
Qed.

Lemma read_loop_spec ln ts ids max reads :
  forall total acc,
    counts_agree acc ->
    hoare (only_logs scan_effect) any (fun r => counts_agree (snd r))
      (monitor.read_loop ln ts ids max reads total acc).
Proof.
  induction reads as [| r reads IH]; intros total acc Hacc; simpl.
  - repeat hoare_step ltac:(exact I); hoare_trivial.
  - hoare_step ltac:(exact I).
    2:{ hoare_step ltac:(exact I). exact Hacc. }
    hoare_step ltac:(exact I). { hoare_step ltac:(exact I). exact I. }
    destruct r as [events | e].
    + destruct events as [| ev events].
      * repeat hoare_step ltac:(exact I); hoare_trivial.
      * eapply hoare_bind with (Q1 := counts_agree); [hoare_side | |].
        -- apply hoare_for_each; [hoare_side | hoare_side | | exact Hacc].
           intros x acc0 _ Ha.
           eapply hoare_weaken; [apply scan_event_spec; exact Ha | | auto].
           intros e [].
        -- intros acc' Hacc'.
           hoare_step ltac:(exact I).
           ++ repeat hoare_step ltac:(exact I); hoare_trivial.
           ++ apply IH; exact Hacc'.
    + repeat hoare_step ltac:(exact I); hoare_trivial.
Qed.

Lemma analyze_event_logs_spec env config :
  hoare (only_logs scan_effect) never counts_agree
    (monitor.analyze_event_logs env config).
Proof.
  unfold monitor.analyze_event_logs.
  hoare_step ltac:(simpl; auto). { hoare_step ltac:(simpl; auto). exact I. }
  hoare_step ltac:(exact I).
  { repeat hoare_step ltac:(exact I); hoare_trivial. }
  do 2 (hoare_step ltac:(exact I); [hoare_step ltac:(exact I); exact I |]).
  hoare_step ltac:(exact I).
  { repeat hoare_step ltac:(exact I); hoare_trivial. }
  hoare_step ltac:(exact I).
  - hoare_step ltac:(exact I).
    + hoare_step ltac:(exact I). { hoare_step ltac:(exact I). exact I. }
      hoare_step ltac:(exact I). { hoare_step ltac:(exact I); exact I. }
      eapply hoare_bind; [hoare_side | |].
      * apply read_loop_spec. simpl; auto.
      * intros [total [[c d] r]] Hc. simpl in Hc.
        repeat hoare_step ltac:(exact I); hoare_trivial.
    + repeat hoare_step ltac:(exact I); hoare_trivial.
    + repeat hoare_step ltac:(exact I); hoare_trivial.
  - repeat hoare_step ltac:(exact I); hoare_trivial.
Qed.

(** ** Computations that only log *)

Lemma pure_ret {A} (a : A) : pure_log (ret a).
Proof. exists (Return a), []. intros w. rewrite add_trace_nil. reflexivity. Qed.

Lemma pure_raise {A} (e : Exn) : pure_log (@raise A e).
Proof. exists (Raise e), []. intros w. rewrite add_trace_nil. reflexivity. Qed.

Lemma pure_lift {A} (o : Outcome A) : pure_log (lift o).
Proof. exists o, []. intros w. rewrite add_trace_nil. reflexivity. Qed.

Lemma pure_emit e : pure_log (emit e).
Proof. exists (Return tt), [e]. intros w. reflexivity. Qed.

Lemma pure_bind {A B} (m : M A) (k : A -> M B) :
  pure_log m -> (forall a, pure_log (k a)) -> pure_log (bind m k).
Proof.
  intros [r [l Hm]] Hk. destruct r as [a | e].
  - destruct (Hk a) as [r' [l' Hka]]. exists r', (l ++ l'). intros w.
    unfold bind. rewrite Hm, Hka, add_trace_app. reflexivity.
  - exists (Raise e), l. intros w. unfold bind. rewrite Hm. reflexivity.
Qed.

Lemma pure_try_except {A} (m : M A) (handler : Exn -> option (M A)) :
  pure_log m ->
  (forall e, match handler e with Some k => pure_log k | None => True end) ->
  pure_log (try_except m handler).
Proof.
  intros [r [l Hm]] Hh. destruct r as [a | e].
  - exists (Return a), l. intros w. unfold try_except. rewrite Hm. reflexivity.
  - specialize (Hh e). destruct (handler e) as [k |] eqn:Ek.
    + destruct Hh as [r' [l' Hk]]. exists r', (l ++ l'). intros w.
      unfold try_except. rewrite Hm, Ek, Hk, add_trace_app. reflexivity.
    + exists (Raise e), l. intros w. unfold try_except. rewrite Hm, Ek.
      reflexivity.
Qed.

Lemma pure_try_finally {A} (m : M A) (f : M unit) :
  pure_log m -> pure_log f -> pure_log (try_finally m f).
Proof.
  intros [r [l Hm]] [rf [lf Hf]].
  exists (match rf with Return _ => r | Raise e => Raise e end), (l ++ lf).
  intros w. unfold try_finally. rewrite Hm, Hf, add_trace_app.
  destruct rf; reflexivity.
Qed.

Lemma pure_for_each {A S} (l : list A) (body : A -> S -> M S) :
  (forall x acc, pure_log (body x acc)) ->
  forall acc, pure_log (for_each l body acc).
Proof.
  intros Hb. induction l as [| x l IH]; intros acc; simpl.
  - apply pure_ret.
  - apply pure_bind; [apply Hb | exact IH].
Qed.

Ltac pure_step :=
  lazymatch goal with
  | |- pure_log (ret _) => apply pure_ret
  | |- pure_log (raise _) => apply pure_raise
  | |- pure_log (lift _) => apply pure_lift
  | |- pure_log (emit _) => apply pure_emit
  | |- pure_log (logger _ _ _) => apply pure_emit
  | |- pure_log (bind _ _) => apply pure_bind; [| intros]
  | |- pure_log (try_except _ _) =>
      apply pure_try_except; [| intros; handler_cases; try exact I]
  | |- pure_log (try_finally _ _) => apply pure_try_finally
  | |- pure_log (for_each _ _ _) => apply pure_for_each; intros
  | |- pure_log (if ?c then _ else _) => destruct c
  | |- pure_log (match ?x with _ => _ end) => destruct x
  end.

Lemma scan_event_pure ln ts ids event acc :
  pure_log (monitor.scan_event ln ts ids event acc).
Proof.
  unfold monitor.scan_event. destruct acc as [[c d] r]. repeat pure_step.
Qed.

Lemma read_loop_pure ln ts ids max reads :
  forall total acc, pure_log (monitor.read_loop ln ts ids max reads total acc).
Proof.
  induction reads as [| r reads IH]; intros total acc; simpl.
  - repeat pure_step.
  - pure_step; [| pure_step]. pure_step; [pure_step |].
    destruct r as [[| ev events] | e]; repeat pure_step;
      try apply scan_event_pure; try apply IH.
Qed.

Lemma analyze_event_logs_pure env config :
  pure_log (monitor.analyze_event_logs env config).
Proof.
  unfold monitor.analyze_event_logs.
  repeat first [ apply read_loop_pure | pure_step ].
Qed.

(** The scan returns the same triple from every world. *)
Lemma analyze_event_logs_same env config w w' :
  fst (monitor.analyze_event_logs env config w)
  = fst (monitor.analyze_event_logs env config w').
Proof.
  destruct (analyze_event_logs_pure env config) as [r [l H]].
  rewrite !H. reflexivity.
Qed.

(** ** The persistence functions *)

Lemma hoare_silent {A} P (R : Exn -> Prop) (Q : A -> Prop) (m : M A) :
  (forall w,
     trace (snd (m w)) = trace w /\
     match fst (m w) with Return a => Q a | Raise e => R e end) ->
  hoare (extends P) R Q m.
Proof.
  intros H w. destruct (H w) as [Ht Hq]. split; [| exact Hq].
  exists []. rewrite app_nil_r. split; [exact Ht | constructor].
Qed.

Lemma extends_mono (P P' : Effect -> Prop) w w' :
  (forall e, P e -> P' e) -> extends P w w' -> extends P' w w'.
Proof.
  intros H [l [E F]]. exists l. split; [exact E |].
  eapply Forall_impl; [| exact F]. exact H.
Qed.

Lemma operational_is_sqlite : sqlite_error sqlite3_OperationalError.
Proof. reflexivity. Qed.

Section Persistence.
Variable env : Env.

Lemma sqlite3_connect_spec :
  hoare (extends db_effect) sqlite_error any (db_manager.sqlite3_connect env).
Proof.
  unfold db_manager.sqlite3_connect.
  repeat hoare_step ltac:(exact I); hoare_trivial.
  - apply operational_is_sqlite.
  - apply hoare_silent. intros w. simpl. split; [reflexivity | exact I].
Qed.

Lemma execute_spec {A} stmt params (run : Database -> Outcome (A * Database)) :
  binds params = true ->
  (forall v e, run v = Raise e -> sqlite_error e) ->
  hoare (extends db_effect) sqlite_error any
    (db_manager.execute env stmt params run).
Proof.
  intros Hb Hrun. unfold db_manager.execute. rewrite Hb. cbn [negb].
  repeat hoare_step ltac:(exact I); hoare_trivial.
  - apply operational_is_sqlite.
  - apply hoare_silent. intros w.
    destruct (conn w) as [view |]; simpl; [| split; reflexivity].
    destruct (run view) as [[res view'] | e] eqn:E; simpl;
      [split; [reflexivity | exact I] |].
    split; [reflexivity | eapply Hrun; exact E].
Qed.

(** Whatever the parameters: a statement raises an exception of
    [sqlite3] or the [OverflowError] of a parameter. *)
Lemma execute_spec_unbound {A} stmt params
  (run : Database -> Outcome (A * Database)) :
  (forall v e, run v = Raise e -> sqlite_error e) ->
  hoare (extends db_effect) statement_error any
    (db_manager.execute env stmt params run).
Proof.
  intros Hrun. unfold db_manager.execute.
  repeat hoare_step ltac:(exact I); hoare_trivial.
  - left. apply operational_is_sqlite.
  - right. reflexivity.
  - apply hoare_silent. intros w.
    destruct (conn w) as [view |]; simpl; [| split; [reflexivity | left; reflexivity]].
    destruct (run view) as [[res view'] | e] eqn:E; simpl;
      [split; [reflexivity | exact I] |].
    split; [reflexivity | left; eapply Hrun; exact E].
Qed.

Lemma commit_spec :
  hoare (extends db_effect) sqlite_error any (db_manager.commit env).
Proof.
  unfold db_manager.commit.
  repeat hoare_step ltac:(exact I); hoare_trivial.
  - apply operational_is_sqlite.
  - apply hoare_silent. intros w. simpl. split; [reflexivity | exact I].
Qed.

Lemma close_spec R : hoare (extends db_effect) R any db_manager.close.
Proof.
  unfold db_manager.close, db_manager.set_conn.
  hoare_step ltac:(exact I); [hoare_step ltac:(exact I); exact I |].
  apply hoare_silent. intros w. simpl. split; [reflexivity | exact I].
Qed.

Lemma now_spec R : hoare (extends db_effect) R any (db_manager.now env).
Proof.
  unfold db_manager.now. repeat hoare_step ltac:(exact I); hoare_trivial.
Qed.

Lemma get_db_connection_spec R :
  hoare (extends db_effect) R any (db_manager.get_db_connection env).
Proof.
  unfold db_manager.get_db_connection, db_manager.get_db_path.
  eapply hoare_bind with (Q1 := any); [hoare_side | |].
  - apply hoare_ret; [hoare_side | exact I].
  - intros p _. destruct p; [| apply hoare_ret; [hoare_side | exact I]].
    eapply hoare_try_except with (R1 := sqlite_error); [hoare_side | |].
    + eapply hoare_bind with (Q1 := any); [hoare_side | |].
      * apply sqlite3_connect_spec.
      * intros. apply hoare_ret; [hoare_side | exact I].
    + intros e He. unfold except. rewrite He.
      repeat hoare_step ltac:(exact I); hoare_trivial.
Qed.

(** The shape shared by the four functions: a guarded transaction
    whose failures are caught. *)
Lemma transaction_spec {A} (body : M A) (on_error : Exn -> M A) :
  hoare (extends db_effect) sqlite_error any body ->
  (forall e, hoare (extends db_effect) never any (on_error e)) ->
  hoare (extends db_effect) never any
    (try_finally
       (try_except body (except "sqlite3.Error" on_error no_more))
       db_manager.close).
Proof.
  intros Hb Hh.
  apply hoare_try_finally; [hoare_side | | apply close_spec].
  eapply hoare_try_except; [hoare_side | exact Hb |].
  intros e He. unfold except. rewrite He. apply Hh.
Qed.

(** The same transaction around a body that may also raise
    [OverflowError]: that exception is not caught. *)
Lemma transaction_spec_unbound {A} (body : M A) (on_error : Exn -> M A) :
  hoare (extends db_effect) statement_error any body ->
  (forall e, hoare (extends db_effect) never any (on_error e)) ->
  hoare (extends db_effect) overflow any
    (try_finally
       (try_except body (except "sqlite3.Error" on_error no_more))
       db_manager.close).
Proof.
  intros Hb Hh.
  apply hoare_try_finally; [hoare_side | | apply close_spec].
  eapply hoare_try_except; [hoare_side | exact Hb |].
  intros e He. unfold except.
  destruct (isinstance e "sqlite3.Error") eqn:Ei.
  - eapply hoare_weaken; [apply Hh | intros ? [] | intros ? H; exact H].
  - destruct He as [He | He]; [unfold sqlite_error in He; congruence | exact He].
Qed.

End Persistence.

(** The parameters of a statement that are text, [None] or a number
    that Python or SQLite counted always bind. *)
Ltac binds_tac :=
  unfold db_manager.arg_of;
  repeat match goal with
         | |- context [match ?x with _ => _ end] => destruct x
         end;
  reflexivity.

Ltac run_tac :=
  intros ? ? ?;
  repeat match goal with
         | H : context [match ?x with _ => _ end] |- _ => destruct x
         end;
  try discriminate;
  match goal with H : Raise _ = Raise _ |- _ => inversion H end;
  reflexivity.

Ltac db_step :=
  lazymatch goal with
  | |- hoare _ _ _ (db_manager.now _) => apply now_spec
  | |- hoare _ sqlite_error _ (db_manager.commit _) => apply commit_spec
  | |- hoare _ statement_error _ (db_manager.commit _) =>
      eapply hoare_weaken;
      [apply commit_spec | intros ? ?; left; assumption | intros ? H; exact H]
  | |- hoare _ _ _ (db_manager.sqlite3_connect _) => apply sqlite3_connect_spec
  | |- hoare _ _ _ (db_manager.get_db_connection _) =>
      apply get_db_connection_spec
  | |- hoare _ sqlite_error _ (db_manager.execute _ _ _ _) =>
      apply execute_spec; [binds_tac | run_tac]
  | |- hoare _ statement_error _ (db_manager.execute _ _ _ _) =>
      apply execute_spec_unbound; run_tac
  | |- hoare _ _ _ (bind _ _) =>
      eapply hoare_bind with (Q1 := any); [hoare_side | | intros ? _ ]
  | |- hoare _ _ _ (for_each _ _ _) =>
      apply hoare_for_each with (I := any);
      [hoare_side | hoare_side | intros ? ? _ _ | exact I]
  | |- hoare _ _ _ _ => hoare_step ltac:(simpl; auto 6)
  end.

Section PersistenceFunctions.
Variable env : Env.

Lemma start_scan_session_spec :
  hoare (extends db_effect) never any (db_manager.start_scan_session env).
Proof.
  unfold db_manager.start_scan_session.
  db_step; [db_step; exact I |].
  db_step; [db_step |]. intros.
  destruct a0; [| db_step; exact I].
  apply transaction_spec; [| intros e];
    unfold db_manager.insert_session; repeat db_step; hoare_trivial.
Qed.

(** [end_scan_session] lets nothing through but the [OverflowError] of
    a count or of an id that cannot be bound. *)
Lemma end_scan_session_spec sid ef hw llm summary :
  hoare (extends db_effect) overflow any
    (db_manager.end_scan_session env sid ef hw llm summary).
Proof.
  unfold db_manager.end_scan_session.
  db_step; [db_step; exact I |].
  destruct sid; [| db_step; exact I].
  db_step; [db_step |]. intros.
  destruct a0; [| db_step; exact I].
  apply transaction_spec_unbound; [| intros e];
    unfold db_manager.update_session; repeat db_step; hoare_trivial.
Qed.


Lemma store_hardware_info_spec sid hw_type devices :
  hoare (extends db_effect) never any
    (db_manager.store_hardware_info env sid hw_type devices).
Proof.
  unfold db_manager.store_hardware_info.
  db_step; [db_step; exact I |].
  db_step; [db_step; exact I |].
  db_step; [db_step |]. intros.
  destruct a0; [| db_step; exact I].
  apply transaction_spec; [| intros e];
    unfold db_manager.insert_hardware; repeat db_step; hoare_trivial.
Qed.

(** [store_events] lets nothing through but the [OverflowError] of an
    event ID that cannot be bound. *)
Lemma store_events_spec sid events :
  hoare (extends db_effect) overflow any
    (db_manager.store_events env sid events).
Proof.
  unfold db_manager.store_events.
  db_step; [db_step; exact I |].
  db_step; [db_step; exact I |].
  db_step; [db_step |]. intros.
  destruct a0; [| db_step; exact I].
  apply transaction_spec_unbound; [| intros e];
    unfold db_manager.insert_event; repeat db_step; hoare_trivial.
Qed.


End PersistenceFunctions.

(** ** Reaching a point of the run, and calling a component *)

Lemma reaches_here {X B} T (target : X -> M B) (Q : X -> Prop) x :
  (forall w, T w w) -> Q x -> reaches T (target x) target Q.
Proof. intros Hr Hq w. exists x, w. auto. Qed.

Lemma reaches_bind {X A B} T (m : M A) (k : A -> M B) (target : X -> M B)
  (Q1 : A -> Prop) (Q : X -> Prop) :
  (forall a b c, T a b -> T b c -> T a c) ->
  hoare T never Q1 m ->
  (forall a, Q1 a -> reaches T (k a) target Q) ->
  reaches T (bind m k) target Q.
Proof.
  intros Ht Hm Hk w. unfold bind.
  destruct (Hm w) as [H1 H2]. destruct (m w) as [[a | e] w1]; simpl in *.
  - destruct (Hk a H2 w1) as [x [w2 [Hq [H3 E]]]].
    exists x, w2. split; [exact Hq |]. split; [eapply Ht; eauto | exact E].
  - destruct H2.
Qed.

Lemma calls_bind_left {A B} fn (m : M A) (k : A -> M B) :
  calls fn m -> (forall a, hoare (extends every) any any (k a)) ->
  calls fn (bind m k).
Proof.
  intros Hm Hk w. unfold bind. specialize (Hm w).
  destruct (m w) as [[a | e] w1]; simpl in *; [| exact Hm].
  destruct (Hk a w1) as [[l [E _]] _]. rewrite E. apply in_or_app. left. exact Hm.
Qed.

Lemma calls_bind_right {A B} fn (m : M A) (k : A -> M B) (Q : A -> Prop) T :
  hoare T never Q m -> (forall a, Q a -> calls fn (k a)) ->
  calls fn (bind m k).
Proof.
  intros Hm Hk w. unfold bind. destruct (Hm w) as [_ H].
  destruct (m w) as [[a | e] w1]; simpl in *; [| destruct H].
  apply Hk. exact H.
Qed.

Lemma calls_emit {B} fn (k : unit -> M B) :
  hoare (extends every) any any (k tt) ->
  calls fn (bind (emit (Call fn)) k).
Proof.
  intros Hk w. unfold bind, emit.
  match goal with |- context [k tt ?w1] => destruct (Hk w1) as [[l [E _]] _] end.
  rewrite E. simpl. apply in_or_app. left. apply in_or_app. right. left.
  reflexivity.
Qed.

(** ** Relaxing the specifications of the components *)

Lemma db_effect_not_analysis e : db_effect e -> not_analysis e.
Proof.
  unfold not_analysis. destruct e; simpl; intros H; try discriminate.
  intros Heq. injection Heq as ->. destruct H as [H | [H | [H | H]]]; discriminate.
Qed.

Lemma probe_effect_not_analysis e : probe_effect e -> not_analysis e.
Proof. unfold not_analysis. destruct e; simpl; intros H; try discriminate; destruct H. Qed.

Lemma scan_effect_not_analysis e : scan_effect e -> not_analysis e.
Proof.
  unfold not_analysis. destruct e; simpl; intros H; try discriminate.
  intros Heq. injection Heq as ->. discriminate.
Qed.

Lemma analyze_event_logs_fixed env config w0 s :
  fst (monitor.analyze_event_logs env config w0) = Return s ->
  hoare (only_logs scan_effect) never (fun x => x = s)
    (monitor.analyze_event_logs env config).
Proof.
  intros H w. destruct (analyze_event_logs_spec env config w) as [Ht _].
  split; [exact Ht |].
  rewrite (analyze_event_logs_same env config w w0), H. reflexivity.
Qed.

Lemma load_api_key_found env key :
  load_dotenv env = None ->
  getenv_GROK_API_KEY env = Some key -> key <> "" ->
  hoare (only_logs probe_effect) never (fun k => k = Some key)
    (utils.load_api_key env).
Proof.
  intros Hd Hk Hne. unfold utils.load_api_key. rewrite Hd, Hk.
  destruct key as [| c s]; [congruence |].
  eapply hoare_try_except with (R1 := never);
    [hoare_side | | intros e []].
  repeat hoare_step ltac:(exact I); hoare_trivial.
Qed.

(** A call of a persistence function, under any relation that admits
    its effects. *)
Ltac db_call HPdb :=
  let relax spec :=
    (eapply hoare_relax;
     [ intros ? ?; apply extends_mono; exact HPdb
     | eapply hoare_weaken;
       [ apply spec
       | let raised := fresh in
         intros ? raised; first [solve [destruct raised] | exact I]
       | intros; exact I ] ]) in
  lazymatch goal with
  | |- hoare (extends _) _ _ (db_manager.store_hardware_info _ _ _ _) =>
      relax store_hardware_info_spec
  | |- hoare (extends _) _ _ (db_manager.store_events _ _ _) =>
      relax store_events_spec
  | |- hoare (extends _) _ _ (db_manager.start_scan_session _) =>
      relax start_scan_session_spec
  | |- hoare (extends _) _ _ (db_manager.end_scan_session _ _ _ _ _ _) =>
      relax end_scan_session_spec
  end.

(** One step through a function of the orchestrator. *)
Ltac flow_step call_tac P_tac :=
  first
    [ call_tac
    | hoare_step P_tac
    | lazymatch goal with
      | |- hoare _ _ _ (bind _ _) =>
          eapply hoare_bind with (Q1 := any); [hoare_side | | intros ? _ ]
      | |- hoare _ _ _ (for_each _ _ _) =>
          apply hoare_for_each with (I := any);
          [hoare_side | hoare_side | intros ? ? _ _ | exact I]
      end ].

Lemma load_api_key_spec env :
  hoare (only_logs probe_effect) never any (utils.load_api_key env).
Proof.
  unfold utils.load_api_key.
  repeat flow_step ltac:(fail) ltac:(exact I); hoare_trivial.
Qed.

Section Collectors.
Variable env : Env.
Variable P : Effect -> Prop.
Hypothesis P_db : forall e, db_effect e -> P e.
Hypothesis P_probe : forall e, probe_effect e -> P e.

Lemma get_com_ports_spec sid :
  hoare (extends P) never any (monitor.get_com_ports env sid).
Proof.
  unfold monitor.get_com_ports.
  repeat flow_step ltac:(idtac; db_call P_db) ltac:(apply P_probe; exact I);
    hoare_trivial.
Qed.

Lemma get_cameras_windows_spec sid :
  hoare (extends P) never any (monitor.get_cameras_windows env sid).
Proof.
  unfold monitor.get_cameras_windows.
  repeat flow_step ltac:(idtac; db_call P_db) ltac:(apply P_probe; exact I);
    hoare_trivial.
Qed.

Lemma get_usb_devices_windows_spec sid :
  hoare (extends P) never any (monitor.get_usb_devices_windows env sid).
Proof.
  unfold monitor.get_usb_devices_windows.
  repeat flow_step ltac:(idtac; db_call P_db) ltac:(apply P_probe; exact I);
    hoare_trivial.
Qed.

End Collectors.

(** ** The third stage of the run *)

Lemma every_db e : db_effect e -> every e.
Proof. intros _; exact I. Qed.

Lemma preprocess_logs_extends P log_details max_logs :
  (forall l t a, P (Log l t a)) ->
  hoare (extends P) any any (llm_analyzer.preprocess_logs log_details max_logs).
Proof.
  intros HP.
  unfold llm_analyzer.preprocess_logs, llm_analyzer.parse_logs,
    llm_analyzer.parse_line.
  repeat flow_step ltac:(fail) ltac:(apply HP); hoare_trivial.
Qed.

(** One step through the analysis client; [HP] admits the log
    entries, [P_tac] the other effects. *)
Ltac analysis_step HP P_tac :=
  flow_step
    ltac:(idtac; lazymatch goal with
          | |- hoare _ _ _ (llm_analyzer.preprocess_logs _ _) =>
              apply preprocess_logs_extends; exact HP
          end)
    P_tac.

Lemma analyze_logs_with_llm_extends P env log_details config api_key :
  (forall l t a, P (Log l t a)) ->
  (forall u b p t, P (HttpPost u b p t)) ->
  P (Call "analyze_logs_with_llm") ->
  hoare (extends P) any any
    (llm_analyzer.analyze_logs_with_llm env log_details config api_key).
Proof.
  intros HP Hpost Hcall.
  unfold llm_analyzer.analyze_logs_with_llm,
    llm_analyzer.request_and_classify, llm_analyzer.raise_for_status.
  repeat analysis_step HP ltac:(first [apply HP | apply Hpost | exact Hcall]);
    hoare_trivial.
Qed.

Lemma analyze_logs_with_llm_calls env log_details config api_key :
  calls "analyze_logs_with_llm"
    (llm_analyzer.analyze_logs_with_llm env log_details config api_key).
Proof.
  assert (HP : forall l t a, every (Log l t a)) by (intros; exact I).
  unfold llm_analyzer.analyze_logs_with_llm,
    llm_analyzer.request_and_classify, llm_analyzer.raise_for_status.
  apply calls_emit. repeat analysis_step HP ltac:(exact I); hoare_trivial.
Qed.

Section ThirdStage.
Variable env : Env.
Variable config : Config.
Let threshold : Z := get (check_threshold (get (llm config) empty_llm)) 5%Z.

Lemma llm_stage_below_threshold api_key sid hw c d r :
  (Z.of_nat c < threshold)%Z ->
  hoare (extends not_analysis) any any
    (monitor.llm_stage env config api_key sid hw (c, d, r)).
Proof.
  intros Hlt. unfold monitor.llm_stage. fold threshold.
  assert (E : (Z.of_nat c >=? threshold)%Z = false)
    by (rewrite Z.geb_leb; apply Z.leb_gt; exact Hlt).
  rewrite E. cbn [andb].
  repeat flow_step ltac:(idtac; db_call db_effect_not_analysis)
    ltac:(unfold not_analysis; discriminate); hoare_trivial.
Qed.

Lemma llm_stage_escalates key sid hw c d r :
  get (enabled (get (llm config) empty_llm)) true = true ->
  key <> "" ->
  (threshold <= Z.of_nat c)%Z ->
  calls "analyze_logs_with_llm"
    (monitor.llm_stage env config (Some key) sid hw (c, d, r)).
Proof.
  intros Hen Hkey Hge. unfold monitor.llm_stage. fold threshold.
  assert (E : (Z.of_nat c >=? threshold)%Z = true)
    by (rewrite Z.geb_leb; apply Z.leb_le; exact Hge).
  rewrite E, Hen. cbn [andb].
  destruct key as [| ch key]; [congruence |].
  eapply calls_bind_right with (T := extends every) (Q := any).
  { apply hoare_emit_extends; exact I. }
  intros _ _. apply calls_bind_left.
  - eapply calls_bind_right with (T := extends every) (Q := any).
    { apply hoare_emit_extends; exact I. }
    intros _ _. apply calls_bind_left.
    + apply analyze_logs_with_llm_calls.
    + intros llm_result.
      repeat flow_step ltac:(idtac; db_call every_db) ltac:(exact I);
        hoare_trivial.
  - intros [[performed llm_result] summary].
    repeat flow_step ltac:(idtac; db_call every_db) ltac:(exact I);
      hoare_trivial.
Qed.

End ThirdStage.

Lemma run_reaches_third_stage env config w0 key scan :
  load_dotenv env = None ->
  getenv_GROK_API_KEY env = Some key -> key <> "" ->
  fst (monitor.analyze_event_logs env config w0) = Return scan ->
  reaches (extends not_analysis) (monitor.run_monitor env config)
    (fun x => monitor.llm_stage env config (Some key) (fst x) (snd x) scan)
    any.
Proof.
  intros Hd Hk Hne Hscan. unfold monitor.run_monitor.
  pose proof db_effect_not_analysis as Hdb.
  pose proof probe_effect_not_analysis as Hprobe.
  assert (Hlog : forall l t a, not_analysis (Log l t a))
    by (intros; unfold not_analysis; discriminate).
  do 4 (eapply reaches_bind with (Q1 := any);
        [hoare_side
        | apply hoare_emit_extends;
          [unfold not_analysis; discriminate | exact I]
        | intros _ _]).
  eapply reaches_bind with (Q1 := any); [hoare_side | db_call Hdb |].
  intros sid _.
  eapply reaches_bind with (Q1 := any);
    [hoare_side
    | destruct sid; apply hoare_emit_extends; auto; exact I
    | intros _ _].
  eapply reaches_bind with (Q1 := fun k => k = Some key); [hoare_side | |].
  { eapply hoare_relax;
      [| apply (load_api_key_found env key Hd Hk Hne)].
    intros a b H. apply only_logs_extends.
    eapply only_logs_mono; [exact Hprobe | exact H]. }
  intros api_key ->.
  eapply reaches_bind with (Q1 := fun c => c = config);
    [hoare_side | apply hoare_ret; [hoare_side | reflexivity] |].
  intros config' ->.
  eapply reaches_bind with (Q1 := any);
    [hoare_side | apply hoare_emit_extends; auto; exact I | intros _ _].
  eapply reaches_bind with (Q1 := any);
    [hoare_side | apply get_com_ports_spec; assumption |].
  intros com _.
  eapply reaches_bind with (Q1 := any); [hoare_side | |].
  { destruct (is_windows env).
    - eapply hoare_bind with (Q1 := any);
        [hoare_side | apply get_cameras_windows_spec; assumption |].
      intros cams _.
      eapply hoare_bind with (Q1 := any);
        [hoare_side | apply get_usb_devices_windows_spec; assumption |].
      intros usb _. apply hoare_ret; [hoare_side | exact I].
    - eapply hoare_bind with (Q1 := any);
        [hoare_side | apply hoare_emit_extends; auto; exact I |].
      intros _ _. apply hoare_ret; [hoare_side | exact I]. }
  intros hw _.
  eapply reaches_bind with (Q1 := any);
    [hoare_side | apply hoare_emit_extends; auto; exact I | intros _ _].
  eapply reaches_bind with (Q1 := fun s => s = scan); [hoare_side | |].
  { eapply hoare_relax;
      [| apply (analyze_event_logs_fixed env config w0 scan Hscan)].
    intros a b H. apply only_logs_extends.
    eapply only_logs_mono; [exact scan_effect_not_analysis | exact H]. }
  intros s ->.
  apply (reaches_here (extends not_analysis)
           (fun x => monitor.llm_stage env config (Some key) (fst x) (snd x) scan)
           any (sid, hw)).
  - apply extends_refl.
  - exact I.
Qed.

(** ** Persistence: the effect of [store_events] on the rows *)

Section StoreEvents.
Variable env : Env.

Lemma with_events_app d r1 r2 :
  with_events (with_events d r1) r2 = with_events d (r1 ++ r2).
Proof. unfold with_events; simpl. rewrite app_assoc. reflexivity. Qed.

Lemma insert_loop body :
  inserts_one env body ->
  forall events count w view,
    conn w = Some view ->
    exists w',
      db w' = db w /\
      match loop_failure env (clock w) events with
      | Some e => for_each events body count w = (Raise e, w')
      | None =>
          for_each events body count w
          = (Return (count + List.length events)%nat, w')
          /\ clock w' = (clock w + 2 * List.length events)%nat
          /\ conn w' = Some (with_events view (event_rows env (clock w) events))
      end.
Proof.
  intros Hbody. induction events as [| event events IH]; intros count w view Hc.
  - exists w. simpl. split; [reflexivity |].
    rewrite !Nat.add_0_r. split; [reflexivity |]. split; [reflexivity |].
    rewrite Hc. unfold with_events. rewrite app_nil_r. destruct view; reflexivity.
  - rewrite for_each_cons. cbn [loop_failure]. simpl List.length.
    destruct (Hbody event count w view Hc) as [w1 [Hdb H1]].
    destruct (sql_fault env (S (clock w))).
    + exists w1. rewrite H1. simpl. split; [exact Hdb | reflexivity].
    + destruct (id_fits event).
      2:{ exists w1. rewrite H1. simpl. split; [exact Hdb | reflexivity]. }
      destruct H1 as [E1 [Hclock Hconn]]. rewrite E1.
      destruct (IH (S count) w1 _ Hconn) as [w' [Hdb' H2]].
      exists w'. split; [congruence |]. rewrite Hclock in H2. simpl.
      destruct (loop_failure env (S (S (clock w))) events).
      * exact H2.
      * destruct H2 as [E2 [Hc2 Hconn2]]. rewrite E2.
        split; [f_equal; f_equal; lia |]. split; [lia |].
        rewrite Hconn2, with_events_app. reflexivity.
Qed.


Lemma loop_failure_class events :
  forall t e,
    loop_failure env t events = Some e ->
    e = sqlite3_OperationalError \/ e = OverflowError.
Proof.
  induction events as [| event events IH]; intros t e; [discriminate |].
  cbn [loop_failure].
  destruct (sql_fault env (S t)); [intros [= <-]; left; reflexivity |].
  destruct (id_fits event); [apply IH | intros [= <-]; right; reflexivity].
Qed.

Lemma get_db_connection_run w :
  exists w',
    db w' = db w /\
    match db_path env with
    | None => db_manager.get_db_connection env w = (Return None, w')
    | Some _ =>
        if sql_fault env (clock w)
        then db_manager.get_db_connection env w = (Return None, w')
        else db_manager.get_db_connection env w = (Return (Some tt), w')
             /\ conn w' = Some (db w) /\ clock w' = S (clock w)
    end.
Proof.
  unfold db_manager.get_db_connection, db_manager.get_db_path.
  unfold bind at 1, ret at 1.
  destruct (db_path env) as [path |];
    [| exists w; split; reflexivity].
  unfold try_except, db_manager.sqlite3_connect, bind, emit, tick, raise, ret.
  simpl. destruct (sql_fault env (clock w)); simpl.
  - eexists. split; [| reflexivity]. reflexivity.
  - eexists. split; [| split; [reflexivity | split; reflexivity]]. reflexivity.
Qed.

Lemma commit_run w view :
  conn w = Some view ->
  exists w',
    if sql_fault env (clock w)
    then db_manager.commit env w = (Raise sqlite3_OperationalError, w')
         /\ db w' = db w
    else db_manager.commit env w = (Return tt, w') /\ db w' = view.
Proof.
  intros Hc. unfold db_manager.commit, bind, emit, tick, raise. simpl.
  destruct (sql_fault env (clock w)); simpl.
  - eexists. split; reflexivity.
  - rewrite Hc. eexists. split; reflexivity.
Qed.

(** A guarded transaction keeps what its body committed, whether the
    body returns or fails with a database error. *)
Lemma transaction_returns {A} (body : M A) handler w a w1 :
  body w = (Return a, w1) ->
  exists w',
    try_finally (try_except body handler) db_manager.close w = (Return a, w')
    /\ db w' = db w1.
Proof.
  intros E. unfold try_finally, try_except. rewrite E.
  unfold db_manager.close, db_manager.set_conn, bind, emit. simpl.
  eexists. split; reflexivity.
Qed.

Lemma transaction_fails {A} (body : M A) template (x : A) w w1 :
  body w = (Raise sqlite3_OperationalError, w1) ->
  exists w',
    try_finally
      (try_except body
         (except "sqlite3.Error"
            (fun e => logger ERROR template [AExn e] ;;; ret x) no_more))
      db_manager.close w = (Return x, w')
    /\ db w' = db w1.
Proof.
  intros E. unfold try_finally, try_except. rewrite E.
  unfold except, db_manager.close, db_manager.set_conn, bind, emit, logger,
    emit, ret. simpl.
  eexists. split; reflexivity.
Qed.

(** An exception that is no [sqlite3.Error] leaves the transaction,
    after the connection was closed. *)
Lemma transaction_raises {A} (body : M A) on_error w e w1 :
  body w = (Raise e, w1) ->
  isinstance e "sqlite3.Error" = false ->
  exists w',
    try_finally
      (try_except body (except "sqlite3.Error" on_error no_more))
      db_manager.close w = (Raise e, w')
    /\ db w' = db w1 /\ conn w' = None.
Proof.
  intros E He. unfold try_finally, try_except. rewrite E.
  unfold except. rewrite He.
  unfold no_more, db_manager.close, db_manager.set_conn, bind, emit. simpl.
  eexists. split; [reflexivity | split; reflexivity].
Qed.

(** [store_events], case by case: what it returns or raises, and what
    is committed. *)
Lemma store_events_cases sid events w :
  let n := List.length events in
  let result := db_manager.store_events env sid events w in
  let nothing r := fst result = r /\ db (snd result) = db w in
  match events, db_path env with
  | [], _ | _, None => nothing (Return 0%nat)
  | _ :: _, Some _ =>
      if sql_fault env (clock w) then nothing (Return 0%nat)
      else
        match loop_failure env (S (clock w)) events with
        | Some e =>
            nothing (if isinstance e "sqlite3.Error" then Return 0%nat
                     else Raise e)
        | None =>
            if sql_fault env (S (clock w) + 2 * n) then nothing (Return 0%nat)
            else fst result = Return n
                 /\ db (snd result)
                    = with_events (db w) (event_rows env (S (clock w)) events)
        end
  end.
Proof.
  intros n result nothing.
  assert (Hbody : inserts_one env
            (fun event count =>
               default_ts <- db_manager.now env ;;
               let r := db_manager.event_row default_ts event in
               db_manager.execute env
                 ("INSERT INTO events (timestamp, source, event_id, message, llm_analysis, abnormal_flag) "
                  +++ "VALUES (?, ?, ?, ?, ?, ?)")
                 [AStr (er_timestamp r); AStr (er_source r);
                  AInt (er_event_id r); AStr (er_message r);
                  AStr (er_llm_analysis r); AInt (er_abnormal_flag r)]
                 (db_manager.insert_event r) ;;;
               ret (count + 1)%nat)).
  { intros event count w0 view Hc.
    unfold db_manager.now, db_manager.execute, bind, tick, emit, ret, raise.
    simpl. destruct (sql_fault env (S (clock w0))).
    - eexists. split; [| reflexivity]. reflexivity.
    - unfold id_fits.
      replace (fits_int64 (if get (ev_abnormal event) false then 1%Z else 0%Z))
        with true by (destruct (get (ev_abnormal event) false); reflexivity).
      rewrite andb_true_r.
      destruct (fits_int64 (get (ev_event_id event) 0%Z)); simpl.
      + rewrite Hc. simpl. eexists.
        split; [| split; [rewrite Nat.add_1_r; reflexivity | split; reflexivity]].
        reflexivity.
      + eexists. split; [| reflexivity]. reflexivity. }
  destruct events as [| ev evs].
  { destruct (db_path env); split; reflexivity. }
  assert (Hrun :
    exists w',
      result = (match db_path env with
                | None => Return 0%nat
                | Some _ =>
                    if sql_fault env (clock w) then Return 0%nat
                    else
                      match loop_failure env (S (clock w)) (ev :: evs) with
                      | Some e =>
                          if isinstance e "sqlite3.Error" then Return 0%nat
                          else Raise e
                      | None =>
                          if sql_fault env (S (clock w) + 2 * n)
                          then Return 0%nat else Return n
                      end
                end, w')
      /\ db w' = match db_path env with
                 | None => db w
                 | Some _ =>
                     if sql_fault env (clock w) then db w
                     else
                       match loop_failure env (S (clock w)) (ev :: evs) with
                       | Some e => db w
                       | None =>
                           if sql_fault env (S (clock w) + 2 * n) then db w
                           else with_events (db w)
                                  (event_rows env (S (clock w)) (ev :: evs))
                       end
                 end).
  { unfold result, db_manager.store_events. cbn [truthy_list negb].
    match goal with
    | |- context [for_each (ev :: evs) ?b 0%nat] => set (loop_body := b)
    end.
    assert (Hbody' : inserts_one env loop_body) by exact Hbody.
    unfold bind at 1. unfold emit at 1.
    match goal with
    | |- context [bind (db_manager.get_db_connection env) ?k ?w1] =>
        remember k as rest eqn:Hrest;
        destruct (get_db_connection_run w1) as [w2 [Hdb2 Hconn]];
        unfold bind at 1
    end.
    cbn [clock] in Hconn.
    destruct (db_path env) as [path |].
    2:{ rewrite Hconn, Hrest. eexists. split; [reflexivity | exact Hdb2]. }
    destruct (sql_fault env (clock w)).
    { rewrite Hconn, Hrest. eexists. split; [reflexivity | exact Hdb2]. }
    destruct Hconn as [Hconn [Hview Hclock]]. rewrite Hconn, Hrest.
    cbn [db] in Hview, Hdb2.
    destruct (insert_loop loop_body Hbody' (ev :: evs) 0%nat w2 _ Hview)
      as [w3 [Hdb3 Hloop]].
    rewrite Hclock in Hloop. fold n in Hloop.
    destruct (loop_failure env (S (clock w)) (ev :: evs)) as [e |] eqn:Efail.
    - destruct (loop_failure_class _ _ _ Efail) as [-> | ->].
      + match goal with
        | |- context [try_finally (try_except ?body _) _ w2] =>
            destruct (transaction_fails body "이벤트 저장 오류: {e}" 0%nat w2 w3)
              as [w' [E Hdb']]
        end.
        { unfold bind at 1. rewrite Hloop. reflexivity. }
        rewrite E. exists w'. split; [reflexivity | congruence].
      + match goal with
        | |- context [try_finally (try_except ?body (except _ ?h _)) _ w2] =>
            destruct (transaction_raises body h w2 OverflowError w3)
              as [w' [E [Hdb' _]]]
        end.
        { unfold bind at 1. rewrite Hloop. reflexivity. }
        { reflexivity. }
        rewrite E. exists w'. split; [reflexivity | congruence].
    - destruct Hloop as [Hloop [Hclock3 Hview3]].
      destruct (commit_run w3 _ Hview3) as [w4 Hcommit].
      rewrite Hclock3 in Hcommit.
      destruct (sql_fault env (S (clock w) + 2 * n)).
      + destruct Hcommit as [Hcommit Hdb4].
        match goal with
        | |- context [try_finally (try_except ?body _) _ w2] =>
            destruct (transaction_fails body "이벤트 저장 오류: {e}" 0%nat w2 w4)
              as [w' [E Hdb']]
        end.
        { unfold bind at 1. rewrite Hloop. unfold bind at 1. rewrite Hcommit.
          reflexivity. }
        rewrite E. exists w'. split; [reflexivity | congruence].
      + destruct Hcommit as [Hcommit Hdb4].
        match goal with
        | |- context [try_finally (try_except ?body ?h) _ w2] =>
            destruct (transaction_returns body h w2 n
                        (snd (logger DEBUG "이벤트 {count}개 저장됨" [ANat n] w4)))
              as [w' [E Hdb']]
        end.
        { unfold bind at 1. rewrite Hloop. unfold bind at 1. rewrite Hcommit.
          unfold bind, logger, emit, ret. reflexivity. }
        rewrite E. exists w'. split; [reflexivity |].
        rewrite Hdb'. cbn [snd logger emit db]. rewrite Hdb4. reflexivity. }
  destruct Hrun as [w' [E Hdb]]. unfold nothing. rewrite E. cbn [fst snd].
  destruct (db_path env); [| split; [reflexivity | exact Hdb]].
  destruct (sql_fault env (clock w)); [split; [reflexivity | exact Hdb] |].
  destruct (loop_failure env (S (clock w)) (ev :: evs));
    [split; [reflexivity | exact Hdb] |].
  destruct (sql_fault env (S (clock w) + 2 * n));
    split; first [reflexivity | exact Hdb].
Qed.


(** Whatever the batch, nothing of it is committed or all of it. *)
Lemma store_events_atomic sid events w :
  let n := List.length events in
  let result := db_manager.store_events env sid events w in
  db (snd result) = db w
  \/ (fst result = Return n
      /\ db (snd result)
         = with_events (db w) (event_rows env (S (clock w)) events)).
Proof.
  intros n result.
  pose proof (store_events_cases sid events w) as H. cbv zeta in H.
  fold n result in H.
  destruct events as [| ev evs]; [left; destruct (db_path env); apply H |].
  destruct (db_path env); [| left; apply H].
  destruct (sql_fault env (clock w)); [left; apply H |].
  destruct (loop_failure env (S (clock w)) (ev :: evs)); [left; apply H |].
  destruct (sql_fault env (S (clock w) + 2 * n)); [left; apply H | right; exact H].
Qed.


End StoreEvents.

(** ** Callers without a session *)


Section NoSession.
Variable env : Env.
Variable sid : option nat.
Hypothesis no_session : truthy_session sid = false.





End NoSession.


(** ** What the hardware rows become *)

Ltac run_db :=
  unfold db_manager.get_db_connection, db_manager.get_db_path,
    db_manager.sqlite3_connect, db_manager.execute, db_manager.commit,
    db_manager.close, db_manager.now, db_manager.set_conn,
    try_finally, try_except, except, no_more, bind, logger, emit, tick, ret,
    raise;
  cbn [fst snd db conn clock trace].

Ltac world :=
  cbn [fst snd db conn clock trace orb negb andb Nat.add isinstance existsb
       String.eqb Ascii.eqb Bool.eqb exn_class exn_mro sqlite3_OperationalError
       sqlite3_IntegrityError builtin_exn get].

Lemma with_hardware_app d r1 r2 :
  with_hardware (with_hardware d r1) r2 = with_hardware d (r1 ++ r2).
Proof. unfold with_hardware; simpl. rewrite app_assoc. reflexivity. Qed.

Lemma with_hardware_nil d : with_hardware d [] = d.
Proof. unfold with_hardware. rewrite app_nil_r. destruct d; reflexivity. Qed.

Lemma hardware_loop env ts hw_type (body : Device -> nat -> M nat) :
  (forall device count w view,
     conn w = Some view ->
     exists w',
       db w' = db w /\
       if sql_fault env (clock w) || negb (named device)
       then exists e, body device count w = (Raise e, w')
                      /\ isinstance e "sqlite3.Error" = true
       else body device count w = (Return (S count), w')
            /\ clock w' = S (clock w)
            /\ conn w' = Some (with_hardware view [hardware_row ts hw_type device])) ->
  forall devices count w view,
    conn w = Some view ->
    exists w',
      db w' = db w /\
      if hardware_insert_fails env (clock w) devices
      then exists e, for_each devices body count w = (Raise e, w')
                     /\ isinstance e "sqlite3.Error" = true
      else for_each devices body count w
           = (Return (count + List.length devices)%nat, w')
           /\ clock w' = (clock w + List.length devices)%nat
           /\ conn w'
              = Some (with_hardware view (map (hardware_row ts hw_type) devices)).
Proof.
  intros Hbody. induction devices as [| device devices IH];
    intros count w view Hc.
  - exists w. simpl. split; [reflexivity |].
    rewrite !Nat.add_0_r, with_hardware_nil. auto.
  - rewrite for_each_cons. cbn [hardware_insert_fails List.length map].
    destruct (Hbody device count w view Hc) as [w1 [Hdb H1]].
    destruct (sql_fault env (clock w) || negb (named device)); cbn [orb].
    + destruct H1 as [e [E1 He]]. exists w1. rewrite E1.
      split; [exact Hdb |]. exists e. auto.
    + destruct H1 as [E1 [Hclock Hconn]]. rewrite E1.
      destruct (IH (S count) w1 _ Hconn) as [w' [Hdb' H2]].
      exists w'. split; [congruence |]. rewrite Hclock in H2.
      destruct (hardware_insert_fails env (S (clock w)) devices).
      * exact H2.
      * destruct H2 as [E2 [Hc2 Hconn2]]. rewrite E2.
        split; [f_equal; f_equal; lia |]. split; [lia |].
        rewrite Hconn2, with_hardware_app. reflexivity.
Qed.

Lemma transaction_fails_with {A} (body : M A) template (x : A) w e w1 :
  body w = (Raise e, w1) ->
  isinstance e "sqlite3.Error" = true ->
  exists w',
    try_finally
      (try_except body
         (except "sqlite3.Error"
            (fun e => logger ERROR template [AExn e] ;;; ret x) no_more))
      db_manager.close w = (Return x, w')
    /\ db w' = db w1 /\ conn w' = None.
Proof.
  intros E He. unfold try_finally, try_except. rewrite E.
  unfold except. rewrite He.
  unfold db_manager.close, db_manager.set_conn, bind, emit, logger, emit, ret.
  simpl. eexists. split; [reflexivity | split; reflexivity].
Qed.

Lemma store_hardware_info_run env sid hw_type devices w :
  let ok :=
    match devices, db_path env with
    | _ :: _, Some _ => negb (hardware_error env (clock w) devices)
    | _, _ => false
    end in
  exists w',
    db_manager.store_hardware_info env sid hw_type devices w
    = (Return (if ok then List.length devices else 0%nat), w')
    /\ db w'
       = (if ok
          then with_hardware (db w)
                 (map (hardware_row (now_isoformat env (S (clock w))) hw_type)
                    devices)
          else db w).
Proof.
  unfold db_manager.store_hardware_info, hardware_error.
  destruct devices as [| d ds]; [eexists; split; reflexivity |].
  cbn [truthy_list negb]. set (devices := d :: ds).
  unfold bind at 1. unfold emit at 1.
  match goal with
  | |- context [bind (db_manager.get_db_connection env) ?k ?w1] =>
      destruct (get_db_connection_run env w1) as [w2 [Hdb2 Hconn]];
      unfold bind at 1
  end.
  cbn [clock db] in Hconn, Hdb2.
  destruct (db_path env) as [path |].
  2:{ rewrite Hconn. eexists. split; [reflexivity | exact Hdb2]. }
  destruct (sql_fault env (clock w)); cbn [orb negb].
  { rewrite Hconn. eexists. split; [reflexivity | exact Hdb2]. }
  destruct Hconn as [Hconn [Hview Hclock]]. rewrite Hconn.
  (* the timestamp *)
  set (ts := now_isoformat env (S (clock w))).
  set (w3 := mkWorld (db w2) (conn w2) (S (clock w2)) (trace w2)).
  assert (Hnow : db_manager.now env w2 = (Return ts, w3)).
  { unfold db_manager.now, bind, tick, ret, ts, w3. rewrite Hclock.
    reflexivity. }
  match goal with
  | |- context [try_finally (try_except ?body ?h) _ w2] => set (tx_body := body)
  end.
  pose proof (eq_refl (tx_body w2)) as Ebody.
  unfold tx_body at 2 in Ebody. unfold bind at 1 in Ebody.
  rewrite Hnow in Ebody.
  match type of Ebody with
  | context [for_each devices ?b 0%nat] => set (loop_body := b) in Ebody
  end.
  assert (Hbody : forall device count w0 view,
             conn w0 = Some view ->
             exists w',
               db w' = db w0 /\
               if sql_fault env (clock w0) || negb (named device)
               then exists e, loop_body device count w0 = (Raise e, w')
                              /\ isinstance e "sqlite3.Error" = true
               else loop_body device count w0 = (Return (S count), w')
                    /\ clock w' = S (clock w0)
                    /\ conn w'
                       = Some (with_hardware view
                                 [hardware_row ts hw_type device])).
  { intros device count w0 view Hc. unfold loop_body.
    unfold db_manager.execute.
    match goal with
    | |- context [binds ?params] =>
        replace (binds params) with true by (symmetry; binds_tac)
    end.
    unfold db_manager.insert_hardware, bind, tick, emit,
      ret, raise, named, hardware_row.
    cbn [fst snd db conn clock trace negb].
    destruct (sql_fault env (clock w0)); cbn [orb].
    - eexists. split; [| eexists; split; reflexivity]. reflexivity.
    - rewrite Hc. destruct (dev_name device) as [n |]; cbn [negb get].
      + eexists. split; [| split; [rewrite Nat.add_1_r; reflexivity
                                  | split; reflexivity]].
        reflexivity.
      + eexists. split; [| eexists; split; reflexivity]. reflexivity. }
  assert (Hc3 : conn w3 = Some (db w)) by (unfold w3; exact Hview).
  destruct (hardware_loop env ts hw_type loop_body Hbody devices 0%nat w3 _ Hc3)
    as [w4 [Hdb4 Hloop]].
  assert (Hclock3 : clock w3 = S (S (clock w)))
    by (unfold w3; cbn [clock]; rewrite Hclock; reflexivity).
  rewrite Hclock3 in Hloop. cbn [Nat.add].
  assert (Hdb3 : db w3 = db w) by (unfold w3; exact Hdb2).
  unfold bind at 1 in Ebody.
  destruct (hardware_insert_fails env (S (S (clock w))) devices);
    cbn [orb negb].
  - destruct Hloop as [e [Eloop He]]. rewrite Eloop in Ebody.
    destruct (transaction_fails_with tx_body "하드웨어 정보 저장 오류: {e}"
                0%nat w2 e w4 Ebody He) as [w' [E [Hdb' _]]].
    rewrite E. exists w'. split; [reflexivity | congruence].
  - destruct Hloop as [Eloop [Hclock4 Hview4]]. rewrite Eloop in Ebody.
    destruct (commit_run env w4 _ Hview4) as [w5 Hcommit].
    rewrite Hclock4 in Hcommit. cbn [Nat.add] in Hcommit.
    unfold bind at 1 in Ebody.
    destruct (sql_fault env (S (S (clock w + List.length devices)))) eqn:Ec;
      cbn [negb].
    + destruct Hcommit as [Hcommit Hdb5]. rewrite Hcommit in Ebody.
      destruct (transaction_fails_with tx_body "하드웨어 정보 저장 오류: {e}"
                  0%nat w2 sqlite3_OperationalError w5 Ebody eq_refl)
        as [w' [E [Hdb' _]]].
      rewrite E. exists w'. split; [reflexivity | congruence].
    + destruct Hcommit as [Hcommit Hdb5]. rewrite Hcommit in Ebody.
      unfold bind, logger, emit, ret in Ebody.
      match goal with
      | |- context [try_finally (try_except tx_body ?h) _ w2] =>
          destruct (transaction_returns tx_body h w2 _ _ Ebody)
            as [w' [E Hdb']]
      end.
      rewrite E. exists w'. split; [reflexivity |].
      rewrite Hdb'. cbn [db]. rewrite Hdb5. reflexivity.
Qed.

(** ** The failure modes of the model call *)

Lemma hoare_total {A} T (Q : A -> Prop) (m : M A) :
  hoare T never Q m -> forall w, exists a, fst (m w) = Return a /\ Q a.
Proof.
  intros H w. destruct (H w) as [_ Hq].
  destruct (fst (m w)) as [a | e]; [exists a; auto | destruct Hq].
Qed.

(** Once the digest is built, every failure of the call (the POST
    raising, an HTTP error status, a body that is not JSON or not of the
    expected shape) ends in a returned verdict.  The only exception
    that the handlers would let through is a bare [json.JSONDecodeError]
    raised by the POST itself, which [requests] never does. *)
Lemma model_call_failures_are_mapped env log_details config api_key :
  (forall w, exists digest,
      fst (llm_analyzer.preprocess_logs log_details
             (get (max_log_details_for_llm (get (llm config) empty_llm)) 20%Z) w)
      = Return digest) ->
  (forall e, requests_post env = Raise e ->
             isinstance e "json.JSONDecodeError" = true ->
             isinstance e "requests.exceptions.RequestException" = true) ->
  forall w, exists verdict,
    fst (llm_analyzer.analyze_logs_with_llm env log_details config api_key w)
    = Return verdict.
Proof.
  intros Hdigest Hpost w.
  assert (HP : forall l t a, every (Log l t a)) by (intros; exact I).
  cut (hoare (extends every) never any
         (llm_analyzer.analyze_logs_with_llm env log_details config api_key)).
  { intros H. destruct (hoare_total _ _ _ H w) as [v [E _]]. exists v. exact E. }
  assert (Hpre : hoare (extends every) never any
            (llm_analyzer.preprocess_logs log_details
               (get (max_log_details_for_llm (get (llm config) empty_llm)) 20%Z))).
  { intros w1.
    destruct (preprocess_logs_extends every log_details
                (get (max_log_details_for_llm (get (llm config) empty_llm)) 20%Z)
                HP w1) as [Ht _].
    split; [exact Ht |]. destruct (Hdigest w1) as [dg E]. rewrite E. exact I. }
  unfold llm_analyzer.analyze_logs_with_llm.
  repeat
    (lazymatch goal with
     | |- hoare _ _ _ (try_except _ _) => fail
     | |- hoare _ _ _ (bind (llm_analyzer.preprocess_logs _ _) _) =>
         eapply hoare_bind with (Q1 := any);
         [hoare_side | exact Hpre | intros ? _]
     | |- _ => flow_step ltac:(fail) ltac:(exact I)
     end); hoare_trivial.
  all: eapply hoare_try_except
         with (R1 := fun e => forall e0, requests_post env = Raise e0 -> e0 = e);
    [hoare_side | |].
  all: try (unfold llm_analyzer.request_and_classify,
              llm_analyzer.raise_for_status;
            hoare_step ltac:(exact I);
            [hoare_step ltac:(exact I); exact I |];
            destruct (requests_post env) as [response | e0] eqn:Epost;
            [ eapply hoare_weaken with (R := any) (Q := any);
              [| intros e _ e1 H; discriminate | auto];
              repeat flow_step ltac:(fail) ltac:(exact I); hoare_trivial
            | eapply hoare_bind with (Q1 := fun _ => False);
              [hoare_side
              | apply hoare_lift; [hoare_side |]; intros e1 H; congruence
              | intros ? [] ] ]).
  all: intros e He; unfold except, no_more; rewrite isinstance_Exception;
    destruct (isinstance e "requests.exceptions.Timeout") eqn:E1;
      [repeat flow_step ltac:(fail) ltac:(exact I); hoare_trivial |];
    destruct (isinstance e "requests.exceptions.ConnectionError") eqn:E2;
      [repeat flow_step ltac:(fail) ltac:(exact I); hoare_trivial |];
    destruct (isinstance e "requests.exceptions.RequestException") eqn:E3;
      [repeat flow_step ltac:(fail) ltac:(exact I); hoare_trivial |];
    destruct (isinstance e "json.JSONDecodeError") eqn:E4;
      [| repeat flow_step ltac:(fail) ltac:(exact I); hoare_trivial].
  all: destruct (requests_post env) as [response | e0] eqn:Epost;
    [ repeat flow_step ltac:(fail) ltac:(exact I); hoare_trivial
    | exfalso; specialize (He e0 eq_refl); subst e0;
      specialize (Hpost e eq_refl E4); congruence ].
Qed.

(* ================================================================== *)
(** * Properties of the specification *)
(* ================================================================== *)

(** ** LogMatcher *)

(** C1, as stated, fails: with both criteria lists empty the scan does
    not answer with an error.  It returns the triple [(0, [], [])], the
    very value a real scan that matched nothing returns. *)
Lemma C1_counterexample :
  fst (monitor.analyze_event_logs c1_env c1_config world0)
    = Return (0%nat, [], [])
  /\ fst (monitor.analyze_event_logs c1_env c1_config_real world0)
     = fst (monitor.analyze_event_logs c1_env c1_config world0).
Proof. split; reflexivity. Qed.

(** C1, amended: for every configuration in which both the source list
    and the event-ID list are empty, the scan is refused: the event log
    is neither opened nor read, nothing but the trace changes, and the
    function returns the zero triple [(0, [], [])]; on a Windows host
    the refusal is logged as an error. *)
Theorem C1_empty_criteria_refused_with_zero_triple :
  forall env config w,
    get (target_sources (get (event_log config) empty_event_log)) [] = [] ->
    get (target_event_ids (get (event_log config) empty_event_log)) [] = [] ->
    exists added,
      monitor.analyze_event_logs env config w
        = (Return (0%nat, [], []),
           mkWorld (db w) (conn w) (clock w) (trace w ++ added))
      /\ (forall name, ~ In (OpenEventLog name) added)
      /\ ~ In ReadEventLog added
      /\ (is_windows env = true -> win32evtlog_loaded env = true ->
          In (Log ERROR
                "분석할 이벤트 소스 또는 ID가 설정 파일에 지정되지 않았습니다." [])
             added).
Proof.
  intros env config w Hs Hi.
  unfold monitor.analyze_event_logs. rewrite Hs, Hi.
  destruct (is_windows env), (win32evtlog_loaded env); simpl;
    unfold bind, emit, logger, emit, ret; simpl;
    rewrite <- !app_assoc; simpl;
    (eexists; split; [reflexivity |]);
    (split; [intros name H; simpl in H; intuition discriminate |]);
    (split; [intros H; simpl in H; intuition discriminate |]);
    intros H1 H2; try discriminate; simpl; auto.
Qed.

Lemma C1_empty_criteria_refused_witness :
  exists added,
    monitor.analyze_event_logs c1_env c1_config world0
      = (Return (0%nat, [], []),
         mkWorld (db world0) (conn world0) (clock world0)
           (trace world0 ++ added))
    /\ (forall name, ~ In (OpenEventLog name) added)
    /\ ~ In ReadEventLog added
    /\ (is_windows c1_env = true -> win32evtlog_loaded c1_env = true ->
        In (Log ERROR
              "분석할 이벤트 소스 또는 ID가 설정 파일에 지정되지 않았습니다." [])
           added).
Proof.
  apply (C1_empty_criteria_refused_with_zero_triple c1_env c1_config world0);
    reflexivity.
Defined.

(** C2: whatever the host, the log and the configuration, the scan
    returns, and the match count it returns equals the number of
    detail lines and the number of structured records it returns.
    (This holds for every run, a fortiori for those without a
    log-access error.) *)
Theorem C2_count_equals_both_lengths :
  forall env config w,
    exists event_count matched_event_details matched_events,
      fst (monitor.analyze_event_logs env config w)
        = Return (event_count, matched_event_details, matched_events)
      /\ event_count = List.length matched_event_details
      /\ event_count = List.length matched_events.
Proof.
  intros env config w.
  destruct (analyze_event_logs_spec env config w) as [_ H].
  destruct (fst (monitor.analyze_event_logs env config w)) as [[[c d] r] | e].
  - exists c, d, r. split; [reflexivity | exact H].
  - destruct H.
Qed.

Lemma match_found_iff target_sources target_event_ids source_name event_id :
  monitor.match_found target_sources target_event_ids source_name event_id = true
  <-> In source_name target_sources \/ In event_id target_event_ids.
Proof.
  unfold monitor.match_found.
  assert (Hs : truthy_list target_sources
               && existsb (String.eqb source_name) target_sources = true
               <-> In source_name target_sources).
  { rewrite andb_true_iff, existsb_exists. split.
    - intros [_ [x [Hin Heq]]]. apply String.eqb_eq in Heq. subst; exact Hin.
    - intros Hin. split.
      + destruct target_sources; [destruct Hin | reflexivity].
      + exists source_name. split; [exact Hin | apply String.eqb_refl]. }
  assert (Hi : truthy_list target_event_ids
               && existsb (Z.eqb event_id) target_event_ids = true
               <-> In event_id target_event_ids).
  { rewrite andb_true_iff, existsb_exists. split.
    - intros [_ [x [Hin Heq]]]. apply Z.eqb_eq in Heq. subst; exact Hin.
    - intros Hin. split.
      + destruct target_event_ids; [destruct Hin | reflexivity].
      + exists event_id. split; [exact Hin | apply Z.eqb_refl]. }
  destruct (truthy_list target_sources
            && existsb (String.eqb source_name) target_sources) eqn:Es; simpl.
  - split; [intros _; left; apply Hs; reflexivity | reflexivity].
  - destruct (truthy_list target_event_ids
              && existsb (Z.eqb event_id) target_event_ids) eqn:Ei.
    + split; [intros _; right; apply Hi; reflexivity | reflexivity].
    + split; [discriminate |].
      intros [H | H]; [apply Hs in H | apply Hi in H]; discriminate.
Qed.

(** C3: a record is counted as a match if and only if its source name
    is in the configured source list or the lower 16 bits of its raw
    event ID are in the configured ID list; either membership alone
    suffices.  The loop body always returns: on a match the count
    grows by one, otherwise the accumulated result is untouched. *)
Theorem C3_match_iff_source_or_low16_id :
  forall log_name target_sources target_event_ids event acc w,
    let event_id := Z.land (EventID event) 65535 in
    let hit :=
      In (SourceName event) target_sources \/ In event_id target_event_ids in
    event_id = (EventID event mod 65536)%Z
    /\ (monitor.match_found target_sources target_event_ids
          (SourceName event) event_id = true <-> hit)
    /\ exists acc' w',
         monitor.scan_event log_name target_sources target_event_ids event
           acc w = (Return acc', w')
         /\ (hit -> fst (fst acc') = S (fst (fst acc)))
         /\ (~ hit -> acc' = acc).
Proof.
  intros log_name ts ids event acc w event_id hit.
  split; [| split].
  - unfold event_id. change 65535%Z with (Z.ones 16).
    rewrite Z.land_ones by lia. reflexivity.
  - apply match_found_iff.
  - pose proof (match_found_iff ts ids (SourceName event) event_id) as Hm.
    fold hit in Hm. unfold monitor.scan_event. fold event_id.
    destruct acc as [[c d] r].
    destruct (monitor.match_found ts ids (SourceName event) event_id).
    + assert (Hhit : hit) by (apply Hm; reflexivity).
      unfold try_except, bind, lift.
      destruct (formatted event) as [msg | e];
        (eexists; eexists; split; [reflexivity |]);
        (split; [intros _; simpl; lia | intros Hn; contradiction]).
    + exists (c, d, r), w. split; [reflexivity |].
      split; [| reflexivity].
      intros Hhit. apply Hm in Hhit. discriminate.
Qed.

(** ** LogSummarizer *)


Lemma parse_body_retains line acc w :
  re.search time_re line <> None ->
  exists p w',
    try_except (parse_line line acc)
      (except "Exception" (fun e =>
         logger DEBUG "로그 파싱 실패 (무시됨): {e}" [AExn e] ;;;
         ret (acc ++ [parse_failed line]))
       no_more) w = (Return (acc ++ [p]), w')
    /\ pl_full_log p = line
    /\ retained p.
Proof.
  intros Hline.
  destruct (re.search time_re line) as [tm |] eqn:Etm; [| congruence].
  unfold try_except, parse_line. rewrite Etm. unfold bind at 1, lift.
  destruct (datetime.strptime (re.group1 tm)) as [ts | e] eqn:Ets.
  - eexists; eexists. split; [reflexivity |]. split; [reflexivity |].
    exists tm. simpl. rewrite Etm. split; [reflexivity |].
    left. repeat split; try reflexivity. exact Ets.
  - unfold except. rewrite isinstance_Exception.
    eexists; eexists. split; [reflexivity |]. split; [reflexivity |].
    exists tm. simpl. rewrite Etm. split; [reflexivity |].
    right. split; [exists e; exact Ets | reflexivity].
Qed.

Lemma parse_loop_retains lines :
  (forall line, In line lines -> re.search time_re line <> None) ->
  forall acc w,
    exists entries w',
      for_each lines
        (fun log parsed_logs =>
           try_except (parse_line log parsed_logs)
             (except "Exception" (fun e =>
                logger DEBUG "로그 파싱 실패 (무시됨): {e}" [AExn e] ;;;
                ret (parsed_logs ++ [parse_failed log]))
              no_more))
        acc w = (Return (acc ++ entries), w')
      /\ map pl_full_log entries = lines
      /\ Forall retained entries.
Proof.
  induction lines as [| line lines IH]; intros Htime acc w.
  - exists [], w. simpl. rewrite app_nil_r. repeat split; constructor.
  - assert (Hline : re.search time_re line <> None)
      by (apply Htime; left; reflexivity).
    assert (Hrest : forall l, In l lines -> re.search time_re l <> None)
      by (intros l Hl; apply Htime; right; exact Hl).
    destruct (parse_body_retains line acc w Hline) as [p [w1 [Ep [Hp Hr]]]].
    destruct (IH Hrest (acc ++ [p]) w1) as [entries [w' [E [Hm Hf]]]].
    exists (p :: entries), w'.
    rewrite for_each_cons, Ep, E, <- app_assoc. simpl.
    split; [reflexivity |]. split; [f_equal; assumption |].
    constructor; assumption.
Qed.

Lemma insert_sorted_length x l :
  List.length (insert_sorted x l) = S (List.length l).
Proof.
  induction l as [| y l IH]; simpl; [reflexivity |].
  destruct (datetime.leb (pl_timestamp x) (pl_timestamp y)); simpl; auto.
Qed.

Lemma sorted_length l : List.length (sorted l) = List.length l.
Proof.
  induction l as [| x l IH]; simpl; [reflexivity |].
  rewrite insert_sorted_length, IH. reflexivity.
Qed.

Lemma preprocess_logs_nonempty l0 ls max_logs w :
  preprocess_logs (l0 :: ls) max_logs w =
  match parse_logs (slice_to (l0 :: ls) max_logs) w with
  | (Return parsed_logs, w') =>
      (match digest_lines (sorted parsed_logs)
               (group_logs (sorted parsed_logs)) with
       | Return result => Return (join nl result)
       | Raise e => Raise e
       end, w')
  | (Raise e, w') => (Raise e, w')
  end.
Proof.
  unfold preprocess_logs, bind, lift, ret. cbn [negb truthy_list].
  destruct (parse_logs (slice_to (l0 :: ls) max_logs) w) as [[p | e] w'];
    [| reflexivity].
  destruct (digest_lines (sorted p) (group_logs (sorted p))); reflexivity.
Qed.

(** C4, as stated, fails.  Of a window of two lines the digest counts
    one: the line without a time field is dropped, not kept.  And a
    line with a time field but without source and ID is kept under its
    own time with the label "unknown", not under the sentinel time with
    the label "parse failed". *)
Lemma C4_counterexample :
  List.length (slice_to c4_lines 20) = 2%nat
  /\ (exists digest,
        fst (preprocess_logs c4_lines 20 world0) = Return digest
        /\ str_in "- 총 로그 수: 1개" digest = true
        /\ str_in "no time stamp here" digest = false)
  /\ fst (parse_logs ["시간: 2023-05-01 12:35:10 something else"] world0)
     = Return [mkParsed "2023-05-01 12:35:10" (mkTime 2023 5 1 12 35 10)
                 "알 수 없음" "알 수 없음"
                 "시간: 2023-05-01 12:35:10 something else"].
Proof.
  split; [reflexivity |]. split.
  - eexists. split; [vm_compute; reflexivity |].
    split; vm_compute; reflexivity.
  - vm_compute. reflexivity.
Qed.

(** C4, amended: when the window [log_details[:max_logs]] is not empty
    and the time pattern is found in each of its lines, the summarizer
    retains every line of the window, in order: a line whose time text
    converts is kept with that time, and with the label "unknown" for a
    source or an ID that is not found; a line whose time text does not
    convert is kept with the sentinel epoch time and the "parse failed"
    source label.  So the total the digest reports is the number of
    lines of the window, which is [min(len, max_logs)] for
    [max_logs >= 0]. *)
Theorem C4_lines_with_time_field_all_retained :
  forall log_details max_logs w,
    let window := slice_to log_details max_logs in
    window <> [] ->
    (forall line, In line window -> re.search time_re line <> None) ->
    exists parsed_logs others,
      fst (parse_logs window w) = Return parsed_logs
      /\ map pl_full_log parsed_logs = window
      /\ Forall retained parsed_logs
      /\ fst (preprocess_logs log_details max_logs w)
         = Return (join nl
                     ("## 요약 정보"
                      :: ("- 총 로그 수: " +++ str_of_nat (List.length window)
                          +++ "개")
                      :: others))
      /\ ((0 <= max_logs)%Z ->
          List.length window
          = Nat.min (Z.to_nat max_logs) (List.length log_details)).
Proof.
  intros log_details max_logs w window Hne Htime.
  destruct (parse_loop_retains window Htime [] w)
    as [entries [w' [E [Hm Hf]]]].
  simpl in E. fold (parse_logs window) in E.
  assert (Hlen : List.length (sorted entries) = List.length window).
  { rewrite sorted_length, <- Hm, length_map. reflexivity. }
  destruct (sorted entries) as [| first others_sorted] eqn:Es.
  { destruct window; [congruence | discriminate]. }
  eexists entries, _.
  split; [rewrite E; reflexivity |].
  split; [exact Hm |]. split; [exact Hf |]. split.
  - destruct log_details as [| l0 ls].
    { exfalso. apply Hne. unfold window, slice_to.
      destruct (0 <=? max_logs)%Z; apply firstn_nil. }
    rewrite preprocess_logs_nonempty. fold window. rewrite E, Es.
    unfold digest_lines. rewrite Hlen. cbn [fst app]. reflexivity.
  - intros Hpos. unfold window, slice_to.
    destruct (0 <=? max_logs)%Z eqn:Ez; [| lia].
    apply length_firstn.
Qed.

Lemma C4_lines_with_time_field_witness :
  exists parsed_logs others,
    fst (parse_logs (slice_to c4_window 20) world0) = Return parsed_logs
    /\ map pl_full_log parsed_logs = slice_to c4_window 20
    /\ Forall retained parsed_logs
    /\ fst (preprocess_logs c4_window 20 world0)
       = Return (join nl
                   ("## 요약 정보"
                    :: ("- 총 로그 수: "
                        +++ str_of_nat (List.length (slice_to c4_window 20))
                        +++ "개")
                    :: others))
    /\ ((0 <= 20)%Z ->
        List.length (slice_to c4_window 20)
        = Nat.min (Z.to_nat 20) (List.length c4_window)).
Proof.
  apply (C4_lines_with_time_field_all_retained c4_window 20 world0).
  - discriminate.
  - intros line Hin. simpl in Hin.
    destruct Hin as [H | [H | [H | []]]]; subst line; vm_compute; discriminate.
Defined.

Lemma split_last_two {A} (l : list A) :
  (2 <= List.length l)%nat ->
  exists front a b, l = front ++ [a; b].
Proof.
  intros H.
  destruct (rev l) as [| b [| a r]] eqn:E.
  - apply (f_equal (@List.length A)) in E. rewrite length_rev in E.
    simpl in E. lia.
  - apply (f_equal (@List.length A)) in E. rewrite length_rev in E.
    simpl in E. lia.
  - exists (rev r), a, b. rewrite <- (rev_involutive l), E. simpl.
    rewrite <- app_assoc. reflexivity.
Qed.

Lemma group_display (group : string * list ParsedLog) :
  shown_in_full_or_head_and_tail group.
Proof.
  destruct group as [key logs]. unfold shown_in_full_or_head_and_tail. split.
  - intros Hn. unfold group_lines, display_logs.
    destruct (5 <? List.length logs)%nat eqn:E.
    + apply Nat.ltb_lt in E. lia.
    + reflexivity.
  - intros Hn.
    destruct logs as [| e1 [| e2 [| e3 tail]]]; simpl in Hn; try lia.
    destruct (split_last_two tail) as [middle [e4 [e5 Ht]]]; [lia |].
    exists e1, e2, e3, middle, e4, e5. subst tail.
    split; [reflexivity |]. split.
    + intros ->. simpl in Hn. lia.
    + unfold group_lines, display_logs.
      assert (E : (5 <? List.length (e1 :: e2 :: e3 :: middle ++ [e4; e5]))%nat
                  = true) by (apply Nat.ltb_lt; simpl; lia).
      rewrite E. unfold slice_last.
      replace (List.length (e1 :: e2 :: e3 :: middle ++ [e4; e5]) - 2)%nat
        with (List.length (e1 :: e2 :: e3 :: middle))
        by (simpl; rewrite length_app; simpl; lia).
      change (e1 :: e2 :: e3 :: middle ++ [e4; e5])
        with ((e1 :: e2 :: e3 :: middle) ++ [e4; e5]).
      rewrite skipn_app, skipn_all, Nat.sub_diag. reflexivity.
Qed.

(** C5: the digest of a non-empty batch is a summary of four lines
    followed by one block per (source, ID) group formed from the parsed
    lines; a group of at most five entries is shown in full, and a
    larger one as its first three and last two entries (five in all)
    under a note that gives the total of which they are shown.  An
    entry is shown as its time between brackets followed by the whole
    line it was parsed from. *)
Theorem C5_groups_in_full_or_first3_last2 :
  forall log_details max_logs w digest,
    log_details <> [] ->
    fst (preprocess_logs log_details max_logs w) = Return digest ->
    exists parsed_logs summary,
      fst (parse_logs (slice_to log_details max_logs) w) = Return parsed_logs
      /\ digest
         = join nl (summary
                    ++ flat_map group_lines (group_logs (sorted parsed_logs)))
      /\ List.length summary = 4%nat
      /\ forall group,
           In group (group_logs (sorted parsed_logs)) ->
           shown_in_full_or_head_and_tail group.
Proof.
  intros log_details max_logs w digest Hne Hd.
  destruct log_details as [| l0 ls]; [congruence |].
  rewrite preprocess_logs_nonempty in Hd.
  destruct (parse_logs (slice_to (l0 :: ls) max_logs) w) as [[p | e] w'];
    [| discriminate].
  unfold digest_lines in Hd.
  destruct (sorted p) as [| first others] eqn:Es; [discriminate |].
  cbn [fst] in Hd. apply Return_inj in Hd.
  eexists p, _. split; [reflexivity |]. rewrite Es.
  split; [symmetry; exact Hd |]. split; [reflexivity |].
  intros group _. apply group_display.
Qed.

(** The grouping scenario of the specification: six lines of (SrcA, 1)
    and two of (SrcB, 2).  The two entries of SrcB are printed, and of
    SrcA the entries of seconds 1, 2, 4 and then 6, 8, under the note. *)
Lemma C5_groups_witness :
  exists parsed_logs summary,
    fst (parse_logs (slice_to c5_lines 20) world0) = Return parsed_logs
    /\ c5_digest
       = join nl (summary
                  ++ flat_map group_lines (group_logs (sorted parsed_logs)))
    /\ List.length summary = 4%nat
    /\ (forall group,
          In group (group_logs (sorted parsed_logs)) ->
          shown_in_full_or_head_and_tail group)
    /\ flat_map group_lines (group_logs (sorted parsed_logs))
       = ["## SrcA (ID: 1) - 6건";
          "전체 6건 중 처음 3건과 마지막 2건만 표시합니다.";
          "[2023-05-01 12:00:01] " +++ c5_line "SrcA" 1 1;
          "[2023-05-01 12:00:02] " +++ c5_line "SrcA" 1 2;
          "[2023-05-01 12:00:04] " +++ c5_line "SrcA" 1 4;
          "[2023-05-01 12:00:06] " +++ c5_line "SrcA" 1 6;
          "[2023-05-01 12:00:08] " +++ c5_line "SrcA" 1 8;
          "";
          "## SrcB (ID: 2) - 2건";
          "[2023-05-01 12:00:03] " +++ c5_line "SrcB" 2 3;
          "[2023-05-01 12:00:07] " +++ c5_line "SrcB" 2 7;
          ""].
Proof.
  destruct (C5_groups_in_full_or_first3_last2 c5_lines 20 world0 c5_digest)
    as [parsed_logs [summary [Hparsed [Hdigest [Hsummary Hgroups]]]]].
  - discriminate.
  - vm_compute. reflexivity.
  - exists parsed_logs, summary.
    split; [exact Hparsed |]. split; [exact Hdigest |].
    split; [exact Hsummary |]. split; [exact Hgroups |].
    vm_compute in Hparsed. injection Hparsed as <-. vm_compute. reflexivity.
Defined.

(** The whole digest of that scenario. *)
Example c5_digest_text :
  c5_digest =
  join nl
    ["## 요약 정보";
     "- 총 로그 수: 8개";
     "- 시간 범위: 2023-05-01 12:00:01 ~ 2023-05-01 12:00:08";
     "- 이벤트 소스 유형: 2개";
     "";
     "## SrcA (ID: 1) - 6건";
     "전체 6건 중 처음 3건과 마지막 2건만 표시합니다.";
     "[2023-05-01 12:00:01] " +++ c5_line "SrcA" 1 1;
     "[2023-05-01 12:00:02] " +++ c5_line "SrcA" 1 2;
     "[2023-05-01 12:00:04] " +++ c5_line "SrcA" 1 4;
     "[2023-05-01 12:00:06] " +++ c5_line "SrcA" 1 6;
     "[2023-05-01 12:00:08] " +++ c5_line "SrcA" 1 8;
     "";
     "## SrcB (ID: 2) - 2건";
     "[2023-05-01 12:00:03] " +++ c5_line "SrcB" 2 3;
     "[2023-05-01 12:00:07] " +++ c5_line "SrcB" 2 7;
     ""].
Proof. vm_compute. reflexivity. Qed.

(** ** AnalysisClient and the back-fill of the verdict *)

Lemma lower_char_idempotent c : lower_char (lower_char c) = lower_char c.
Proof. destruct c as [[] [] [] [] [] [] [] []]; reflexivity. Qed.

Lemma prefix_of_lowered keyword : forall s,
  prefix keyword (lower s) = true -> lower keyword = keyword.
Proof.
  induction keyword as [| c keyword IH]; intros s H; [reflexivity |].
  destruct s as [| d s]; simpl in H; [discriminate |].
  destruct (ascii_dec c (lower_char d)) as [-> |]; [| discriminate].
  simpl. rewrite lower_char_idempotent. f_equal. apply (IH s H).
Qed.

(** The test [keyword in content.lower()] can only succeed for a
    keyword that is already in lower case. *)
Lemma keyword_found_only_if_lowercase keyword : forall content,
  str_in keyword (lower content) = true -> lower keyword = keyword.
Proof.
  induction content as [| c content IH]; simpl; intros H.
  - destruct keyword; [reflexivity | discriminate].
  - apply orb_true_iff in H. destruct H as [H | H].
    + apply (prefix_of_lowered keyword (String c content)). exact H.
    + apply IH. exact H.
Qed.

(** For keywords written in lower case the classification is the
    case-insensitive search the specification describes. *)
Lemma classification_exact_for_lowercase_keywords content keywords :
  Forall (fun keyword => lower keyword = keyword) keywords ->
  any_keyword_in (JStr content) keywords
  = Return (existsb (fun keyword => str_in (lower keyword) (lower content))
              keywords).
Proof.
  induction 1 as [| keyword keywords Hk _ IH]; simpl; [reflexivity |].
  rewrite Hk. destruct (str_in keyword (lower content)); [reflexivity |].
  exact IH.
Qed.

(** C6 does not hold of the code, in two ways.  (1) The answer is
    lowered but the configured keyword is not: the keyword
    ["Disconnect"] occurs in the answer, yet the answer is classified
    normal and the stored record keeps [abnormal = 0].  (2) The flag of
    the records is not the classification: it is set when the marker
    of an abnormal verdict occurs anywhere in the returned text, so an
    answer without any keyword that quotes the marker flags every
    record. *)
Theorem C6_classification_diverges :
  str_in (lower "Disconnect") (lower c6_content) = true
  /\ fst (analyze_logs_with_llm c6_env sample_lines c6_config (Some "secret") world0)
     = Return ("정상 범위 추정: " +++ c6_content)
  /\ map er_abnormal_flag
       (events_tbl (db (snd (monitor.run_monitor c6_env c6_config world0))))
     = [0%Z]
  /\ existsb (fun keyword => str_in (lower keyword) (lower c6b_content))
       ["disconnect"] = false
  /\ map (fun r => (er_llm_analysis r, er_abnormal_flag r))
       (events_tbl (db (snd (monitor.run_monitor c6b_env sample_config world0))))
     = [("정상 범위 추정: " +++ c6b_content, 1%Z)].
Proof. repeat split; vm_compute; reflexivity. Qed.

(** ** ScanOrchestrator *)

(** C7: with escalation enabled and a credential present, a run whose
    scan yields [event_count] matches invokes the analysis client if
    and only if [event_count >= threshold]; in particular it does at
    [event_count = threshold] and does not at
    [event_count = threshold - 1]. *)
Theorem C7_escalates_exactly_from_threshold :
  forall env config w key event_count details records,
    get (enabled (get (llm config) empty_llm)) true = true ->
    load_dotenv env = None ->
    getenv_GROK_API_KEY env = Some key -> key <> "" ->
    fst (monitor.analyze_event_logs env config w)
      = Return (event_count, details, records) ->
    ~ In (Call "analyze_logs_with_llm") (trace w) ->
    let threshold := get (check_threshold (get (llm config) empty_llm)) 5%Z in
    let invoked :=
      In (Call "analyze_logs_with_llm")
         (trace (snd (monitor.run_monitor env config w))) in
    (invoked <-> (threshold <= Z.of_nat event_count)%Z)
    /\ (Z.of_nat event_count = threshold -> invoked)
    /\ (Z.of_nat event_count = (threshold - 1)%Z -> ~ invoked).
Proof.
  intros env config w key c d r Hen Hd Hk Hne Hscan Hfresh threshold invoked.
  assert (Hiff : invoked <-> (threshold <= Z.of_nat c)%Z).
  { unfold invoked.
    destruct (run_reaches_third_stage env config w key (c, d, r) Hd Hk Hne
                Hscan w) as [[sid hw] [w1 [_ [[l1 [E1 F1]] E]]]].
    rewrite E. cbn [fst snd]. split.
    - intros Hin.
      destruct (Z_lt_le_dec (Z.of_nat c) threshold) as [Hlt | Hge];
        [| exact Hge].
      exfalso.
      destruct (llm_stage_below_threshold env config (Some key) sid hw c d r
                  Hlt w1) as [[l2 [E2 F2]] _].
      rewrite E2, E1 in Hin.
      apply in_app_or in Hin. destruct Hin as [Hin | Hin].
      + apply in_app_or in Hin. destruct Hin as [Hin | Hin];
          [exact (Hfresh Hin) |].
        rewrite Forall_forall in F1. exact (F1 _ Hin eq_refl).
      + rewrite Forall_forall in F2. exact (F2 _ Hin eq_refl).
    - intros Hge.
      apply (llm_stage_escalates env config key sid hw c d r Hen Hne Hge). }
  split; [exact Hiff |]. split.
  - intros Heq. apply Hiff. lia.
  - intros Heq Hin. apply Hiff in Hin. lia.
Qed.

Lemma C7_escalates_at_threshold_witness :
  (In (Call "analyze_logs_with_llm")
      (trace (snd (monitor.run_monitor c7_env (c7_config 3) world0)))
   <-> (3 <= Z.of_nat 3)%Z)
  /\ (Z.of_nat 3 = 3%Z ->
      In (Call "analyze_logs_with_llm")
         (trace (snd (monitor.run_monitor c7_env (c7_config 3) world0))))
  /\ (Z.of_nat 3 = (3 - 1)%Z ->
      ~ In (Call "analyze_logs_with_llm")
          (trace (snd (monitor.run_monitor c7_env (c7_config 3) world0)))).
Proof.
  apply (C7_escalates_exactly_from_threshold c7_env (c7_config 3) world0
           "secret" 3%nat (snd (fst c7_scan)) (snd c7_scan)).
  - reflexivity.
  - reflexivity.
  - reflexivity.
  - discriminate.
  - vm_compute. reflexivity.
  - simpl. tauto.
Defined.

(** The boundary on a concrete log of three matches: the client is
    called with threshold 3 and is not with threshold 4. *)
Example c7_boundary :
  existsb (fun e => match e with
                    | Call "analyze_logs_with_llm" => true
                    | _ => false
                    end)
    (trace (snd (monitor.run_monitor c7_env (c7_config 3) world0))) = true
  /\ existsb (fun e => match e with
                       | Call "analyze_logs_with_llm" => true
                       | _ => false
                       end)
       (trace (snd (monitor.run_monitor c7_env (c7_config 4) world0))) = false.
Proof. split; vm_compute; reflexivity. Qed.

(** ** Persistence boundary *)










(** ** AnalysisClient: what escapes *)

(** C9 does not hold of the code: the digest is built before the [try]
    block, and [preprocess_logs] indexes the sorted entries without
    checking that any line was kept.  With
    [max_log_details_for_llm = 0] (or with a batch in which no line
    carries a time field) it raises [IndexError]; the exception leaves
    [analyze_logs_with_llm] and then [run_monitor]. *)
Theorem C9_index_error_escapes :
  fst (analyze_logs_with_llm c9_env sample_lines c9_config (Some "secret") world0)
  = Raise IndexError
  /\ fst (monitor.run_monitor c9_env c9_config world0) = Raise IndexError
  /\ fst (analyze_logs_with_llm c9_env ["no time stamp here"] sample_config
            (Some "secret") world0)
     = Raise IndexError.
Proof. repeat split; vm_compute; reflexivity. Qed.

(** The digest does not depend on the world it is built in. *)
Lemma preprocess_logs_same log_details max_logs w w' :
  fst (preprocess_logs log_details max_logs w)
  = fst (preprocess_logs log_details max_logs w').
Proof.
  assert (H : pure_log (preprocess_logs log_details max_logs)).
  { unfold preprocess_logs, parse_logs, parse_line. repeat pure_step. }
  destruct H as [r [l H]]. rewrite !H. reflexivity.
Qed.

(** The mapping of the model call's own failures is as C9 says: on the
    batch of [sample_lines], whatever the POST does, a verdict comes back. *)
Example c9_call_failures_return post :
  (forall e, post = Raise e ->
             isinstance e "json.JSONDecodeError" = true ->
             isinstance e "requests.exceptions.RequestException" = true) ->
  exists verdict,
    fst (analyze_logs_with_llm
           (scenario [] post no_fault) sample_lines sample_config
           (Some "secret") world0)
    = Return verdict.
Proof.
  intros Hpost.
  apply (model_call_failures_are_mapped (scenario [] post no_fault) sample_lines
           sample_config (Some "secret")); [| exact Hpost].
  intros w. rewrite (preprocess_logs_same _ _ w world0).
  eexists. vm_compute. reflexivity.
Qed.

(* ================================================================== *)
(** * Further properties of the code *)
(* ================================================================== *)

(** ** The scan as a function of the log *)

Lemma scan_event_run ln ts ids event acc w :
  exists w',
    monitor.scan_event ln ts ids event acc w
    = (Return (add_hits ts ids acc [event]), w').
Proof.
  destruct acc as [[c d] r].
  unfold monitor.scan_event, add_hits, is_match. cbn [filter].
  destruct (monitor.match_found ts ids (SourceName event)
              (Z.land (EventID event) 65535)) eqn:E;
    cbn [List.length map].
  - unfold try_except, bind, lift, detail_of, event_dict, message_of.
    destruct (formatted event) as [msg | e].
    + eexists. reflexivity.
    + unfold except. rewrite isinstance_Exception.
      eexists. reflexivity.
  - exists w. rewrite Nat.add_0_r, !app_nil_r. reflexivity.
Qed.

Lemma add_hits_app ts ids acc l1 l2 :
  add_hits ts ids (add_hits ts ids acc l1) l2 = add_hits ts ids acc (l1 ++ l2).
Proof.
  destruct acc as [[c d] r]. unfold add_hits.
  rewrite filter_app, length_app, !map_app, !app_assoc, Nat.add_assoc.
  reflexivity.
Qed.

Lemma add_hits_nil ts ids acc : add_hits ts ids acc [] = acc.
Proof.
  destruct acc as [[c d] r]. unfold add_hits. simpl.
  rewrite Nat.add_0_r, !app_nil_r. reflexivity.
Qed.

Lemma for_each_scan ln ts ids events :
  forall acc w,
    exists w',
      for_each events (monitor.scan_event ln ts ids) acc w
      = (Return (add_hits ts ids acc events), w').
Proof.
  induction events as [| event events IH]; intros acc w.
  - exists w. simpl. rewrite add_hits_nil. reflexivity.
  - rewrite for_each_cons.
    destruct (scan_event_run ln ts ids event acc w) as [w1 E1]. rewrite E1.
    destruct (IH (add_hits ts ids acc [event]) w1) as [w' E]. rewrite E.
    exists w'. rewrite add_hits_app. reflexivity.
Qed.

Lemma read_loop_run ln ts ids max reads :
  forall total acc w,
    exists w',
      monitor.read_loop ln ts ids max reads total acc w
      = (match reading max reads total with
         | Return seen =>
             Return ((total + Z.of_nat (List.length seen))%Z,
                     add_hits ts ids acc seen)
         | Raise e => Raise e
         end, w').
Proof.
  induction reads as [| read later IH]; intros total acc w.
  - unfold reading. cbn [read_failure log_records]. rewrite firstn_nil.
    cbn [List.length]. rewrite add_hits_nil, Z.add_0_r. simpl monitor.read_loop.
    destruct (total <? max)%Z; eexists; reflexivity.
  - simpl monitor.read_loop. unfold reading.
    destruct (total <? max)%Z eqn:Elt.
    2:{ apply Z.ltb_ge in Elt.
        replace (Z.to_nat (max - total)) with 0%nat by lia.
        assert (H0 : forall k, (k <? 0)%nat = false)
          by (intros k; apply Nat.ltb_ge; lia).
        rewrite H0. cbn [firstn].
        exists w.
        destruct (read_failure (read :: later)); cbn [List.length];
          rewrite add_hits_nil, Z.add_0_r; reflexivity. }
    apply Z.ltb_lt in Elt.
    destruct read as [[| event events] | e].
    + cbn [read_failure log_records]. rewrite firstn_nil. cbn [List.length].
      rewrite add_hits_nil, Z.add_0_r. eexists. reflexivity.
    + cbn [read_failure log_records].
      set (batch := event :: events).
      set (n := Z.min (Z.of_nat (List.length batch)) (max - total)).
      unfold bind at 1. unfold emit at 1. unfold bind at 1.
      match goal with
      | |- context [for_each ?l _ acc ?w0] =>
          destruct (for_each_scan ln ts ids l acc w0) as [w1 E1]
      end.
      rewrite E1.
      destruct (total + n >=? max)%Z eqn:Ege.
      * (* the bound is reached inside this batch *)
        assert (Hn : n = (max - total)%Z) by (unfold n in *; lia).
        assert (Hlen : (Z.to_nat (max - total) <= List.length batch)%nat)
          by (unfold n in Hn; lia).
        rewrite Hn.
        assert (Hfirst : firstn (Z.to_nat (max - total)) (batch ++ log_records later)
                         = firstn (Z.to_nat (max - total)) batch).
        { rewrite firstn_app.
          replace (Z.to_nat (max - total) - List.length batch)%nat with 0%nat
            by lia.
          cbn [firstn]. apply app_nil_r. }
        rewrite Hfirst.
        assert (Hnot : (List.length (batch ++ log_records later)
                        <? Z.to_nat (max - total))%nat = false).
        { apply Nat.ltb_ge. rewrite length_app. lia. }
        rewrite Hnot.
        assert (Hl : Z.of_nat (List.length (firstn (Z.to_nat (max - total)) batch))
                     = (max - total)%Z).
        { rewrite length_firstn. lia. }
        eexists. unfold bind, logger, emit, ret.
        destruct (read_failure later); rewrite Hl;
          (replace (total + (max - total))%Z with max by lia); reflexivity.
      * (* the whole batch is examined and the loop goes on *)
        assert (Hn : n = Z.of_nat (List.length batch)) by (unfold n in *; lia).
        assert (Hlen : (List.length batch < Z.to_nat (max - total))%nat)
          by (unfold n in Hn; lia).
        rewrite Hn, Nat2Z.id, firstn_all in *.
        destruct (IH (total + Z.of_nat (List.length batch))%Z
                    (add_hits ts ids acc batch) w1) as [w' E].
        rewrite E. exists w'. f_equal. unfold reading.
        replace (Z.to_nat (max - (total + Z.of_nat (List.length batch))))
          with (Z.to_nat (max - total) - List.length batch)%nat by lia.
        rewrite firstn_app.
        rewrite (firstn_all2 (n := Z.to_nat (max - total)) batch) by lia.
        rewrite length_app.
        assert (Hltb : forall k,
                   (List.length batch + k <? Z.to_nat (max - total))%nat
                   = (k <? Z.to_nat (max - total) - List.length batch)%nat).
        { intros k.
          destruct (k <? Z.to_nat (max - total) - List.length batch)%nat eqn:Ek.
          - apply Nat.ltb_lt in Ek. apply Nat.ltb_lt. lia.
          - apply Nat.ltb_ge in Ek. apply Nat.ltb_ge. lia. }
        rewrite Hltb.
        destruct (read_failure later) as [e |];
          [destruct (List.length (log_records later)
                     <? Z.to_nat (max - total) - List.length batch)%nat |];
          rewrite ?add_hits_app, ?length_app, ?Nat2Z.inj_add, ?Z.add_assoc;
          reflexivity.
    + cbn [read_failure log_records]. rewrite firstn_nil. cbn [List.length].
      destruct (isinstance e "pywintypes.error" && (exn_winerror e =? 18)%Z).
      * rewrite add_hits_nil, Z.add_0_r. eexists. reflexivity.
      * assert (H0 : (0 <? Z.to_nat (max - total))%nat = true)
          by (apply Nat.ltb_lt; lia).
        rewrite H0. eexists. reflexivity.
Qed.

Lemma bind_returns {A B} (m : M A) (k : A -> M B) w a w1 :
  m w = (Return a, w1) -> bind m k w = k a w1.
Proof. intros E. unfold bind. rewrite E. reflexivity. Qed.

Lemma bind_raises {A B} (m : M A) (k : A -> M B) w e w1 :
  m w = (Raise e, w1) -> bind m k w = (Raise e, w1).
Proof. intros E. unfold bind. rewrite E. reflexivity. Qed.

Lemma try_finally_fst {A} (m : M A) (f : M unit) w :
  (forall w1, exists w2, f w1 = (Return tt, w2)) ->
  fst (try_finally m f w) = fst (m w).
Proof.
  intros Hf. unfold try_finally. destruct (m w) as [r w1].
  destruct (Hf w1) as [w2 E]. rewrite E. reflexivity.
Qed.

(** The finalizer of the scan never raises. *)
Lemma close_handle_returns env w :
  exists w',
    match open_event_log env with
    | Return _ =>
        try_except
          (emit CloseEventLog ;;;
           match close_event_log env with
           | Some close_err => raise close_err
           | None => ret tt
           end)
          (except "Exception" (fun close_err =>
             logger ERROR "이벤트 로그 핸들 닫기 오류: {close_err}"
               [AExn close_err])
           no_more)
    | Raise _ => ret tt
    end w = (Return tt, w').
Proof.
  destruct (open_event_log env); [| eexists; reflexivity].
  unfold try_except, bind, emit, except, raise, ret, logger, emit.
  destruct (close_event_log env); eexists; reflexivity.
Qed.

(** The result of the scan, in every case. *)
Lemma analyze_event_logs_run env config w :
  fst (monitor.analyze_event_logs env config w)
  = Return
      (if scan_enabled env config then
         match open_event_log env,
               reading (max_events_of config) (read_event_log env) 0 with
         | Return _, Return seen =>
             scan_result
               (filter (is_match (sources_of config) (event_ids_of config)) seen)
         | _, _ => (0%nat, [], [])
         end
       else (0%nat, [], [])).
Proof.
  unfold monitor.analyze_event_logs, scan_enabled.
  fold (max_events_of config) (sources_of config) (event_ids_of config).
  destruct (is_windows env); [| reflexivity].
  destruct (win32evtlog_loaded env); [| reflexivity].
  cbn [negb orb andb].
  unfold bind at 1. unfold emit at 1.
  unfold bind at 1. unfold logger at 1. unfold emit at 1.
  unfold bind at 1. unfold logger at 1. unfold emit at 1.
  assert (Eb : negb (truthy_list (sources_of config))
               && negb (truthy_list (event_ids_of config))
               = negb (truthy_list (sources_of config)
                       || truthy_list (event_ids_of config)))
    by (destruct (truthy_list (sources_of config)),
                 (truthy_list (event_ids_of config)); reflexivity).
  rewrite Eb.
  destruct (truthy_list (sources_of config)
            || truthy_list (event_ids_of config)); cbn [negb];
    [| reflexivity].
  rewrite try_finally_fst by (intros w1; apply close_handle_returns).
  unfold try_except. unfold bind at 1. unfold emit at 1.
  unfold bind at 1. unfold lift at 1.
  destruct (open_event_log env) as [[] | e].
  - match goal with
    | |- context [bind (monitor.read_loop ?ln ?ts ?ids ?mx ?rs ?t ?acc) ?k ?w0] =>
        destruct (read_loop_run ln ts ids mx rs t acc w0) as [w1 E]
    end.
    destruct (reading (max_events_of config) (read_event_log env) 0)
      as [seen | e].
    + rewrite (bind_returns _ _ _ _ _ E). reflexivity.
    + rewrite (bind_raises _ _ _ _ _ E).
      unfold except. rewrite isinstance_Exception.
      destruct (isinstance e "pywintypes.error"); reflexivity.
  - unfold except. rewrite isinstance_Exception.
    destruct (isinstance e "pywintypes.error"); reflexivity.
Qed.

(** X1: when the log opens and no read fails before the bound is
    reached, the scan examines the first [max_events_to_read] records
    of the log, in the order of reading and across the batches (all of
    them if the log is shorter), and returns exactly the matching
    ones: their number, one detail line for each and one dictionary for
    each, in that order. *)
Theorem scan_returns_the_matches_among_the_first_records :
  forall env config w,
    scan_enabled env config = true ->
    open_event_log env = Return tt ->
    read_failure (read_event_log env) = None
    \/ (Z.to_nat (max_events_of config)
        <= List.length (log_records (read_event_log env)))%nat ->
    let hits :=
      filter (is_match (sources_of config) (event_ids_of config))
        (examined (max_events_of config) (read_event_log env)) in
    fst (monitor.analyze_event_logs env config w)
    = Return (List.length hits, map detail_of hits, map event_dict hits).
Proof.
  intros env config w Hen Hopen Hread hits.
  rewrite analyze_event_logs_run, Hen, Hopen. unfold reading.
  rewrite Z.sub_0_r. fold (examined (max_events_of config) (read_event_log env)).
  destruct Hread as [Hnone | Hbound].
  - rewrite Hnone. reflexivity.
  - apply Nat.ltb_ge in Hbound. rewrite Hbound.
    destruct (read_failure (read_event_log env)); reflexivity.
Qed.

Lemma scan_returns_the_matches_witness :
  let hits :=
    filter (is_match (sources_of (bounded_config 3))
              (event_ids_of (bounded_config 3)))
      (examined (max_events_of (bounded_config 3))
         (read_event_log two_batch_env)) in
  hits = [record_of "DriverX" 1 58; record_of "DriverX" 1 56]
  /\ fst (monitor.analyze_event_logs two_batch_env (bounded_config 3) world0)
     = Return (List.length hits, map detail_of hits, map event_dict hits).
Proof.
  split; [reflexivity |].
  apply (scan_returns_the_matches_among_the_first_records two_batch_env
           (bounded_config 3) world0).
  - reflexivity.
  - reflexivity.
  - right. simpl. lia.
Defined.

Lemma land_16_bits z : (0 <= Z.land z 65535 < 65536)%Z.
Proof.
  change 65535%Z with (Z.ones 16). rewrite Z.land_ones by lia.
  apply Z.mod_pos_bound. reflexivity.
Qed.

(** X2: whatever the host and the log, the scan returns at most
    [max_events_to_read] matches; every record it returns carries the
    six keys, an event ID between 0 and 65535, an empty analysis and
    the flag [abnormal] unset. *)
Theorem scan_result_within_bounds :
  forall env config w,
    exists event_count details records,
      fst (monitor.analyze_event_logs env config w)
      = Return (event_count, details, records)
      /\ (event_count <= Z.to_nat (max_events_of config))%nat
      /\ Forall (fun record =>
                   exists timestamp source_name event_id message,
                     record = mkEvent (Some timestamp) (Some source_name)
                                (Some event_id) (Some message) (Some "")
                                (Some false)
                     /\ (0 <= event_id < 65536)%Z)
                records.
Proof.
  intros env config w. rewrite analyze_event_logs_run.
  assert (Hzero : exists event_count details records,
             Return (A := monitor.ScanResult) (0%nat, [], [])
             = Return (event_count, details, records)
             /\ (event_count <= Z.to_nat (max_events_of config))%nat
             /\ Forall (fun record =>
                          exists timestamp source_name event_id message,
                            record = mkEvent (Some timestamp) (Some source_name)
                                       (Some event_id) (Some message) (Some "")
                                       (Some false)
                            /\ (0 <= event_id < 65536)%Z)
                       records).
  { exists 0%nat, [], []. split; [reflexivity |]. split; [lia | constructor]. }
  destruct (scan_enabled env config); [| exact Hzero].
  destruct (open_event_log env); [| exact Hzero].
  destruct (reading (max_events_of config) (read_event_log env) 0)
    as [seen | e] eqn:Er; [| exact Hzero].
  assert (Hseen : (List.length seen <= Z.to_nat (max_events_of config))%nat).
  { unfold reading in Er. rewrite Z.sub_0_r in Er.
    assert (seen = firstn (Z.to_nat (max_events_of config))
                     (log_records (read_event_log env))).
    { destruct (read_failure (read_event_log env));
        [destruct (_ <? _)%nat; [discriminate |] |];
        injection Er as <-; reflexivity. }
    subst seen. rewrite length_firstn. lia. }
  eexists _, _, _. split; [reflexivity |]. split.
  - pose proof (filter_length_le
                  (is_match (sources_of config) (event_ids_of config)) seen).
    lia.
  - apply Forall_forall. intros record Hin. apply in_map_iff in Hin.
    destruct Hin as [event [<- _]].
    eexists _, _, _, _. split; [reflexivity | apply land_16_bits].
Qed.

(** X3: a read that fails (other than with the end of the log) before
    the bound is reached makes the scan return the zero triple: the
    matches found in the records read so far are discarded. *)
Theorem scan_read_error_discards_the_matches :
  forall env config w e,
    read_failure (read_event_log env) = Some e ->
    (List.length (log_records (read_event_log env))
     < Z.to_nat (max_events_of config))%nat ->
    fst (monitor.analyze_event_logs env config w) = Return (0%nat, [], []).
Proof.
  intros env config w e Hfail Hlen. rewrite analyze_event_logs_run.
  unfold reading. rewrite Z.sub_0_r, Hfail.
  apply Nat.ltb_lt in Hlen. rewrite Hlen.
  destruct (scan_enabled env config), (open_event_log env); reflexivity.
Qed.

Lemma scan_read_error_witness :
  filter (is_match ["DriverX"] []) (log_records two_batches)
  = [record_of "DriverX" 1 58; record_of "DriverX" 1 56; record_of "DriverX" 1 55]
  /\ fst (monitor.analyze_event_logs two_batch_env (bounded_config 1000) world0)
     = Return (0%nat, [], []).
Proof.
  split; [reflexivity |].
  apply (scan_read_error_discards_the_matches two_batch_env
           (bounded_config 1000) world0 access_denied).
  - reflexivity.
  - simpl. lia.
Defined.

Lemma scan_event_reading ln ts ids event acc :
  hoare (only_logs reading_effect) never any
    (monitor.scan_event ln ts ids event acc).
Proof.
  unfold monitor.scan_event. destruct acc as [[c d] r].
  repeat hoare_step ltac:(exact I); hoare_trivial.
Qed.

Lemma read_loop_reading ln ts ids max reads :
  forall total acc,
    hoare (only_logs reading_effect) any any
      (monitor.read_loop ln ts ids max reads total acc).
Proof.
  induction reads as [| r reads IH]; intros total acc; simpl.
  - repeat hoare_step ltac:(exact I); hoare_trivial.
  - hoare_step ltac:(exact I).
    2:{ hoare_step ltac:(exact I). exact I. }
    hoare_step ltac:(exact I). { hoare_step ltac:(exact I). exact I. }
    destruct r as [events | e].
    + destruct events as [| ev events].
      * repeat hoare_step ltac:(exact I); hoare_trivial.
      * eapply hoare_bind with (Q1 := any); [hoare_side | |].
        -- apply hoare_for_each; [hoare_side | hoare_side | | exact I].
           intros x acc0 _ _.
           eapply hoare_weaken; [apply scan_event_reading | | auto].
           intros e [].
        -- intros acc' _.
           hoare_step ltac:(exact I).
           ++ repeat hoare_step ltac:(exact I); hoare_trivial.
           ++ apply IH.
    + repeat hoare_step ltac:(exact I); hoare_trivial.
Qed.

(** X4: the scan closes the event log exactly once, as its last
    action on the log, whenever it opened it, also when a read failed,
    and never otherwise; an error of the close itself is logged and
    does not leave the function. *)
Theorem scan_closes_the_log_it_opened :
  forall env config w,
    exists scanning closing result,
      monitor.analyze_event_logs env config w
      = (Return result, add_trace (scanning ++ closing) w)
      /\ Forall reading_effect scanning
      /\ (forall name, In (OpenEventLog name) scanning ->
          scan_enabled env config = true)
      /\ closing
         = if scan_enabled env config then
             match open_event_log env with
             | Return _ =>
                 CloseEventLog
                 :: match close_event_log env with
                    | Some close_err =>
                        [Log ERROR "이벤트 로그 핸들 닫기 오류: {close_err}"
                           [AExn close_err]]
                    | None => []
                    end
             | Raise _ => []
             end
           else [].
Proof.
  intros env config w.
  assert (Hres : exists result,
             fst (monitor.analyze_event_logs env config w) = Return result)
    by (rewrite analyze_event_logs_run; eexists; reflexivity).
  destruct Hres as [result Hres]. 
  cut (exists scanning closing,
         snd (monitor.analyze_event_logs env config w)
         = add_trace (scanning ++ closing) w
         /\ Forall reading_effect scanning
         /\ (forall name, In (OpenEventLog name) scanning ->
             scan_enabled env config = true)
         /\ closing
            = if scan_enabled env config then
                match open_event_log env with
                | Return _ =>
                    CloseEventLog
                    :: match close_event_log env with
                       | Some close_err =>
                           [Log ERROR "이벤트 로그 핸들 닫기 오류: {close_err}"
                              [AExn close_err]]
                       | None => []
                       end
                | Raise _ => []
                end
              else []).
  { intros [scanning [closing [E H]]]. exists scanning, closing, result.
    split; [| exact H].
    destruct (monitor.analyze_event_logs env config w) as [o w'].
    simpl in *. subst. reflexivity. }
  assert (Hnone : forall m : M monitor.ScanResult,
             hoare (only_logs (fun e => reading_effect e
                                        /\ forall name, e <> OpenEventLog name))
               never any m ->
             exists scanning closing,
               snd (m w) = add_trace (scanning ++ closing) w
               /\ Forall reading_effect scanning
               /\ (forall name, In (OpenEventLog name) scanning ->
                   false = true)
               /\ closing = []).
  { intros m Hm. destruct (Hm w) as [[l [E F]] _].
    exists l, []. rewrite app_nil_r. rewrite Forall_forall in F.
    split; [exact E |]. split; [| split; [| reflexivity]].
    - apply Forall_forall. intros e He. apply (F e He).
    - intros name H. destruct (proj2 (F _ H) name eq_refl). }
  unfold monitor.analyze_event_logs, scan_enabled.
  fold (max_events_of config) (sources_of config) (event_ids_of config).
  destruct (is_windows env); cbn [negb orb andb].
  2:{ apply Hnone.
      repeat hoare_step ltac:(split; [simpl; auto | intros; discriminate]);
        hoare_trivial. }
  destruct (win32evtlog_loaded env); cbn [negb orb andb].
  2:{ apply Hnone.
      repeat hoare_step ltac:(split; [simpl; auto | intros; discriminate]);
        hoare_trivial. }
  assert (Eb : negb (truthy_list (sources_of config))
               && negb (truthy_list (event_ids_of config))
               = negb (truthy_list (sources_of config)
                       || truthy_list (event_ids_of config)))
    by (destruct (truthy_list (sources_of config)),
                 (truthy_list (event_ids_of config)); reflexivity).
  rewrite Eb.
  destruct (truthy_list (sources_of config)
            || truthy_list (event_ids_of config)); cbn [negb].
  2:{ apply Hnone.
      repeat hoare_step ltac:(split; [simpl; auto | intros; discriminate]);
        hoare_trivial. }
  clear Hnone.
  unfold bind at 1. unfold emit at 1.
  unfold bind at 1. unfold logger at 1. unfold emit at 1.
  unfold bind at 1. unfold logger at 1. unfold emit at 1.
  match goal with
  | |- context [try_finally ?m ?f ?w0] =>
      assert (Hm : hoare (only_logs reading_effect) never any m);
      [| destruct (Hm w0) as [[scanned [Ew Fw]] _];
         unfold try_finally; destruct (m w0) as [o w1]; cbn [snd] in Ew;
         subst w1 ]
  end.
  { hoare_step ltac:(exact I).
    - hoare_step ltac:(exact I). { hoare_step ltac:(exact I). exact I. }
      hoare_step ltac:(exact I). { hoare_step ltac:(exact I); exact I. }
      eapply hoare_bind with (Q1 := any); [hoare_side | |].
      + apply read_loop_reading.
      + intros [total [[c d] r]] _.
        repeat hoare_step ltac:(exact I); hoare_trivial.
    - repeat hoare_step ltac:(exact I); hoare_trivial.
    - repeat hoare_step ltac:(exact I); hoare_trivial. }
  eexists (_ :: _ :: _ :: scanned), _.
  split; [| split; [| split; [intros; reflexivity | reflexivity]]].
  - destruct (open_event_log env).
    + unfold try_except, bind, emit, raise, ret.
      destruct (close_event_log env) as [close_err |];
        [unfold except; rewrite isinstance_Exception; unfold logger, emit |];
        cbn [fst snd]; unfold add_trace; cbn [db conn clock trace]; f_equal;
        rewrite <- !app_assoc; reflexivity.
    + cbn [ret snd]. unfold add_trace; cbn [db conn clock trace]. f_equal.
      rewrite <- !app_assoc, app_nil_r. reflexivity.
  - repeat constructor. exact Fw.
Qed.

(** ** The hardware collectors *)

Lemma for_each_appends {A B} P (f : A -> B) (body : A -> list B -> M (list B))
  (l : list A) :
  (forall x acc,
     hoare (extends P) never (fun r => r = acc ++ [f x]) (body x acc)) ->
  forall acc,
    hoare (extends P) never (fun r => r = acc ++ map f l) (for_each l body acc).
Proof.
  intros Hb. induction l as [| x l IH]; intros acc; simpl.
  - apply hoare_ret; [apply extends_refl | rewrite app_nil_r; reflexivity].
  - eapply hoare_bind; [apply extends_trans | apply Hb |].
    intros acc' ->. eapply hoare_weaken; [apply IH | auto |].
    intros r ->. rewrite <- app_assoc. reflexivity.
Qed.

(** The optional store of a collector returns, whatever the database
    does. *)
Lemma store_if_session env (sid : option nat) hw_type template devices :
  hoare (extends every) never any
    (if truthy_session sid && truthy_list devices
     then count <- db_manager.store_hardware_info env sid hw_type devices ;;
          logger DEBUG template [ANat count]
     else ret tt).
Proof.
  destruct (truthy_session sid && truthy_list devices).
  - eapply hoare_bind with (Q1 := any); [apply extends_trans | |].
    + db_call every_db.
    + intros count _. apply hoare_emit_extends; exact I.
  - apply hoare_ret; [apply extends_refl | exact I].
Qed.

Lemma get_com_ports_run env sid w :
  fst (monitor.get_com_ports env sid w) = Return (com_found env).
Proof.
  cut (hoare (extends every) never (fun r => r = com_found env)
         (monitor.get_com_ports env sid)).
  { intros H. destruct (hoare_total _ _ _ H w) as [a [E ->]]. exact E. }
  unfold monitor.get_com_ports, com_found.
  eapply hoare_bind with (Q1 := any); [apply extends_trans | |].
  { apply hoare_emit_extends; exact I. }
  intros _ _.
  destruct (comports env) as [ports | e].
  - eapply hoare_try_except with (R1 := never);
      [apply extends_trans | | intros e []].
    eapply hoare_bind with (Q1 := any); [apply extends_trans | |].
    { apply hoare_emit_extends; exact I. }
    intros _ _.
    eapply hoare_bind with (Q1 := fun p => p = ports);
      [apply extends_trans | apply hoare_lift; [apply extends_refl | reflexivity] |].
    intros p ->.
    destruct ports as [| port ports]; cbn [truthy_list negb].
    { eapply hoare_bind with (Q1 := any); [apply extends_trans | |].
      - apply hoare_emit_extends; exact I.
      - intros _ _. apply hoare_ret; [apply extends_refl | reflexivity]. }
    eapply hoare_bind with (Q1 := any); [apply extends_trans | |].
    { apply hoare_emit_extends; exact I. }
    intros _ _.
    eapply hoare_bind; [apply extends_trans | |].
    { apply (for_each_appends every device_of_port). intros x acc.
      eapply hoare_bind with (Q1 := any); [apply extends_trans | |].
      - apply hoare_emit_extends; exact I.
      - intros _ _. apply hoare_ret; [apply extends_refl | reflexivity]. }
    intros com_devices ->.
    eapply hoare_bind with (Q1 := any); [apply extends_trans | |].
    { apply store_if_session. }
    intros _ _. apply hoare_ret; [apply extends_refl | reflexivity].
  - eapply hoare_try_except with (R1 := any) (Q := fun r => r = []);
      [apply extends_trans | |].
    + eapply hoare_bind with (Q1 := any); [apply extends_trans | |].
      { apply hoare_emit_extends; exact I. }
      intros _ _.
      eapply hoare_bind with (Q1 := fun _ => False);
        [apply extends_trans | apply hoare_lift; [apply extends_refl | exact I] |].
      intros p [].
    + intros e0 _. unfold except. rewrite isinstance_Exception.
      eapply hoare_bind with (Q1 := any); [apply extends_trans | |].
      { apply hoare_emit_extends; exact I. }
      intros _ _. apply hoare_ret; [apply extends_refl | reflexivity].
Qed.







Lemma collector_returns (P : Effect -> Prop) (found : list Device)
  (m : M (list Device)) :
  hoare (extends P) never (fun r => r = found) m ->
  forall w, fst (m w) = Return found.
Proof. intros H w. destruct (hoare_total _ _ _ H w) as [a [E ->]]. exact E. Qed.

Lemma get_cameras_windows_run env sid w :
  fst (monitor.get_cameras_windows env sid w) = Return (cameras_found env).
Proof.
  apply (collector_returns every).
  unfold monitor.get_cameras_windows, cameras_found.
  destruct (is_windows env), (wmi_loaded env); cbn [negb orb andb];
    try (eapply hoare_bind with (Q1 := any); [apply extends_trans | |];
         [apply hoare_emit_extends; exact I
         | intros _ _; apply hoare_ret; [apply extends_refl | reflexivity]]).
  eapply hoare_bind with (Q1 := any); [apply extends_trans | |].
  { apply hoare_emit_extends; exact I. }
  intros _ _.
  destruct (wmi_cameras env) as [cameras | e].
  - eapply hoare_try_except with (R1 := never);
      [apply extends_trans | | intros e []].
    eapply hoare_bind with (Q1 := any); [apply extends_trans | |].
    { apply hoare_emit_extends; exact I. }
    intros _ _.
    eapply hoare_bind with (Q1 := fun p => p = cameras);
      [apply extends_trans | apply hoare_lift; [apply extends_refl | reflexivity] |].
    intros p ->.
    destruct cameras as [| cam cameras]; cbn [truthy_list negb].
    { eapply hoare_bind with (Q1 := any); [apply extends_trans | |].
      - apply hoare_emit_extends; exact I.
      - intros _ _. apply hoare_ret; [apply extends_refl | reflexivity]. }
    eapply hoare_bind with (Q1 := any); [apply extends_trans | |].
    { apply hoare_emit_extends; exact I. }
    intros _ _.
    eapply hoare_bind; [apply extends_trans | |].
    { apply (for_each_appends every device_of_entity). intros x acc.
      eapply hoare_bind with (Q1 := any); [apply extends_trans | |].
      - apply hoare_emit_extends; exact I.
      - intros _ _. apply hoare_ret; [apply extends_refl | reflexivity]. }
    intros camera_devices ->.
    eapply hoare_bind with (Q1 := any); [apply extends_trans | |].
    { apply store_if_session. }
    intros _ _. apply hoare_ret; [apply extends_refl | reflexivity].
  - eapply hoare_try_except with (R1 := any) (Q := fun r => r = []);
      [apply extends_trans | |].
    + eapply hoare_bind with (Q1 := any); [apply extends_trans | |].
      { apply hoare_emit_extends; exact I. }
      intros _ _.
      eapply hoare_bind with (Q1 := fun _ => False);
        [apply extends_trans | apply hoare_lift; [apply extends_refl | exact I] |].
      intros p [].
    + intros e0 _. unfold except. rewrite isinstance_Exception.
      destruct (isinstance e0 "wmi.x_wmi");
        (eapply hoare_bind with (Q1 := any); [apply extends_trans | |];
         [apply hoare_emit_extends; exact I
         | intros _ _; apply hoare_ret; [apply extends_refl | reflexivity]]).
Qed.



Lemma get_usb_devices_windows_run env sid w :
  fst (monitor.get_usb_devices_windows env sid w) = Return (usb_found env).
Proof.
  apply (collector_returns every).
  unfold monitor.get_usb_devices_windows, usb_found.
  destruct (is_windows env), (wmi_loaded env); cbn [negb orb andb];
    try (eapply hoare_bind with (Q1 := any); [apply extends_trans | |];
         [apply hoare_emit_extends; exact I
         | intros _ _; apply hoare_ret; [apply extends_refl | reflexivity]]).
  eapply hoare_bind with (Q1 := any); [apply extends_trans | |].
  { apply hoare_emit_extends; exact I. }
  intros _ _.
  destruct (wmi_usb env) as [usb_devices | e].
  - eapply hoare_try_except with (R1 := never);
      [apply extends_trans | | intros e []].
    eapply hoare_bind with (Q1 := any); [apply extends_trans | |].
    { apply hoare_emit_extends; exact I. }
    intros _ _.
    eapply hoare_bind with (Q1 := fun p => p = usb_devices);
      [apply extends_trans | apply hoare_lift; [apply extends_refl | reflexivity] |].
    intros p ->.
    destruct usb_devices as [| dev usb_devices]; cbn [truthy_list negb].
    { eapply hoare_bind with (Q1 := any); [apply extends_trans | |].
      - apply hoare_emit_extends; exact I.
      - intros _ _. apply hoare_ret; [apply extends_refl | reflexivity]. }
    eapply hoare_bind with (Q1 := any); [apply extends_trans | |].
    { apply hoare_emit_extends; exact I. }
    intros _ _.
    eapply hoare_bind
      with (Q1 := fun r =>
                    r = map device_of_entity
                          (filter monitor.usb_kept (dev :: usb_devices)));
      [apply extends_trans | |].
    { destruct (filter monitor.usb_kept (dev :: usb_devices)) as [| k kept];
        cbn [truthy_list].
      - eapply hoare_bind with (Q1 := any); [apply extends_trans | |].
        + apply hoare_emit_extends; exact I.
        + intros _ _. apply hoare_ret; [apply extends_refl | reflexivity].
      - eapply hoare_bind with (Q1 := any); [apply extends_trans | |].
        + apply hoare_emit_extends; exact I.
        + intros _ _.
          apply (for_each_appends every device_of_entity). intros x acc.
          eapply hoare_bind with (Q1 := any); [apply extends_trans | |].
          * apply hoare_emit_extends; exact I.
          * intros _ _. apply hoare_ret; [apply extends_refl | reflexivity]. }
    intros usb_device_list ->.
    eapply hoare_bind with (Q1 := any); [apply extends_trans | |].
    { apply store_if_session. }
    intros _ _. apply hoare_ret; [apply extends_refl | reflexivity].
  - eapply hoare_try_except with (R1 := any) (Q := fun r => r = []);
      [apply extends_trans | |].
    + eapply hoare_bind with (Q1 := any); [apply extends_trans | |].
      { apply hoare_emit_extends; exact I. }
      intros _ _.
      eapply hoare_bind with (Q1 := fun _ => False);
        [apply extends_trans | apply hoare_lift; [apply extends_refl | exact I] |].
      intros p [].
    + intros e0 _. unfold except. rewrite isinstance_Exception.
      destruct (isinstance e0 "wmi.x_wmi");
        (eapply hoare_bind with (Q1 := any); [apply extends_trans | |];
         [apply hoare_emit_extends; exact I
         | intros _ _; apply hoare_ret; [apply extends_refl | reflexivity]]).
Qed.



(** ** Sessions and hardware rows *)

Lemma start_scan_session_run env w :
  let ok :=
    match db_path env with
    | Some _ => negb (session_error env (clock w))
    | None => false
    end in
  let id := db_manager.next_session_id (db w) in
  exists w',
    db_manager.start_scan_session env w
    = (Return (if ok then Some id else None), w')
    /\ db w'
       = (if ok
          then with_session (db w)
                 (mkSessionRow id (now_isoformat env (S (clock w))) None 0 0 0
                    None)
          else db w).
Proof.
  unfold db_manager.start_scan_session, session_error. run_db.
  destruct (db_path env) as [path |]; world;
    [| eexists; split; reflexivity].
  destruct (sql_fault env (clock w)); world;
    [eexists; split; reflexivity |].
  destruct (sql_fault env (S (S (clock w)))); world;
    [eexists; split; reflexivity |].
  cbn [binds forallb negb]. unfold db_manager.insert_session. world.
  destruct (sql_fault env (S (S (S (clock w))))); world;
    eexists; split; reflexivity.
Qed.

Lemma binds_session end_time ef hw llm (summary : option string) sid :
  binds [AStr end_time; arg_of_int ef; arg_of_int hw; arg_of_int llm;
         match summary with Some s => AStr s | None => ANone end;
         arg_of_int sid]
  = int_fits ef && int_fits hw && int_fits llm && int_fits sid.
Proof.
  unfold binds. destruct ef, hw, llm, sid, summary;
    cbn [forallb arg_of_int int_fits andb];
    repeat match goal with
           | |- context [fits_int64 ?z] => destruct (fits_int64 z)
           end;
    reflexivity.
Qed.

(** [end_scan_session], case by case: what it returns or raises, and
    what is committed. *)
Lemma end_scan_session_run env sid ef hw llm summary w :
  let bound :=
    int_fits ef && int_fits hw && int_fits llm && int_fits (get sid (Size 0)) in
  let reached :=
    match sid with
    | Some _ => update_reached env (clock w)
    | None => false
    end in
  let ok := reached && bound && negb (sql_fault env (3 + clock w)) in
  exists w',
    db_manager.end_scan_session env sid ef hw llm summary w
    = ((if reached && negb bound then Raise OverflowError else Return ok), w')
    /\ db w'
       = (if ok
          then with_session_closed (db w) (int_value (get sid (Size 0)))
                 (now_isoformat env (S (clock w))) (int_value ef)
                 (int_value hw) (int_value llm) summary
          else db w)
    /\ (sid = None -> w' = add_trace [Call "end_scan_session"] w)
    /\ (reached = true -> conn w' = None).
Proof.
  unfold db_manager.end_scan_session, update_reached.
  destruct sid as [id |].
  2:{ eexists. split; [reflexivity |]. split; [reflexivity |].
      split; [reflexivity | discriminate]. }
  cbn [get]. run_db.
  destruct (db_path env) as [path |]; world;
    [| eexists; split; [reflexivity | split; [reflexivity |
         split; discriminate]]].
  destruct (sql_fault env (clock w)); world;
    [eexists; split; [reflexivity | split; [reflexivity | split; discriminate]] |].
  destruct (sql_fault env (S (S (clock w)))); world;
    [eexists; split; [reflexivity | split; [reflexivity | split; discriminate]] |].
  rewrite binds_session.
  destruct (int_fits ef && int_fits hw && int_fits llm && int_fits id); world;
    [| eexists; split; [reflexivity | split; [reflexivity |
         split; [discriminate | reflexivity]]]].
  unfold db_manager.update_session. world.
  destruct (sql_fault env (S (S (S (clock w))))); world;
    eexists; (split; [reflexivity | split; [reflexivity |
                split; [discriminate | reflexivity]]]).
Qed.

Lemma next_session_id_fresh d :
  ~ In (db_manager.next_session_id d) (map sr_id (scan_sessions_tbl d)).
Proof.
  unfold db_manager.next_session_id. intros Hin.
  assert (H : Forall (fun k => k <= list_max (map sr_id (scan_sessions_tbl d)))%nat
                (map sr_id (scan_sessions_tbl d)))
    by (apply list_max_le; lia).
  rewrite Forall_forall in H. specialize (H _ Hin). lia.
Qed.

(** X8: [start_scan_session] never raises.  With a reachable database
    and no database error it commits one new row, open and with zero
    counts, and returns its id, which is positive (so true for the
    callers' [if session_id]) and is the id of no earlier session;
    otherwise it returns [None] and the committed rows are
    unchanged. *)
Theorem start_scan_session_all_or_nothing :
  forall env w,
    let result := db_manager.start_scan_session env w in
    let started :=
      match db_path env with
      | Some _ => negb (session_error env (clock w))
      | None => false
      end in
    (started = true ->
     exists id,
       fst result = Return (Some id)
       /\ truthy_session (Some id) = true
       /\ ~ In id (map sr_id (scan_sessions_tbl (db w)))
       /\ db (snd result)
          = with_session (db w)
              (mkSessionRow id (now_isoformat env (S (clock w))) None 0 0 0 None))
    /\ (started = false -> fst result = Return None /\ db (snd result) = db w).
Proof.
  intros env w result started.
  destruct (start_scan_session_run env w) as [w' [E Hdb]].
  fold started in E, Hdb. unfold result. rewrite E. cbn [fst snd]. split.
  - intros Hs. rewrite Hs in *. exists (db_manager.next_session_id (db w)).
    split; [reflexivity |]. split; [reflexivity |].
    split; [apply next_session_id_fresh | exact Hdb].
  - intros Hs. rewrite Hs in *. split; [reflexivity | exact Hdb].
Qed.

Lemma start_scan_session_witness :
  (exists id,
     fst (db_manager.start_scan_session plain_env world1) = Return (Some id)
     /\ truthy_session (Some id) = true
     /\ ~ In id (map sr_id (scan_sessions_tbl (db world1)))
     /\ db (snd (db_manager.start_scan_session plain_env world1))
        = with_session (db world1)
            (mkSessionRow id (now_isoformat plain_env 1) None 0 0 0 None))
  /\ (fst (db_manager.start_scan_session failing_insert_env
             (mkWorld (db world1) None 1 [])) = Return None
      /\ db (snd (db_manager.start_scan_session failing_insert_env
                    (mkWorld (db world1) None 1 []))) = db world1).
Proof.
  split.
  - apply (proj1 (start_scan_session_all_or_nothing plain_env world1)).
    reflexivity.
  - apply (proj2 (start_scan_session_all_or_nothing failing_insert_env
                    (mkWorld (db world1) None 1 []))).
    reflexivity.
Defined.










(** ** No connection is left open *)

Lemma transaction_closes {A} (m : M A) w :
  conn (snd (try_finally m db_manager.close w)) = None.
Proof.
  unfold try_finally. destruct (m w) as [r w1].
  unfold db_manager.close, db_manager.set_conn, bind, emit. reflexivity.
Qed.

Lemma get_db_connection_conn env w :
  exists w',
    (db_manager.get_db_connection env w = (Return None, w')
     /\ conn w' = conn w)
    \/ db_manager.get_db_connection env w = (Return (Some tt), w').
Proof.
  unfold db_manager.get_db_connection. run_db.
  destruct (db_path env) as [path |]; world;
    [| eexists; left; split; reflexivity].
  destruct (sql_fault env (clock w)); world.
  - eexists. left. split; reflexivity.
  - eexists. right. reflexivity.
Qed.

Lemma connection_then_closed {A} env (k : option unit -> M A) w :
  (forall w1, conn (snd (k None w1)) = conn w1) ->
  (forall w1, conn (snd (k (Some tt) w1)) = None) ->
  conn w = None ->
  conn (snd (bind (db_manager.get_db_connection env) k w)) = None.
Proof.
  intros Hnone Hsome Hw.
  destruct (get_db_connection_conn env w) as [w' [[E Hc] | E]];
    rewrite (bind_returns _ _ _ _ _ E).
  - rewrite Hnone. congruence.
  - apply Hsome.
Qed.

(** X12: the four functions that write to the database leave no
    connection open: whatever the database does, the connection they
    opened is closed when they return. *)
Theorem no_connection_is_left_open :
  forall env w,
    conn w = None ->
    conn (snd (db_manager.start_scan_session env w)) = None
    /\ (forall session_id events_found hw_devices_found llm_analysis_performed
               summary,
          conn (snd (db_manager.end_scan_session env session_id events_found
                       hw_devices_found llm_analysis_performed summary w))
          = None)
    /\ (forall session_id hw_type devices,
          conn (snd (db_manager.store_hardware_info env session_id hw_type
                       devices w)) = None)
    /\ (forall session_id events,
          conn (snd (db_manager.store_events env session_id events w)) = None).
Proof.
  intros env w Hw. split; [| split; [| split]].
  - unfold db_manager.start_scan_session. unfold bind at 1, emit at 1.
    apply connection_then_closed; [reflexivity | | exact Hw].
    intros w1. apply transaction_closes.
  - intros sid ef hw llm summary. unfold db_manager.end_scan_session.
    unfold bind at 1, emit at 1. destruct sid as [id |]; [| exact Hw].
    apply connection_then_closed; [reflexivity | | exact Hw].
    intros w1. apply transaction_closes.
  - intros sid hw_type devices. unfold db_manager.store_hardware_info.
    unfold bind at 1, emit at 1.
    destruct (negb (truthy_list devices)); [exact Hw |].
    apply connection_then_closed; [reflexivity | | exact Hw].
    intros w1. apply transaction_closes.
  - intros sid events. unfold db_manager.store_events.
    unfold bind at 1, emit at 1.
    destruct (negb (truthy_list events)); [exact Hw |].
    apply connection_then_closed; [reflexivity | | exact Hw].
    intros w1. apply transaction_closes.
Qed.

Lemma no_connection_witness :
  conn (snd (db_manager.start_scan_session failing_insert_env world0)) = None
  /\ conn (snd (db_manager.store_events failing_insert_env (Some 1%nat)
                  sample_events world0)) = None.
Proof.
  destruct (no_connection_is_left_open failing_insert_env world0 eq_refl)
    as [H1 [_ [_ H4]]].
  split; [exact H1 | apply H4].
Defined.

(** ** The groups of the digest *)

Lemma group_append_keys key log g :
  map fst (group_append key log g)
  = if existsb (String.eqb key) (map fst g) then map fst g
    else map fst g ++ [key].
Proof.
  induction g as [| [k logs] g IH]; simpl; [reflexivity |].
  rewrite (String.eqb_sym key k).
  destruct (String.eqb k key) eqn:E; simpl; [reflexivity |].
  rewrite IH. destruct (existsb (String.eqb key) (map fst g)); reflexivity.
Qed.

Lemma group_append_members key log g k logs :
  NoDup (map fst g) ->
  In (k, logs) (group_append key log g) ->
  (k <> key /\ In (k, logs) g)
  \/ (k = key /\ exists earlier, In (key, earlier) g /\ logs = earlier ++ [log])
  \/ (k = key /\ ~ In key (map fst g) /\ logs = [log]).
Proof.
  induction g as [| [k0 logs0] g IH]; simpl; intros Hnd Hin.
  - destruct Hin as [H | []]. injection H as <- <-.
    right. right. split; [reflexivity |]. split; [intros [] | reflexivity].
  - inversion Hnd as [| ? ? Hk0 Hg]; subst.
    destruct (String.eqb k0 key) eqn:E.
    + apply String.eqb_eq in E. subst k0. destruct Hin as [H | Hin].
      * injection H as <- <-. right. left. split; [reflexivity |].
        exists logs0. split; [left; reflexivity | reflexivity].
      * left. split; [| right; exact Hin].
        intros ->. apply Hk0. apply (in_map fst) in Hin. exact Hin.
    + apply String.eqb_neq in E. destruct Hin as [H | Hin].
      * injection H as <- <-. left. split; [exact E | left; reflexivity].
      * destruct (IH Hg Hin) as [[H1 H2] | [[H1 [earlier [H2 H3]]] | [H1 [H2 H3]]]].
        -- left. split; [exact H1 | right; exact H2].
        -- right. left. split; [exact H1 |]. exists earlier.
           split; [right; exact H2 | exact H3].
        -- right. right. split; [exact H1 |]. split; [| exact H3].
           intros [H | H]; [congruence | exact (H2 H)].
Qed.

Lemma existsb_eqb_In key keys :
  existsb (String.eqb key) keys = true <-> In key keys.
Proof.
  rewrite existsb_exists. split.
  - intros [x [Hin E]]. apply String.eqb_eq in E. subst. exact Hin.
  - intros H. exists key. split; [exact H | apply String.eqb_refl].
Qed.

Lemma group_append_NoDup key log g :
  NoDup (map fst g) -> NoDup (map fst (group_append key log g)).
Proof.
  intros Hnd. rewrite group_append_keys.
  destruct (existsb (String.eqb key) (map fst g)) eqn:E; [exact Hnd |].
  apply NoDup_app; [exact Hnd | constructor; [intros [] | constructor] |].
  intros k Hk [<- | []].
  apply existsb_eqb_In in Hk. congruence.
Qed.

Lemma group_append_size key log g :
  list_sum (map (fun group => List.length (snd group)) (group_append key log g))
  = S (list_sum (map (fun group => List.length (snd group)) g)).
Proof.
  induction g as [| [k logs] g IH]; simpl; [reflexivity |].
  destruct (String.eqb k key); simpl.
  - rewrite length_app. simpl. lia.
  - rewrite IH. lia.
Qed.

Lemma filter_nothing {A} (f : A -> bool) l :
  (forall x, In x l -> f x = false) -> filter f l = [].
Proof.
  induction l as [| x l IH]; intros H; [reflexivity |]. simpl.
  rewrite (H x (or_introl eq_refl)). apply IH. intros y Hy. apply H. right. exact Hy.
Qed.

(** The dictionary of groups after the entries [seen]. *)
Lemma group_logs_invariant logs :
  forall seen g,
    NoDup (map fst g) ->
    (forall k members,
       In (k, members) g ->
       members <> []
       /\ members = filter (fun log => String.eqb (group_key log) k) seen) ->
    (forall log, In log seen -> In (group_key log) (map fst g)) ->
    list_sum (map (fun group => List.length (snd group)) g) = List.length seen ->
    let g' :=
      fold_left (fun grouped log => group_append (group_key log) log grouped)
        logs g in
    NoDup (map fst g')
    /\ (forall k members,
          In (k, members) g' ->
          members <> []
          /\ members
             = filter (fun log => String.eqb (group_key log) k) (seen ++ logs))
    /\ (forall log, In log (seen ++ logs) -> In (group_key log) (map fst g'))
    /\ list_sum (map (fun group => List.length (snd group)) g')
       = List.length (seen ++ logs).
Proof.
  induction logs as [| log logs IH]; intros seen g Hnd Hmem Hkeys Hsum; simpl.
  - rewrite app_nil_r. auto.
  - change (seen ++ log :: logs) with (seen ++ [log] ++ logs).
    rewrite app_assoc. apply IH.
    + apply group_append_NoDup. exact Hnd.
    + intros k members Hin. rewrite filter_app. cbn [filter].
      destruct (group_append_members _ _ _ _ _ Hnd Hin)
        as [[Hne Hg] | [[-> [earlier [Hg ->]]] | [-> [Hno ->]]]].
      * destruct (Hmem _ _ Hg) as [H1 H2].
        assert (E : String.eqb (group_key log) k = false)
          by (apply String.eqb_neq; congruence).
        rewrite E, app_nil_r. auto.
      * destruct (Hmem _ _ Hg) as [H1 H2].
        rewrite String.eqb_refl. split.
        -- intros H. apply app_eq_nil in H. destruct H; discriminate.
        -- rewrite <- H2. reflexivity.
      * rewrite String.eqb_refl. split; [discriminate |].
        assert (E : filter (fun l => String.eqb (group_key l) (group_key log)) seen
                    = []).
        { apply filter_nothing. intros x Hx. apply String.eqb_neq.
          intros Heq. apply Hno. rewrite <- Heq. apply Hkeys. exact Hx. }
        rewrite E. reflexivity.
    + intros l Hl. rewrite group_append_keys.
      apply in_app_iff in Hl. destruct Hl as [Hl | [<- | []]].
      * specialize (Hkeys l Hl).
        destruct (existsb (String.eqb (group_key log)) (map fst g));
          [exact Hkeys | apply in_or_app; left; exact Hkeys].
      * destruct (existsb (String.eqb (group_key log)) (map fst g)) eqn:E.
        -- apply existsb_eqb_In. exact E.
        -- apply in_or_app. right. left. reflexivity.
    + rewrite group_append_size, Hsum, length_app. simpl. lia.
Qed.

(** X13: the groups of the digest partition the parsed entries: the
    group keys are distinct, a group holds exactly the entries of its
    (source, ID) key, in the sorted order, and is never empty, every
    entry is in the group of its key, and the sizes of the groups add
    up to the total that the header of the digest reports. *)
Theorem digest_groups_partition_the_entries :
  forall sorted_logs,
    let grouped_logs := group_logs sorted_logs in
    NoDup (map fst grouped_logs)
    /\ (forall key logs,
          In (key, logs) grouped_logs ->
          logs <> []
          /\ logs = filter (fun log => String.eqb (group_key log) key) sorted_logs)
    /\ (forall log,
          In log sorted_logs ->
          exists logs, In (group_key log, logs) grouped_logs /\ In log logs)
    /\ list_sum (map (fun group => List.length (snd group)) grouped_logs)
       = List.length sorted_logs.
Proof.
  intros sorted_logs grouped_logs.
  destruct (group_logs_invariant sorted_logs [] []) as [H1 [H2 [H3 H4]]].
  - constructor.
  - intros k members [].
  - intros log [].
  - reflexivity.
  - cbn [app] in H2, H3, H4. fold (group_logs sorted_logs) in H1, H2, H3, H4.
    fold grouped_logs in H1, H2, H3, H4.
    split; [exact H1 |]. split; [exact H2 |]. split; [| exact H4].
    intros log Hlog. specialize (H3 log Hlog).
    apply in_map_iff in H3. destruct H3 as [[k logs] [Hk Hin]].
    simpl in Hk. subst k. exists logs. split; [exact Hin |].
    destruct (H2 _ _ Hin) as [_ ->]. apply filter_In.
    split; [exact Hlog | apply String.eqb_refl].
Qed.

(** ** The analysis client: refusals and failures *)

(** X14: [analyze_logs_with_llm] answers without sending anything, and
    without reading the clock, when the API key is missing or empty
    ("API 키 없음"), else when the URL or the model is missing or empty
    ("LLM 설정 오류"), else when there is no detail line
    ("분석할 로그 내용 없음"): the checks are made in this order and
    the trace gains the call and at most one error entry. *)
Theorem analysis_is_refused_before_any_request :
  forall env log_details config api_key w,
    let llm_config := get (llm config) empty_llm in
    let run := analyze_logs_with_llm env log_details config api_key w in
    (get api_key "" = "" ->
     run = (Return "API 키 없음",
            add_trace [Call "analyze_logs_with_llm";
                       Log ERROR "LLM 분석을 위한 API 키가 제공되지 않았습니다." []]
              w))
    /\ (get api_key "" <> "" ->
        get (api_url llm_config) "" = "" \/ get (model llm_config) "" = "" ->
        run = (Return "LLM 설정 오류",
               add_trace [Call "analyze_logs_with_llm";
                          Log ERROR
                            "LLM 설정(api_url, model)이 설정 파일에 없습니다." []]
                 w))
    /\ (get api_key "" <> "" ->
        get (api_url llm_config) "" <> "" -> get (model llm_config) "" <> "" ->
        log_details = [] ->
        run = (Return "분석할 로그 내용 없음",
               add_trace [Call "analyze_logs_with_llm"] w)).
Proof.
  intros env log_details config api_key w llm_config run.
  unfold run, analyze_logs_with_llm. fold llm_config.
  assert (Hw : forall e1 e2,
             mkWorld (db w) (conn w) (clock w) ((trace w ++ [e1]) ++ [e2])
             = add_trace [e1; e2] w).
  { intros e1 e2. unfold add_trace. rewrite <- app_assoc. reflexivity. }
  split; [| split].
  - intros Hkey.
    destruct api_key as [[| c key] |]; try discriminate;
      unfold bind, emit, logger, emit, ret; cbn [fst snd db conn clock trace];
      rewrite Hw; reflexivity.
  - intros Hkey Hconf.
    destruct api_key as [[| c key] |]; try (exfalso; apply Hkey; reflexivity).
    destruct (api_url llm_config) as [[| cu url] |],
             (model llm_config) as [[| cm mdl] |];
      try (destruct Hconf; discriminate);
      unfold bind, emit, logger, emit, ret; cbn [fst snd db conn clock trace];
      rewrite Hw; reflexivity.
  - intros Hkey Hurl Hmodel ->.
    destruct api_key as [[| c key] |]; try (exfalso; apply Hkey; reflexivity).
    destruct (api_url llm_config) as [[| cu url] |];
      try (exfalso; apply Hurl; reflexivity).
    destruct (model llm_config) as [[| cm mdl] |];
      try (exfalso; apply Hmodel; reflexivity).
    reflexivity.
Qed.

Lemma analysis_is_refused_witness :
  analyze_logs_with_llm plain_env sample_lines sample_config (Some "") world0
  = (Return "API 키 없음",
     add_trace [Call "analyze_logs_with_llm";
                Log ERROR "LLM 분석을 위한 API 키가 제공되지 않았습니다." []]
       world0)
  /\ analyze_logs_with_llm plain_env sample_lines
       (mkConfig (event_log sample_config) None) (Some "secret") world0
     = (Return "LLM 설정 오류",
        add_trace [Call "analyze_logs_with_llm";
                   Log ERROR "LLM 설정(api_url, model)이 설정 파일에 없습니다." []]
          world0)
  /\ analyze_logs_with_llm plain_env [] sample_config (Some "secret") world0
     = (Return "분석할 로그 내용 없음",
        add_trace [Call "analyze_logs_with_llm"] world0).
Proof.
  split; [| split].
  - apply (proj1 (analysis_is_refused_before_any_request plain_env sample_lines
                    sample_config (Some "") world0)).
    reflexivity.
  - apply (proj1 (proj2 (analysis_is_refused_before_any_request plain_env
                           sample_lines
                           (mkConfig (event_log sample_config) None)
                           (Some "secret") world0))).
    + discriminate.
    + left. reflexivity.
  - apply (proj2 (proj2 (analysis_is_refused_before_any_request plain_env []
                           sample_config (Some "secret") world0))).
    + discriminate.
    + discriminate.
    + discriminate.
    + reflexivity.
Defined.

Lemma parse_logs_returns recent_logs :
  hoare (extends every) never any (parse_logs recent_logs).
Proof.
  unfold parse_logs, parse_line.
  apply hoare_for_each with (I := any);
    [apply extends_refl | apply extends_trans | | exact I].
  intros log acc _ _.
  repeat flow_step ltac:(fail) ltac:(exact I); hoare_trivial.
Qed.

Lemma preprocess_logs_raises_only_IndexError log_details max_logs :
  hoare (extends every) (fun e => e = IndexError) any
    (preprocess_logs log_details max_logs).
Proof.
  unfold preprocess_logs.
  destruct (negb (truthy_list log_details)).
  { apply hoare_ret; [apply extends_refl | exact I]. }
  eapply hoare_bind with (Q1 := any); [apply extends_trans | |].
  { eapply hoare_weaken; [apply parse_logs_returns | intros e [] | auto]. }
  intros parsed_logs _.
  eapply hoare_bind with (Q1 := any); [apply extends_trans | |].
  - apply hoare_lift; [apply extends_refl |]. unfold digest_lines.
    destruct (sorted parsed_logs); [reflexivity | exact I].
  - intros result _. apply hoare_ret; [apply extends_refl | exact I].
Qed.

Lemma analyze_logs_with_llm_raises env log_details config api_key :
  hoare (extends every) (fun e => e = IndexError \/ e = UnboundLocalError) any
    (analyze_logs_with_llm env log_details config api_key).
Proof.
  assert (HP : forall l t a, every (Log l t a)) by (intros; exact I).
  unfold analyze_logs_with_llm, request_and_classify, raise_for_status.
  repeat
    (lazymatch goal with
     | |- hoare _ _ _ (bind (preprocess_logs _ _) _) =>
         eapply hoare_bind with (Q1 := any);
         [apply extends_trans
         | eapply hoare_weaken;
           [apply preprocess_logs_raises_only_IndexError
           | intros ? ->; left; reflexivity | auto]
         | intros ? _]
     | |- _ => flow_step ltac:(fail) ltac:(exact I)
     end); hoare_trivial.
Qed.

(** X15: the only exceptions that leave [analyze_logs_with_llm] are
    [IndexError] (from the digest, which is built outside the [try])
    and [UnboundLocalError] (from the handler of [JSONDecodeError],
    which reads [response]); every other failure, of the request, of
    the status, of the decoding or of the shape of the answer, ends in
    a returned text. *)
Theorem analysis_lets_only_two_exceptions_through :
  forall env log_details config api_key w e,
    fst (analyze_logs_with_llm env log_details config api_key w) = Raise e ->
    e = IndexError \/ e = UnboundLocalError.
Proof.
  intros env log_details config api_key w e Hraise.
  destruct (analyze_logs_with_llm_raises env log_details config api_key w)
    as [_ Hq].
  rewrite Hraise in Hq. exact Hq.
Qed.

Lemma analysis_lets_only_two_exceptions_witness :
  fst (analyze_logs_with_llm c9_env sample_lines c9_config (Some "secret") world0)
  = Raise IndexError
  /\ (IndexError = IndexError \/ IndexError = UnboundLocalError).
Proof.
  split; [vm_compute; reflexivity |].
  apply (analysis_lets_only_two_exceptions_through c9_env sample_lines c9_config
           (Some "secret") world0 IndexError).
  vm_compute. reflexivity.
Defined.

Lemma hoare_outcome {A} T (x : Outcome A) (m : M A) :
  hoare T (fun e => Raise e = x) (fun r => Return r = x) m ->
  forall w, fst (m w) = x.
Proof.
  intros H w. destruct (H w) as [_ Hq]. destruct (fst (m w)); exact Hq.
Qed.

(** A digest that was built is a text other than the notice of an empty
    batch. *)
Lemma digest_is_text log_details max_logs w digest :
  log_details <> [] ->
  fst (preprocess_logs log_details max_logs w) = Return digest ->
  negb (truthy_str digest) || String.eqb digest no_data = false.
Proof.
  intros Hne Hd. destruct log_details as [| l0 ls]; [congruence |].
  rewrite preprocess_logs_nonempty in Hd.
  destruct (parse_logs (slice_to (l0 :: ls) max_logs) w) as [[p | e] w'];
    [| discriminate].
  unfold digest_lines in Hd.
  destruct (sorted p) as [| first others]; [discriminate |].
  cbn [fst] in Hd. apply Return_inj in Hd. subst digest.
  cbn [app join]. reflexivity.
Qed.

Lemma preprocess_logs_fixed log_details max_logs w0 digest :
  fst (preprocess_logs log_details max_logs w0) = Return digest ->
  forall R, hoare (extends every) R (fun s => s = digest)
              (preprocess_logs log_details max_logs).
Proof.
  intros Hd R w.
  assert (HP : forall l t a, every (Log l t a)) by (intros; exact I).
  destruct (preprocess_logs_extends every log_details max_logs HP w) as [Ht _].
  split; [exact Ht |].
  rewrite (preprocess_logs_same _ _ w w0), Hd. reflexivity.
Qed.

(** The handlers of the [try] block, on the exception [e]. *)
Ltac failure_handlers e :=
  unfold except, no_more, failure_text; rewrite isinstance_Exception;
  destruct (isinstance e "requests.exceptions.Timeout");
    [repeat flow_step ltac:(fail) ltac:(exact I); hoare_trivial |];
  destruct (isinstance e "requests.exceptions.ConnectionError");
    [repeat flow_step ltac:(fail) ltac:(exact I); hoare_trivial |];
  destruct (isinstance e "requests.exceptions.RequestException");
    [repeat flow_step ltac:(fail) ltac:(exact I); hoare_trivial |];
  destruct (isinstance e "json.JSONDecodeError");
    [| repeat flow_step ltac:(fail) ltac:(exact I); hoare_trivial].

(** X16: once the request is sent, a failure is answered by the first
    handler that matches it, in the order Timeout, ConnectionError,
    RequestException, JSONDecodeError, Exception: an exception of the
    POST, an HTTP status from 400 to 599 (always
    "LLM API 요청 오류: HTTPError", whatever the body), or an exception
    of the decoding of the body. *)
Theorem request_failures_are_answered_by_the_first_handler :
  forall env log_details config api_key w,
    request_is_sent log_details config api_key ->
    let verdict :=
      fst (analyze_logs_with_llm env log_details config api_key w) in
    (forall e, requests_post env = Raise e -> verdict = failure_text e false)
    /\ (forall response,
          requests_post env = Return response ->
          (400 <= status_code response < 600)%Z ->
          verdict = Return "LLM API 요청 오류: HTTPError")
    /\ (forall response e,
          requests_post env = Return response ->
          ~ (400 <= status_code response < 600)%Z ->
          json_body response = Raise e ->
          verdict = failure_text e true).
Proof.
  intros env log_details config api_key w
    [Hkey [Hurl [Hmodel [Hne [digest Hdigest]]]]] verdict.
  assert (HP : forall l t a, every (Log l t a)) by (intros; exact I).
  assert (Hrun : forall expected,
             (forall url key mdl payload timeout keywords,
                hoare (extends every) (fun e => Raise e = expected)
                  (fun r => Return r = expected)
                  (try_except
                     (request_and_classify env url key mdl payload timeout
                        keywords)
                     (except "requests.exceptions.Timeout" (fun _ =>
                        logger ERROR "LLM API 호출 시간 초과 ({timeout}초)."
                          [AInt timeout] ;;;
                        ret "LLM API 시간 초과")
                     (except "requests.exceptions.ConnectionError" (fun e =>
                        logger ERROR "LLM API 연결 오류: {e}" [AExn e] ;;;
                        ret "LLM API 연결 오류")
                     (except "requests.exceptions.RequestException" (fun e =>
                        logger ERROR "LLM API 요청 중 오류 발생: {e}" [AExn e] ;;;
                        match exn_response e with
                        | Some (code, body) =>
                            logger ERROR
                              "LLM API 응답 코드: {e.response.status_code}, 내용: {e.response.text[:500]}"
                              [AInt code; AStr body]
                        | None => ret tt
                        end ;;;
                        ret ("LLM API 요청 오류: " +++ exn_class e))
                     (except "json.JSONDecodeError" (fun e =>
                        logger ERROR "LLM API 응답 JSON 파싱 오류: {e}" [AExn e] ;;;
                        match requests_post env with
                        | Return response =>
                            logger ERROR "오류 발생 시 응답 내용: {response.text[:500]}"
                              [AStr (text response)]
                        | Raise _ => raise UnboundLocalError
                        end ;;;
                        ret "LLM 응답 파싱 오류")
                     (except "Exception" (fun e =>
                        logger ERROR "LLM 분석 중 예기치 않은 오류 발생: {e}" [AExn e] ;;;
                        ret "LLM 분석 중 알 수 없는 오류")
                      no_more))))))) ->
             verdict = expected).
  { intros expected Htry. unfold verdict.
    apply (hoare_outcome (extends every)).
    unfold analyze_logs_with_llm.
    eapply hoare_bind with (Q1 := any); [apply extends_trans | |].
    { apply hoare_emit_extends; exact I. }
    intros _ _.
    destruct api_key as [[| c key] |]; try (exfalso; apply Hkey; reflexivity).
    destruct (api_url (get (llm config) empty_llm)) as [[| cu url] |];
      try (exfalso; apply Hurl; reflexivity).
    destruct (model (get (llm config) empty_llm)) as [[| cm mdl] |];
      try (exfalso; apply Hmodel; reflexivity).
    eapply hoare_bind; [apply extends_trans | |].
    { apply (preprocess_logs_fixed _ _ _ _ Hdigest). }
    intros log_summary ->.
    rewrite (digest_is_text _ _ _ _ Hne Hdigest).
    eapply hoare_bind with (Q1 := any); [apply extends_trans | |].
    { apply hoare_tick_extends. intros; exact I. }
    intros t _.
    eapply hoare_bind with (Q1 := any); [apply extends_trans | |].
    { apply hoare_emit_extends; exact I. }
    intros _ _. apply Htry. }
  split; [| split].
  - intros e Hpost. apply Hrun. intros url key mdl payload timeout keywords.
    eapply hoare_try_except with (R1 := fun e' => e' = e);
      [apply extends_trans | |].
    + unfold request_and_classify.
      eapply hoare_bind with (Q1 := any); [apply extends_trans | |].
      { apply hoare_emit_extends; exact I. }
      intros _ _.
      eapply hoare_bind with (Q1 := fun _ => False); [apply extends_trans | |].
      { apply hoare_lift; [apply extends_refl |]. rewrite Hpost. reflexivity. }
      intros response [].
    + intros e' ->. failure_handlers e. rewrite Hpost.
      eapply hoare_bind with (Q1 := any); [apply extends_trans | |].
      { apply hoare_emit_extends; exact I. }
      intros _ _.
      eapply hoare_bind with (Q1 := fun _ => False); [apply extends_trans | |].
      { apply hoare_raise; [apply extends_refl | reflexivity]. }
      intros u [].
  - intros response Hpost Hstatus. apply Hrun.
    intros url key mdl payload timeout keywords.
    set (http_error :=
           mkExn "HTTPError"
             ["requests.exceptions.HTTPError";
              "requests.exceptions.RequestException"; "OSError"]
             0 "" (Some (status_code response, text response))).
    eapply hoare_try_except with (R1 := fun e' => e' = http_error);
      [apply extends_trans | |].
    + unfold request_and_classify.
      eapply hoare_bind with (Q1 := any); [apply extends_trans | |].
      { apply hoare_emit_extends; exact I. }
      intros _ _.
      eapply hoare_bind with (Q1 := fun r => r = response);
        [apply extends_trans | |].
      { apply hoare_lift; [apply extends_refl |]. rewrite Hpost. reflexivity. }
      intros r ->.
      eapply hoare_bind with (Q1 := fun _ => False); [apply extends_trans | |].
      { unfold raise_for_status.
        assert (E : ((400 <=? status_code response)
                     && (status_code response <? 600))%Z = true)
          by (apply andb_true_iff; split;
              [apply Z.leb_le | apply Z.ltb_lt]; lia).
        rewrite E. apply hoare_raise; [apply extends_refl | reflexivity]. }
      intros u [].
    + intros e' ->. unfold except, no_more.
      change (isinstance http_error "requests.exceptions.Timeout") with false.
      change (isinstance http_error "requests.exceptions.ConnectionError")
        with false.
      change (isinstance http_error "requests.exceptions.RequestException")
        with true.
      cbn iota.
      repeat flow_step ltac:(fail) ltac:(exact I); hoare_trivial.
  - intros response e Hpost Hstatus Hjson. apply Hrun.
    intros url key mdl payload timeout keywords.
    eapply hoare_try_except with (R1 := fun e' => e' = e);
      [apply extends_trans | |].
    + unfold request_and_classify.
      eapply hoare_bind with (Q1 := any); [apply extends_trans | |].
      { apply hoare_emit_extends; exact I. }
      intros _ _.
      eapply hoare_bind with (Q1 := fun r => r = response);
        [apply extends_trans | |].
      { apply hoare_lift; [apply extends_refl |]. rewrite Hpost. reflexivity. }
      intros r ->.
      eapply hoare_bind with (Q1 := any); [apply extends_trans | |].
      { unfold raise_for_status.
        assert (E : ((400 <=? status_code response)
                     && (status_code response <? 600))%Z = false).
        { apply andb_false_iff.
          destruct (Z_le_dec 400 (status_code response));
            [right; apply Z.ltb_ge; lia | left; apply Z.leb_gt; lia]. }
        rewrite E. apply hoare_ret; [apply extends_refl | exact I]. }
      intros _ _.
      eapply hoare_bind with (Q1 := fun _ => False); [apply extends_trans | |].
      { apply hoare_lift; [apply extends_refl |]. rewrite Hjson. reflexivity. }
      intros j [].
    + intros e' ->. failure_handlers e. rewrite Hpost.
      repeat flow_step ltac:(fail) ltac:(exact I); hoare_trivial.
Qed.

Lemma request_failures_witness :
  fst (analyze_logs_with_llm (scenario [] (Raise connect_timeout) no_fault)
         sample_lines sample_config (Some "secret") world0)
  = Return "LLM API 시간 초과"
  /\ fst (analyze_logs_with_llm
            (scenario [] (Return (mkResponse 503 (Return JNull) "busy")) no_fault)
            sample_lines sample_config (Some "secret") world0)
     = Return "LLM API 요청 오류: HTTPError"
  /\ fst (analyze_logs_with_llm
            (scenario []
               (Return (mkResponse 200 (Raise requests_json_error) "<html>"))
               no_fault)
            sample_lines sample_config (Some "secret") world0)
     = Return "LLM API 요청 오류: JSONDecodeError".
Proof.
  assert (Hsent : request_is_sent sample_lines sample_config (Some "secret")).
  { repeat split; try discriminate. eexists. vm_compute. reflexivity. }
  split; [| split].
  - apply (proj1 (request_failures_are_answered_by_the_first_handler
                    (scenario [] (Raise connect_timeout) no_fault)
                    sample_lines sample_config (Some "secret") world0 Hsent)
             connect_timeout eq_refl).
  - apply (proj1 (proj2 (request_failures_are_answered_by_the_first_handler
                           (scenario []
                              (Return (mkResponse 503 (Return JNull) "busy"))
                              no_fault)
                           sample_lines sample_config (Some "secret") world0
                           Hsent))
             (mkResponse 503 (Return JNull) "busy") eq_refl).
    simpl. lia.
  - apply (proj2 (proj2 (request_failures_are_answered_by_the_first_handler
                           (scenario []
                              (Return (mkResponse 200 (Raise requests_json_error)
                                         "<html>"))
                              no_fault)
                           sample_lines sample_config (Some "secret") world0
                           Hsent))
             (mkResponse 200 (Raise requests_json_error) "<html>")
             requests_json_error eq_refl).
    + simpl. lia.
    + reflexivity.
Defined.

(** ** The API key *)

Lemma api_key_loaded env w :
  exists level template args,
    utils.load_api_key env w
    = (Return (loaded_key env), add_trace [Log level template args] w).
Proof.
  unfold utils.load_api_key, loaded_key.
  destruct (load_dotenv env) as [e |].
  - eexists _, _, _.
    unfold try_except, bind, raise, except. rewrite isinstance_Exception.
    reflexivity.
  - destruct (getenv_GROK_API_KEY env) as [[| c key] |];
      eexists _, _, _; reflexivity.
Qed.

(** X17: [load_api_key] never raises.  It returns the value of
    [GROK_API_KEY] exactly when the [.env] file loads and the value is
    not empty (an empty value counts as a missing one), and [None]
    otherwise; it leaves one entry in the log, which never carries the
    value of the key. *)
Theorem api_key_is_loaded_or_none_and_never_logged :
  forall env w,
    exists level template args,
      utils.load_api_key env w
      = (Return (loaded_key env), add_trace [Log level template args] w)
      /\ (args = []
          \/ exists e, load_dotenv env = Some e /\ args = [AExn e])
      /\ (loaded_key env <> None <->
          load_dotenv env = None
          /\ exists key, getenv_GROK_API_KEY env = Some key /\ key <> "").
Proof.
  intros env w. unfold utils.load_api_key, loaded_key.
  destruct (load_dotenv env) as [e |].
  - eexists _, _, _. split; [| split].
    + unfold try_except, bind, raise, except. rewrite isinstance_Exception.
      reflexivity.
    + right. exists e. split; reflexivity.
    + split; [congruence | intros [H _]; discriminate].
  - destruct (getenv_GROK_API_KEY env) as [[| c key] |].
    + eexists _, _, _. split; [reflexivity |]. split; [left; reflexivity |].
      split; [congruence |].
      intros [_ [key [H Hne]]]. injection H as <-. congruence.
    + eexists _, _, _. split; [reflexivity |]. split; [left; reflexivity |].
      split; [| discriminate].
      intros _. split; [reflexivity |]. eexists. split; [reflexivity | discriminate].
    + eexists _, _, _. split; [reflexivity |]. split; [left; reflexivity |].
      split; [congruence |]. intros [_ [key [H _]]]. discriminate.
Qed.

(** ** The run *)

Lemma bind_emit {B} e (k : unit -> M B) w :
  bind (emit e) k w = k tt (add_trace [e] w).
Proof. reflexivity. Qed.

Lemma bind_logger {B} level template args (k : unit -> M B) w :
  bind (logger level template args) k w
  = k tt (add_trace [Log level template args] w).
Proof. reflexivity. Qed.

(** X18: a configuration without the section [llm] makes a run without
    API key fail: [run_monitor] raises [KeyError] when it goes to
    disable the analysis, before any hardware is collected, and the
    session it had started stays open in the database (no end time). *)
Theorem run_without_llm_section_and_key_raises_KeyError :
  forall env config w,
    llm config = None ->
    loaded_key env = None ->
    fst (monitor.run_monitor env config w) = Raise KeyError
    /\ forall id,
         fst (db_manager.start_scan_session env w) = Return (Some id) ->
         db (snd (monitor.run_monitor env config w))
         = with_session (db w)
             (mkSessionRow id (now_isoformat env (S (clock w))) None 0 0 0 None).
Proof.
  intros env config w Hllm Hkey.
  assert (Hrun : exists w',
             monitor.run_monitor env config w = (Raise KeyError, w')
             /\ db w' = db (snd (db_manager.start_scan_session env w))).
  { unfold monitor.run_monitor.
    rewrite !bind_logger, bind_emit.
    match goal with
    | |- context [bind (db_manager.start_scan_session env) ?k ?w4] =>
        destruct (start_scan_session_run env w4) as [w5 [E5 Hdb5]];
        rewrite (bind_returns _ _ _ _ _ E5)
    end.
    destruct (start_scan_session_run env w) as [w0 [E0 Hdb0]].
    rewrite E0. cbn [snd]. cbn [db clock add_trace] in E5, Hdb5.
    rewrite Hdb0, <- Hdb5.
    match goal with
    | |- context [bind (match ?sid with Some _ => _ | None => _ end) _ w5] =>
        destruct sid
    end; rewrite bind_logger;
      match goal with
      | |- context [bind (utils.load_api_key env) ?k ?w6] =>
          destruct (api_key_loaded env w6) as [level [template [args E6]]];
          rewrite (bind_returns _ _ _ _ _ E6)
      end;
      rewrite Hkey, Hllm; cbn [get enabled empty_llm];
      unfold monitor.disable_llm; rewrite Hllm;
      eexists; (split; [reflexivity | reflexivity]). }
  destruct Hrun as [w' [E Hdb]]. rewrite E. cbn [fst snd].
  split; [reflexivity |].
  intros id Hid. rewrite Hdb.
  destruct (start_scan_session_run env w) as [w0 [E0 Hdb0]].
  rewrite E0 in Hid |- *. cbn [fst snd] in Hid |- *. rewrite Hdb0.
  destruct (match db_path env with
            | Some _ => negb (session_error env (clock w))
            | None => false
            end); [| discriminate].
  injection Hid as <-. reflexivity.
Qed.

Lemma run_without_llm_section_witness :
  fst (monitor.run_monitor keyless_env config_without_llm world1) = Raise KeyError
  /\ scan_sessions_tbl
       (db (snd (monitor.run_monitor keyless_env config_without_llm world1)))
     = scan_sessions_tbl (db world1)
       ++ [mkSessionRow 8 "2024-01-01T00:00:00" None 0 0 0 None].
Proof.
  destruct (run_without_llm_section_and_key_raises_KeyError keyless_env
              config_without_llm world1 eq_refl eq_refl) as [H1 H2].
  split; [exact H1 |]. rewrite (H2 8%nat eq_refl). reflexivity.
Defined.

(** What the third stage reports. *)
Lemma llm_stage_result P env config api_key sid hw c d r :
  (forall e, db_effect e -> P e) ->
  (forall l t a, P (Log l t a)) ->
  analysis_due config api_key c = false
  \/ ((forall u b p t, P (HttpPost u b p t)) /\ P (Call "analyze_logs_with_llm")) ->
  hoare (extends P) any
    (fun res =>
       monitor.rr_event_count res = c /\ monitor.rr_hw_devices_found res = hw
       /\ monitor.rr_session_id res = sid
       /\ monitor.rr_llm_analysis_performed res = analysis_due config api_key c
       /\ (analysis_due config api_key c = false ->
           monitor.rr_llm_result res = "LLM 분석 미수행"))
    (monitor.llm_stage env config api_key sid hw (c, d, r)).
Proof.
  intros Hdb HP Hdue. unfold monitor.llm_stage.
  eapply hoare_bind with (Q1 := any); [apply extends_trans | |].
  { apply hoare_emit_extends; [apply HP | exact I]. }
  intros _ _.
  eapply hoare_bind
    with (Q1 := fun t : bool * string * string =>
                  fst (fst t) = analysis_due config api_key c
                  /\ (analysis_due config api_key c = false ->
                      snd (fst t) = "LLM 분석 미수행"));
    [apply extends_trans | |].
  - unfold analysis_due in *.
    destruct ((Z.of_nat c >=? get (check_threshold (get (llm config) empty_llm)) 5)%Z
              && get (enabled (get (llm config) empty_llm)) true) eqn:Econd.
    + eapply hoare_bind with (Q1 := any); [apply extends_trans | |].
      { apply hoare_emit_extends; [apply HP | exact I]. }
      intros _ _.
      destruct api_key as [[| ch key] |]; cbn [get truthy_str andb] in *.
      * repeat flow_step ltac:(fail) ltac:(apply HP); hoare_trivial.
      * destruct Hdue as [Hdue | [Hpost Hcall]]; [discriminate |].
        repeat flow_step
          ltac:(idtac; first
                  [ db_call Hdb
                  | lazymatch goal with
                    | |- hoare _ _ _ (llm_analyzer.analyze_logs_with_llm _ _ _ _) =>
                        apply analyze_logs_with_llm_extends;
                        [exact HP | exact Hpost | exact Hcall]
                    end ])
          ltac:(apply HP); hoare_trivial.
        all: split; [reflexivity | discriminate].
      * repeat flow_step ltac:(fail) ltac:(apply HP); hoare_trivial.
    + cbn [andb].
      repeat flow_step ltac:(idtac; db_call Hdb) ltac:(apply HP); hoare_trivial.
  - intros [[performed llm_result] summary] [Hp Hr]. cbn [fst snd] in Hp, Hr.
    repeat flow_step ltac:(idtac; db_call Hdb) ltac:(apply HP); hoare_trivial.
    all: cbn [monitor.rr_event_count monitor.rr_hw_devices_found monitor.rr_session_id
              monitor.rr_llm_analysis_performed monitor.rr_llm_result]; auto.
Qed.

Lemma hoare_with_value {A} T (R : Exn -> Prop) (m : M A) (x : A) :
  hoare T R any m -> (forall w, fst (m w) = Return x) ->
  hoare T never (fun r => r = x) m.
Proof.
  intros H Hx w. destruct (H w) as [Ht _]. split; [exact Ht |].
  rewrite Hx. reflexivity.
Qed.

Lemma load_api_key_value P env :
  (forall l t a, P (Log l t a)) ->
  hoare (extends P) never (fun key => key = loaded_key env)
    (utils.load_api_key env).
Proof.
  intros HP w.
  destruct (api_key_loaded env w) as [level [template [args E]]].
  rewrite E. cbn [fst snd]. split; [| reflexivity].
  exists [Log level template args]. split; [reflexivity |].
  constructor; [apply HP | constructor].
Qed.

Lemma scan_of_same_event_log env config config' :
  event_log config' = event_log config -> scan_of env config' = scan_of env config.
Proof.
  intros H. unfold scan_of, scan_enabled, max_events_of, sources_of, event_ids_of.
  rewrite H. reflexivity.
Qed.

Section TheRun.
Variable env : Env.
Variable P : Effect -> Prop.
Hypothesis P_db : forall e, db_effect e -> P e.
Hypothesis P_probe : forall e, probe_effect e -> P e.
Hypothesis P_scan : forall e, scan_effect e -> P e.

Lemma P_log : forall l t a, P (Log l t a).
Proof. intros. apply P_probe. exact I. Qed.

Lemma wmi_collectors_value sid :
  hoare (extends P) never (fun n => n = devices_found env)
    (if is_windows env then
       camera_devices <- monitor.get_cameras_windows env sid ;;
       let hw_devices_found :=
         (0 + List.length (com_found env) + List.length camera_devices)%nat in
       usb_devices <- monitor.get_usb_devices_windows env sid ;;
       ret (hw_devices_found + List.length usb_devices)%nat
     else
       logger INFO
         "Windows 환경이 아니므로 카메라 및 USB 정보 수집(WMI)을 건너뜁니다." [] ;;;
       ret (0 + List.length (com_found env))%nat).
Proof.
  unfold devices_found. cbn [Nat.add].
  destruct (is_windows env).
  - eapply hoare_bind; [apply extends_trans | |].
    { eapply hoare_with_value;
        [apply (get_cameras_windows_spec env P P_db P_probe sid)
        | intros w; apply get_cameras_windows_run]. }
    intros cams ->.
    eapply hoare_bind; [apply extends_trans | |].
    { eapply hoare_with_value;
        [apply (get_usb_devices_windows_spec env P P_db P_probe sid)
        | intros w; apply get_usb_devices_windows_run]. }
    intros usb ->. apply hoare_ret; [apply extends_refl | reflexivity].
  - eapply hoare_bind with (Q1 := any); [apply extends_trans | |].
    { apply hoare_emit_extends; [apply P_log | exact I]. }
    intros _ _. apply hoare_ret; [apply extends_refl | reflexivity].
Qed.

(** The run after the session was started, for a configuration
    [config]; [stage] is what is known of the third stage. *)
Lemma run_after_start (config : Config) sid (R : Exn -> Prop)
  (Q : monitor.RunResult -> Prop) :
  (llm config = None -> loaded_key env = None -> R KeyError) ->
  (forall config',
     (loaded_key env <> None -> config' = config) ->
     (loaded_key env = None ->
      get (enabled (get (llm config) empty_llm)) true = true ->
      monitor.disable_llm config = ret config') ->
     (loaded_key env = None ->
      get (enabled (get (llm config) empty_llm)) true = false ->
      config' = config) ->
     hoare (extends P) R Q
       (monitor.llm_stage env config' (loaded_key env) sid (devices_found env)
          (scan_of env config))) ->
  hoare (extends P) R Q
    (api_key <- utils.load_api_key env ;;
     config <-
       match api_key with
       | None =>
           if get (enabled (get (llm config) empty_llm)) true then
             logger WARNING "API 키를 로드할 수 없어 LLM 분석 기능이 비활성화됩니다." [] ;;;
             monitor.disable_llm config
           else ret config
       | Some _ => ret config
       end ;;
     logger INFO "[단계 1/3] 하드웨어 정보 수집" [] ;;;
     let hw_devices_found := 0%nat in
     com_devices <- monitor.get_com_ports env sid ;;
     let hw_devices_found := (hw_devices_found + List.length com_devices)%nat in
     hw_devices_found <-
       (if is_windows env then
          camera_devices <- monitor.get_cameras_windows env sid ;;
          let hw_devices_found :=
            (hw_devices_found + List.length camera_devices)%nat in
          usb_devices <- monitor.get_usb_devices_windows env sid ;;
          ret (hw_devices_found + List.length usb_devices)%nat
        else
          logger INFO
            "Windows 환경이 아니므로 카메라 및 USB 정보 수집(WMI)을 건너뜁니다." [] ;;;
          ret hw_devices_found) ;;
     logger INFO "[단계 2/3] 이벤트 로그 분석" [] ;;;
     scan <- monitor.analyze_event_logs env config ;;
     monitor.llm_stage env config api_key sid hw_devices_found scan).
Proof.
  intros Hkey Hstage.
  eapply hoare_bind; [apply extends_trans | |].
  { eapply hoare_weaken;
      [apply (load_api_key_value P env P_log) | intros e [] | intros a H; exact H]. }
  intros api_key ->.
  eapply hoare_bind
    with (Q1 := fun config' =>
                  (loaded_key env <> None -> config' = config)
                  /\ (loaded_key env = None ->
                      get (enabled (get (llm config) empty_llm)) true = true ->
                      monitor.disable_llm config = ret config')
                  /\ (loaded_key env = None ->
                      get (enabled (get (llm config) empty_llm)) true = false ->
                      config' = config));
    [apply extends_trans | |].
  { destruct (loaded_key env) as [key |].
    - apply hoare_ret; [apply extends_refl |].
      split; [reflexivity |]. split; intros; discriminate.
    - destruct (get (enabled (get (llm config) empty_llm)) true).
      + eapply hoare_bind with (Q1 := any); [apply extends_trans | |].
        { apply hoare_emit_extends; [apply P_log | exact I]. }
        intros _ _. unfold monitor.disable_llm.
        destruct (llm config) as [c |].
        * apply hoare_ret; [apply extends_refl |].
          split; [congruence |]. split; [reflexivity | discriminate].
        * apply hoare_raise; [apply extends_refl | apply Hkey; reflexivity].
      + apply hoare_ret; [apply extends_refl |].
        split; [reflexivity |]. split; [discriminate | reflexivity]. }
  intros config' [H1 [H2 H3]].
  eapply hoare_bind with (Q1 := any); [apply extends_trans | |].
  { apply hoare_emit_extends; [apply P_log | exact I]. }
  intros _ _. cbn zeta.
  eapply hoare_bind; [apply extends_trans | |].
  { eapply hoare_weaken;
      [eapply hoare_with_value;
       [apply (get_com_ports_spec env P P_db P_probe sid)
       | intros w; apply get_com_ports_run]
      | intros e [] | intros a H; exact H]. }
  intros com ->.
  eapply hoare_bind; [apply extends_trans | |].
  { eapply hoare_weaken;
      [apply (wmi_collectors_value sid) | intros e [] | intros a H; exact H]. }
  intros hw ->.
  eapply hoare_bind with (Q1 := any); [apply extends_trans | |].
  { apply hoare_emit_extends; [apply P_log | exact I]. }
  intros _ _.
  eapply hoare_bind with (Q1 := fun s => s = scan_of env config);
    [apply extends_trans | |].
  { eapply hoare_weaken with (R := never) (Q := fun s => s = scan_of env config');
      [| intros e [] |].
    - eapply hoare_with_value.
      + eapply hoare_relax; [| eapply hoare_weaken;
                                 [apply (analyze_event_logs_spec env config')
                                 | intros e H; exact H | intros a _; exact I]].
        intros a b H. apply only_logs_extends.
        eapply only_logs_mono; [exact P_scan | exact H].
      + intros w. apply analyze_event_logs_run.
    - intros s ->. apply scan_of_same_event_log.
      destruct (loaded_key env) as [key |] eqn:Ek.
      + rewrite H1 by discriminate. reflexivity.
      + destruct (get (enabled (get (llm config) empty_llm)) true) eqn:Een.
        * specialize (H2 eq_refl eq_refl). unfold monitor.disable_llm in H2.
          apply (f_equal (fun m => fst (m (mkWorld (mkDatabase [] [] []) None 0 []))))
            in H2.
          destruct (llm config); cbn [ret raise fst] in H2; [| discriminate].
          injection H2 as <-. reflexivity.
        * rewrite H3 by reflexivity. reflexivity. }
  intros scan ->. apply Hstage; assumption.
Qed.

End TheRun.

Lemma analysis_due_without_key config config' n :
  analysis_due config' None n = analysis_due config None n.
Proof. unfold analysis_due. cbn [get truthy_str]. rewrite !andb_false_r. reflexivity. Qed.

(** X19: what a run that returns reports: the id of the session it
    started (or [None]), the number of devices the collectors returned
    (the COM ports, and on Windows the cameras and the USB devices),
    the number of matches of the scan, and whether the analysis was
    run, which is the case exactly when the matches reach the
    threshold, the analysis is enabled and an API key was loaded, also
    when the analysis came back with an error text; when it was not
    run the result text is "LLM 분석 미수행". *)
Theorem run_reports_what_it_found :
  forall env config w res,
    fst (monitor.run_monitor env config w) = Return res ->
    fst (db_manager.start_scan_session env w)
    = Return (monitor.rr_session_id res)
    /\ (exists com_devices camera_devices usb_devices,
          fst (monitor.get_com_ports env (monitor.rr_session_id res) w)
          = Return com_devices
          /\ fst (monitor.get_cameras_windows env (monitor.rr_session_id res) w)
             = Return camera_devices
          /\ fst (monitor.get_usb_devices_windows env
                    (monitor.rr_session_id res) w)
             = Return usb_devices
          /\ monitor.rr_hw_devices_found res
             = if is_windows env
               then (List.length com_devices + List.length camera_devices
                     + List.length usb_devices)%nat
               else List.length com_devices)
    /\ (exists details records,
          fst (monitor.analyze_event_logs env config w)
          = Return (monitor.rr_event_count res, details, records))
    /\ monitor.rr_llm_analysis_performed res
       = analysis_due config (loaded_key env) (monitor.rr_event_count res)
    /\ (monitor.rr_llm_analysis_performed res = false ->
        monitor.rr_llm_result res = "LLM 분석 미수행").
Proof.
  intros env config w res.
  unfold monitor.run_monitor. rewrite !bind_logger, bind_emit.
  match goal with
  | |- context [bind (db_manager.start_scan_session env) ?k ?w4] =>
      destruct (start_scan_session_run env w4) as [w5 [E5 _]];
      rewrite (bind_returns _ _ _ _ _ E5)
  end.
  destruct (start_scan_session_run env w) as [w0 [E0 _]].
  rewrite E0. cbn [fst]. cbn [db clock add_trace] in E5 |- *.
  remember (if match db_path env with
               | Some _ => negb (session_error env (clock w))
               | None => false
               end
            then Some (db_manager.next_session_id (db w)) else None)
    as sid eqn:Hsid_def.
  destruct (scan_of env config) as [[c d] r] eqn:Escan.
  match goal with
  | |- fst (?m w5) = Return res -> _ =>
      assert (Hm : hoare (extends every) any
                     (fun res =>
                        monitor.rr_event_count res = c
                        /\ monitor.rr_hw_devices_found res = devices_found env
                        /\ monitor.rr_session_id res = sid
                        /\ monitor.rr_llm_analysis_performed res
                           = analysis_due config (loaded_key env) c
                        /\ (analysis_due config (loaded_key env) c = false ->
                            monitor.rr_llm_result res = "LLM 분석 미수행"))
                     m)
  end.
  { eapply hoare_bind with (Q1 := any); [apply extends_trans | |].
    { destruct sid; apply hoare_emit_extends; exact I. }
    intros _ _.
    apply (run_after_start env every); try (intros; exact I).
    intros config' H1 H2 H3. rewrite Escan.
    assert (Hdue : analysis_due config' (loaded_key env) c
                   = analysis_due config (loaded_key env) c).
    { destruct (loaded_key env) as [key |].
      - rewrite H1 by discriminate. reflexivity.
      - apply analysis_due_without_key. }
    rewrite <- Hdue.
    apply llm_stage_result; try (intros; exact I).
    right. split; [intros; exact I | exact I]. }
  intros Hres. destruct (Hm w5) as [_ Hq]. rewrite Hres in Hq.
  destruct Hq as [Hc [Hhw [Hsid [Hp Hr]]]].
  split; [rewrite Hsid; reflexivity |].
  split; [| split; [| split]].
  - exists (com_found env), (cameras_found env), (usb_found env).
    rewrite get_com_ports_run, get_cameras_windows_run,
      get_usb_devices_windows_run, Hhw.
    repeat split; reflexivity.
  - exists d, r. rewrite analyze_event_logs_run. fold (scan_of env config).
    rewrite Escan, Hc. reflexivity.
  - rewrite Hp, Hc. reflexivity.
  - intros Hf. apply Hr. rewrite <- Hp. exact Hf.
Qed.

Lemma run_reports_witness :
  let res :=
    monitor.mkRunResult 3 0 true
      "비정상 패턴 의심됨: the device reports a disconnect again and again"
      (Some 1%nat) in
  fst (monitor.run_monitor c7_env (c7_config 3) world0) = Return res
  /\ monitor.rr_llm_analysis_performed res
     = analysis_due (c7_config 3) (loaded_key c7_env)
         (monitor.rr_event_count res).
Proof.
  intros res. split; [vm_compute; reflexivity |].
  apply (run_reports_what_it_found c7_env (c7_config 3) world0 res).
  vm_compute. reflexivity.
Defined.

(** ** The command line *)

Lemma db_effect_no_request e : db_effect e -> no_request e.
Proof.
  destruct e; simpl; intros H; try exact I; try contradiction.
  destruct H as [H | [H | [H | H]]]; subst; discriminate.
Qed.

Lemma probe_effect_no_request e : probe_effect e -> no_request e.
Proof. destruct e; simpl; intros H; try exact I; contradiction. Qed.

Lemma scan_effect_no_request e : scan_effect e -> no_request e.
Proof.
  destruct e; simpl; intros H; try exact I; try contradiction.
  subst; discriminate.
Qed.

(** A run with the analysis disabled asks nothing of the model. *)
Lemma run_monitor_disabled env config :
  get (enabled (get (llm config) empty_llm)) true = false ->
  hoare (extends no_request) any
    (fun res =>
       monitor.rr_llm_analysis_performed res = false
       /\ monitor.rr_llm_result res = "LLM 분석 미수행")
    (monitor.run_monitor env config).
Proof.
  intros Hoff. unfold monitor.run_monitor.
  do 4 (eapply hoare_bind with (Q1 := any); [apply extends_trans | |];
        [apply hoare_emit_extends; exact I | intros _ _]).
  eapply hoare_bind with (Q1 := any); [apply extends_trans | |].
  { db_call db_effect_no_request. }
  intros sid _.
  eapply hoare_bind with (Q1 := any); [apply extends_trans | |].
  { destruct sid; apply hoare_emit_extends; exact I. }
  intros _ _.
  apply (run_after_start env no_request db_effect_no_request
           probe_effect_no_request scan_effect_no_request);
    [intros; exact I |].
  intros config' H1 H2 H3.
  assert (Hc : config' = config).
  { destruct (loaded_key env) as [key |] eqn:Ek.
    - apply H1. discriminate.
    - apply H3; [reflexivity | exact Hoff]. }
  subst config'.
  destruct (scan_of env config) as [[c d] r].
  assert (Hdue : analysis_due config (loaded_key env) c = false).
  { unfold analysis_due. rewrite Hoff, andb_false_r. reflexivity. }
  eapply hoare_weaken;
    [apply (llm_stage_result no_request env config (loaded_key env) sid
              (devices_found env) c d r db_effect_no_request)
    | intros e H; exact H |].
  - intros; exact I.
  - left. exact Hdue.
  - intros res [_ [_ [_ [Hp Hr]]]]. rewrite Hp, Hdue. auto.
Qed.

(** X20: with the flag [--no-llm] and a configuration that has the
    section [llm], the command [monitor] asks nothing of the model:
    the run never calls [analyze_logs_with_llm] and sends no request,
    whatever the number of matches, and a run that returns reports
    that the analysis was not run.  Without the section [llm] the flag
    changes nothing: the run is the run of the unchanged
    configuration. *)
Theorem no_llm_flag_keeps_the_run_from_the_model :
  forall env config w,
    (llm config <> None ->
     exists added,
       trace (snd (cli.monitor_command env true config w)) = trace w ++ added
       /\ Forall no_request added
       /\ forall res,
            fst (cli.monitor_command env true config w) = Return res ->
            monitor.rr_llm_analysis_performed res = false
            /\ monitor.rr_llm_result res = "LLM 분석 미수행")
    /\ (llm config = None ->
        cli.monitor_command env true config w
        = monitor.run_monitor env config
            (add_trace [Log INFO "LLM 분석 기능을 비활성화합니다." []]
               (add_trace [Log INFO "모니터링 모드로 실행합니다." []] w))).
Proof.
  intros env config w. split.
  - intros Hllm.
    assert (H : hoare (extends no_request) any
                  (fun res =>
                     monitor.rr_llm_analysis_performed res = false
                     /\ monitor.rr_llm_result res = "LLM 분석 미수행")
                  (cli.monitor_command env true config)).
    { unfold cli.monitor_command.
      eapply hoare_bind with (Q1 := any); [apply extends_trans | |].
      { apply hoare_emit_extends; exact I. }
      intros _ _.
      eapply hoare_bind
        with (Q1 := fun config' =>
                      get (enabled (get (llm config') empty_llm)) true = false);
        [apply extends_trans | |].
      { eapply hoare_bind with (Q1 := any); [apply extends_trans | |].
        { apply hoare_emit_extends; exact I. }
        intros _ _. unfold monitor.disable_llm.
        destruct (llm config) as [c |]; [| congruence].
        apply hoare_ret; [apply extends_refl | reflexivity]. }
      intros config' Hoff. apply run_monitor_disabled. exact Hoff. }
    destruct (H w) as [[added [E F]] Hq].
    exists added. split; [exact E |]. split; [exact F |].
    intros res Hres. rewrite Hres in Hq. exact Hq.
  - intros Hllm. unfold cli.monitor_command.
    rewrite bind_logger. unfold bind at 1. unfold bind at 1.
    rewrite Hllm. reflexivity.
Qed.

Lemma no_llm_flag_witness :
  (exists added,
     trace (snd (cli.monitor_command c7_env true (c7_config 3) world0))
     = trace world0 ++ added
     /\ Forall no_request added
     /\ forall res,
          fst (cli.monitor_command c7_env true (c7_config 3) world0) = Return res ->
          monitor.rr_llm_analysis_performed res = false
          /\ monitor.rr_llm_result res = "LLM 분석 미수행")
  /\ In (Call "analyze_logs_with_llm")
       (trace (snd (cli.monitor_command c7_env false (c7_config 3) world0))).
Proof.
  split.
  - apply (proj1 (no_llm_flag_keeps_the_run_from_the_model c7_env (c7_config 3)
                    world0)).
    discriminate.
  - vm_compute. tauto.
Defined.

(** ** The exceptions of a run *)







(** ** What a run stores in the table of events *)

Lemma gains_refl w : gains_agreeing_rows w w.
Proof. exists []. rewrite app_nil_r. split; [reflexivity | constructor]. Qed.

Lemma gains_trans a b c :
  gains_agreeing_rows a b -> gains_agreeing_rows b c -> gains_agreeing_rows a c.
Proof.
  intros [r1 [E1 F1]] [r2 [E2 F2]]. exists (r1 ++ r2).
  rewrite E2, E1, app_assoc. split; [reflexivity |].
  apply Forall_app. split; assumption.
Qed.

Lemma gains_same_events w w' :
  events_tbl (db w') = events_tbl (db w) -> gains_agreeing_rows w w'.
Proof.
  intros E. exists []. rewrite app_nil_r. split; [exact E | constructor].
Qed.

Lemma hoare_emit_gains (R : Exn -> Prop) (Q : unit -> Prop) e :
  Q tt -> hoare gains_agreeing_rows R Q (emit e).
Proof. intros Hq w. split; [apply gains_same_events; reflexivity | exact Hq]. Qed.

Lemma hoare_tick_gains (R : Exn -> Prop) (Q : nat -> Prop) :
  (forall n, Q n) -> hoare gains_agreeing_rows R Q tick.
Proof. intros Hq w. split; [apply gains_same_events; reflexivity | apply Hq]. Qed.

Lemma hoare_only_logs_gains {A} P (R : Exn -> Prop) (Q : A -> Prop) (m : M A) :
  hoare (only_logs P) R Q m -> hoare gains_agreeing_rows R Q m.
Proof.
  apply hoare_relax. intros w w' [added [E _]]. subst w'.
  apply gains_same_events. reflexivity.
Qed.

(** One rule of the logic for a relation on the database: [side]
    proves that the relation is reflexive or transitive, [emit_rule]
    and [tick_rule] are its rules for [emit] and [tick], [call_tac]
    knows the functions that are not unfolded. *)
Ltac rel_step side emit_rule tick_rule call_tac :=
  first
    [ call_tac
    | lazymatch goal with
      | |- hoare _ _ _ (ret _) => apply hoare_ret; [side | ]
      | |- hoare _ _ _ (raise _) => apply hoare_raise; [side | ]
      | |- hoare _ _ _ (emit _) => apply emit_rule
      | |- hoare _ _ _ (logger _ _ _) => apply emit_rule
      | |- hoare _ _ _ tick => apply tick_rule; intros
      | |- hoare _ _ _ (lift ?o) => apply hoare_lift; [side | destruct o ]
      | |- hoare _ _ _ (try_except _ _) =>
          eapply hoare_try_except with (R1 := any);
          [side | | intros ? _; handler_cases]
      | |- hoare _ _ _ (try_finally _ _) =>
          apply hoare_try_finally; [side | | ]
      | |- hoare _ _ _ (bind _ _) =>
          eapply hoare_bind with (Q1 := any); [side | | intros ? _ ]
      | |- hoare _ _ _ (for_each _ _ _) =>
          apply hoare_for_each with (I := any);
          [side | side | intros ? ? _ _ | exact I]
      | |- hoare _ _ _ (if ?c then _ else _) => destruct c eqn:?
      | |- hoare _ _ _ (match ?x with _ => _ end) => destruct x eqn:?
      end ].

Ltac gains_side := first [apply gains_refl | apply gains_trans].

Ltac gains_step call_tac :=
  rel_step ltac:(gains_side) hoare_emit_gains hoare_tick_gains call_tac.

Section EventsTable.
Variable env : Env.

Lemma start_scan_session_gains R :
  hoare gains_agreeing_rows R any (db_manager.start_scan_session env).
Proof.
  intros w. destruct (start_scan_session_run env w) as [w' [E Hdb]].
  rewrite E. cbn [fst snd]. split; [| exact I].
  apply gains_same_events. rewrite Hdb.
  destruct (db_path env); [destruct (negb _) |]; reflexivity.
Qed.

Lemma end_scan_session_gains sid ef hw llm summary :
  hoare gains_agreeing_rows any any
    (db_manager.end_scan_session env sid ef hw llm summary).
Proof.
  intros w.
  destruct (end_scan_session_run env sid ef hw llm summary w) as [w' [E [Hdb _]]].
  rewrite E. cbn [fst snd]. split.
  - apply gains_same_events. rewrite Hdb.
    match goal with |- context [if ?c then _ else _] => destruct c end;
      reflexivity.
  - match goal with |- context [if ?c then _ else _] => destruct c end;
      exact I.
Qed.

Lemma store_hardware_info_gains R sid hw_type devices :
  hoare gains_agreeing_rows R any
    (db_manager.store_hardware_info env sid hw_type devices).
Proof.
  intros w.
  destruct (store_hardware_info_run env sid hw_type devices w) as [w' [E Hdb]].
  rewrite E. cbn [fst snd]. split; [| exact I].
  apply gains_same_events. rewrite Hdb.
  destruct devices; [| destruct (db_path env); [destruct (negb _) |]];
    reflexivity.
Qed.

Lemma event_rows_agree events :
  Forall (fun event => forall ts, flag_agrees (db_manager.event_row ts event))
    events ->
  forall t, Forall flag_agrees (event_rows env t events).
Proof.
  induction 1 as [| event events H _ IH]; intros t; simpl; constructor.
  - apply H.
  - apply IH.
Qed.

Lemma store_events_gains sid events :
  Forall (fun event => forall ts, flag_agrees (db_manager.event_row ts event))
    events ->
  hoare gains_agreeing_rows any any (db_manager.store_events env sid events).
Proof.
  intros Hev w. split.
  - destruct (store_events_atomic env sid events w) as [Hdb | [_ Hdb]].
    + apply gains_same_events. rewrite Hdb. reflexivity.
    + exists (event_rows env (S (clock w)) events).
      rewrite Hdb. split; [reflexivity |].
      apply event_rows_agree. exact Hev.
  - destruct (fst (db_manager.store_events env sid events w)); exact I.
Qed.

Ltac store_hardware :=
  lazymatch goal with
  | |- hoare _ _ _ (db_manager.store_hardware_info _ _ _ _) =>
      apply store_hardware_info_gains
  end.

Lemma get_com_ports_gains sid :
  hoare gains_agreeing_rows any any (monitor.get_com_ports env sid).
Proof.
  unfold monitor.get_com_ports.
  repeat gains_step ltac:(idtac; store_hardware); hoare_trivial.
Qed.

Lemma get_cameras_windows_gains sid :
  hoare gains_agreeing_rows any any (monitor.get_cameras_windows env sid).
Proof.
  unfold monitor.get_cameras_windows.
  repeat gains_step ltac:(idtac; store_hardware); hoare_trivial.
Qed.

Lemma get_usb_devices_windows_gains sid :
  hoare gains_agreeing_rows any any (monitor.get_usb_devices_windows env sid).
Proof.
  unfold monitor.get_usb_devices_windows.
  repeat gains_step ltac:(idtac; store_hardware); hoare_trivial.
Qed.

Lemma preprocess_logs_gains log_details max_logs :
  hoare gains_agreeing_rows any any
    (llm_analyzer.preprocess_logs log_details max_logs).
Proof.
  unfold llm_analyzer.preprocess_logs, llm_analyzer.parse_logs,
    llm_analyzer.parse_line.
  repeat gains_step ltac:(fail); hoare_trivial.
Qed.

(** The analysis client does not touch the database. *)
Lemma analyze_logs_with_llm_gains log_details config api_key :
  hoare gains_agreeing_rows any any
    (llm_analyzer.analyze_logs_with_llm env log_details config api_key).
Proof.
  unfold llm_analyzer.analyze_logs_with_llm,
    llm_analyzer.request_and_classify, llm_analyzer.raise_for_status.
  repeat gains_step
    ltac:(idtac; lazymatch goal with
          | |- hoare _ _ _ (llm_analyzer.preprocess_logs _ _) =>
              apply preprocess_logs_gains
          end);
    hoare_trivial.
Qed.

Lemma unanalysed_agrees event :
  unanalysed event -> forall ts, flag_agrees (db_manager.event_row ts event).
Proof.
  intros [Ha Hf] ts. unfold flag_agrees, db_manager.event_row.
  cbn [er_abnormal_flag er_llm_analysis]. rewrite Ha, Hf. reflexivity.
Qed.

Lemma annotated_agree llm_result events :
  Forall (fun event => forall ts, flag_agrees (db_manager.event_row ts event))
    (map (monitor.annotate llm_result (str_in "비정상 패턴 의심됨" llm_result))
       events).
Proof.
  apply Forall_forall. intros event Hin ts.
  apply in_map_iff in Hin. destruct Hin as [ev [<- _]].
  unfold flag_agrees, db_manager.event_row, monitor.annotate.
  cbn [er_abnormal_flag er_llm_analysis ev_llm_analysis ev_abnormal get].
  reflexivity.
Qed.

(** The third stage stores the events of the scan with the analysis
    and the flag it derived from it, or as the scan left them. *)
Lemma llm_stage_gains config api_key sid hw c d events :
  Forall unanalysed events ->
  hoare gains_agreeing_rows any any
    (monitor.llm_stage env config api_key sid hw (c, d, events)).
Proof.
  intros Hscan.
  assert (Hev : Forall (fun event =>
                          forall ts, flag_agrees (db_manager.event_row ts event))
                  events).
  { eapply Forall_impl; [| exact Hscan]. intros ev. apply unanalysed_agrees. }
  unfold monitor.llm_stage.
  repeat gains_step
    ltac:(idtac; lazymatch goal with
          | |- hoare _ _ _ (llm_analyzer.analyze_logs_with_llm _ _ _ _) =>
              apply analyze_logs_with_llm_gains
          | |- hoare _ _ _ (db_manager.end_scan_session _ _ _ _ _ _) =>
              apply end_scan_session_gains
          | |- hoare _ _ _ (db_manager.store_events _ _ _) =>
              apply store_events_gains;
              first [exact Hev | apply annotated_agree]
          | |- hoare _ _ _ (bind (if str_in ?m ?txt then _ else _) _) =>
              eapply hoare_bind
                with (Q1 := fun t : bool * string => fst t = str_in m txt);
              [ gains_side
              | destruct (str_in m txt)
              | intros [? ?] ?; cbn [fst] in *; subst ]
          end);
    hoare_trivial.
Qed.

Lemma scan_events_unanalysed config :
  Forall unanalysed (snd (scan_of env config)).
Proof.
  unfold scan_of.
  destruct (scan_enabled env config); [| constructor].
  destruct (open_event_log env); [| constructor].
  destruct (reading _ _ _) as [seen | e]; [| constructor].
  unfold scan_result. cbn [snd].
  apply Forall_forall. intros event Hin.
  apply in_map_iff in Hin. destruct Hin as [hit [<- _]].
  split; reflexivity.
Qed.

Lemma analyze_event_logs_gains config :
  hoare gains_agreeing_rows never (fun scan => scan = scan_of env config)
    (monitor.analyze_event_logs env config).
Proof.
  intros w. destruct (analyze_event_logs_pure env config) as [r [added H]].
  pose proof (analyze_event_logs_run env config w) as Hrun.
  rewrite H in *. cbn [fst snd] in *. subst r.
  split; [apply gains_same_events; reflexivity | reflexivity].
Qed.

Lemma load_api_key_gains :
  hoare gains_agreeing_rows any any (utils.load_api_key env).
Proof.
  intros w. destruct (api_key_loaded env w) as [level [template [args E]]].
  rewrite E. split; [apply gains_same_events; reflexivity | exact I].
Qed.

Lemma run_monitor_gains config :
  hoare gains_agreeing_rows any any (monitor.run_monitor env config).
Proof.
  unfold monitor.run_monitor, monitor.disable_llm.
  repeat gains_step
    ltac:(idtac; lazymatch goal with
          | |- hoare _ _ _ (db_manager.start_scan_session _) =>
              apply start_scan_session_gains
          | |- hoare _ _ _ (utils.load_api_key _) => apply load_api_key_gains
          | |- hoare _ _ _ (monitor.get_com_ports _ _) =>
              apply get_com_ports_gains
          | |- hoare _ _ _ (monitor.get_cameras_windows _ _) =>
              apply get_cameras_windows_gains
          | |- hoare _ _ _ (monitor.get_usb_devices_windows _ _) =>
              apply get_usb_devices_windows_gains
          | |- hoare _ _ _ (bind (monitor.analyze_event_logs _ ?cfg) _) =>
              eapply hoare_bind
                with (Q1 := fun scan => scan = scan_of env cfg);
              [ gains_side
              | eapply hoare_weaken;
                [ apply analyze_event_logs_gains
                | intros ? []
                | intros ? H; exact H ]
              | intros ? -> ]
          | |- hoare _ _ _ (monitor.llm_stage _ _ _ _ _ (scan_of _ ?cfg)) =>
              pose proof (scan_events_unanalysed cfg);
              destruct (scan_of env cfg) as [[? ?] ?];
              apply llm_stage_gains; assumption
          end);
    hoare_trivial.
Qed.

End EventsTable.

(** X22: a run only appends to the table [events], and every row it
    appends carries a flag that agrees with the stored analysis: the
    flag is 1 exactly when the analysis text contains the marker of an
    abnormal verdict.  The same holds of a run that ends with an
    exception. *)
Theorem run_stores_flags_that_agree_with_the_analysis :
  forall env config w,
    exists rows,
      events_tbl (db (snd (monitor.run_monitor env config w)))
      = events_tbl (db w) ++ rows
      /\ Forall flag_agrees rows.
Proof.
  intros env config w. destruct (run_monitor_gains env config w) as [H _].
  exact H.
Qed.

(** ** Strings and patterns *)

Lemma append_assoc' (a b c : string) : (a +++ b) +++ c = a +++ (b +++ c).
Proof. induction a as [| x a IH]; simpl; [reflexivity | rewrite IH; reflexivity]. Qed.

Lemma append_nil_r s : s +++ "" = s.
Proof. induction s as [| x s IH]; simpl; [reflexivity | rewrite IH; reflexivity]. Qed.

Lemma all_chars_app p a b :
  all_chars p (a +++ b) = all_chars p a && all_chars p b.
Proof.
  induction a as [| x a IH]; simpl; [reflexivity |].
  rewrite IH, andb_assoc. reflexivity.
Qed.

Lemma all_chars_impl (p q : ascii -> bool) s :
  (forall c, p c = true -> q c = true) ->
  all_chars p s = true -> all_chars q s = true.
Proof.
  intros Hpq. induction s as [| x s IH]; simpl; [reflexivity |].
  intros H. apply andb_prop in H as [Hx Hs].
  rewrite (Hpq x Hx), (IH Hs). reflexivity.
Qed.

Lemma prefix_app l r : prefix l (l +++ r) = true.
Proof.
  induction l as [| x l IH]; simpl; [destruct r; reflexivity |].
  destruct (ascii_dec x x); [exact IH | congruence].
Qed.

Lemma drop_app l r : re.drop (String.length l) (l +++ r) = r.
Proof. induction l as [| x l IH]; simpl; [destruct r; reflexivity | exact IH]. Qed.

(** The greedy repetition takes the whole run of the class first. *)
Lemma head_many1 p s r :
  s <> "" -> all_chars p s = true -> re.many1 p r = [] ->
  hd_error (re.many1 p (s +++ r)) = Some (re.mkFound s [] r).
Proof.
  induction s as [| c s IH]; intros Hne Hall Hr; [congruence |].
  cbn [all_chars] in Hall. apply andb_prop in Hall as [Hc Hs].
  cbn [String.append re.many1]. rewrite Hc.
  destruct s as [| c' s'].
  - cbn [String.append]. rewrite Hr. reflexivity.
  - assert (Hne' : String c' s' <> "") by discriminate.
    specialize (IH Hne' Hs Hr).
    destruct (re.many1 p (String c' s' +++ r)) as [| f l]; [discriminate |].
    cbn in IH. injection IH as ->. reflexivity.
Qed.

Lemma head_lit l r :
  hd_error (re.run (re.Lit l) (l +++ r)) = Some (re.mkFound l [] r).
Proof. cbn [re.run]. rewrite prefix_app, drop_app. reflexivity. Qed.

Lemma head_grp a s f :
  hd_error (re.run a s) = Some f ->
  hd_error (re.run (re.Grp a) s)
  = Some (re.mkFound (re.matched f) (re.matched f :: re.groups f) (re.rest f)).
Proof.
  cbn [re.run]. destruct (re.run a s) as [| x l]; [discriminate |].
  cbn. intros H. injection H as ->. reflexivity.
Qed.

Lemma head_seq a b s f g :
  hd_error (re.run a s) = Some f ->
  hd_error (re.run b (re.rest f)) = Some g ->
  hd_error (re.run (re.Seq a b) s)
  = Some (re.mkFound (re.matched f +++ re.matched g)
            (re.groups f ++ re.groups g) (re.rest g)).
Proof.
  cbn [re.run]. destruct (re.run a s) as [| x l]; [discriminate |].
  cbn [hd_error]. intros H. injection H as ->.
  cbn [flat_map]. destruct (re.run b (re.rest f)) as [| y l']; [discriminate |].
  cbn. intros H. injection H as ->. reflexivity.
Qed.

Lemma search_found r s f :
  hd_error (re.run r s) = Some f -> re.search r s = Some f.
Proof. intros H. destruct s; cbn [re.search]; unfold re.match_; rewrite H; reflexivity. Qed.

Lemma search_step r c s :
  re.run r (String c s) = [] -> re.search r (String c s) = re.search r s.
Proof. intros H. cbn [re.search]. unfold re.match_. rewrite H. reflexivity. Qed.

Lemma search_end_step r c s :
  re.run r (String c s) = [] -> re.search_end r (String c s) = re.search_end r s.
Proof. intros H. cbn [re.search_end]. unfold re.match_end. rewrite H. reflexivity. Qed.

Lemma search_end_found r s f :
  hd_error (re.run r s) = Some f -> re.at_end (re.rest f) = true ->
  re.search_end r s = Some f.
Proof.
  intros H Hend.
  assert (E : re.match_end r s = Some f).
  { unfold re.match_end. destruct (re.run r s) as [| x l]; [discriminate |].
    cbn in H. injection H as ->. cbn [find]. rewrite Hend. reflexivity. }
  destruct s; cbn [re.search_end]; rewrite E; reflexivity.
Qed.

Lemma run_lit_seq_nil l b s :
  prefix l s = false -> re.run (re.Seq (re.Lit l) b) s = [].
Proof. intros H. cbn [re.run]. rewrite H. reflexivity. Qed.

(** A literal that holds [x] and not [y] is found at no position of a
    text without [x] that is followed by [y]. *)
Lemma no_prefix_across x y l :
  In x (list_ascii_of_string l) -> ~ In y (list_ascii_of_string l) ->
  forall s r,
    all_chars (fun c => negb (Ascii.eqb c x)) s = true ->
    prefix l (s +++ String y r) = false.
Proof.
  induction l as [| a l IH]; intros Hx Hy s r Hs; [destruct Hx |].
  cbn [list_ascii_of_string] in Hx, Hy.
  destruct s as [| c s]; cbn [String.append prefix].
  - destruct (ascii_dec a y) as [-> |]; [| reflexivity].
    exfalso. apply Hy. left. reflexivity.
  - cbn [all_chars] in Hs. apply andb_prop in Hs as [Hc Hs].
    destruct (ascii_dec a c) as [-> |]; [| reflexivity].
    destruct Hx as [<- | Hx].
    + rewrite Ascii.eqb_refl in Hc. discriminate.
    + apply IH; [exact Hx | | exact Hs].
      intros H. apply Hy. right. exact H.
Qed.

Lemma all_chars_tail p c s : all_chars p (String c s) = true -> all_chars p s = true.
Proof. cbn. intros H. apply andb_prop in H as [_ H]. exact H. Qed.

Lemma search_through x y l b s r :
  In x (list_ascii_of_string l) -> ~ In y (list_ascii_of_string l) ->
  all_chars (fun c => negb (Ascii.eqb c x)) s = true ->
  re.search (re.Seq (re.Lit l) b) (s +++ String y r)
  = re.search (re.Seq (re.Lit l) b) (String y r).
Proof.
  intros Hx Hy. induction s as [| c s IH]; intros Hs; [reflexivity |].
  cbn [String.append]. rewrite search_step.
  - apply IH. exact (all_chars_tail _ _ _ Hs).
  - apply run_lit_seq_nil.
    apply (no_prefix_across x y l Hx Hy (String c s) r Hs).
Qed.

Lemma search_end_through x y l b s r :
  In x (list_ascii_of_string l) -> ~ In y (list_ascii_of_string l) ->
  all_chars (fun c => negb (Ascii.eqb c x)) s = true ->
  re.search_end (re.Seq (re.Lit l) b) (s +++ String y r)
  = re.search_end (re.Seq (re.Lit l) b) (String y r).
Proof.
  intros Hx Hy. induction s as [| c s IH]; intros Hs; [reflexivity |].
  cbn [String.append]. rewrite search_end_step.
  - apply IH. exact (all_chars_tail _ _ _ Hs).
  - apply run_lit_seq_nil.
    apply (no_prefix_across x y l Hx Hy (String c s) r Hs).
Qed.

(** ** Numbers printed and read back *)

Lemma N_range_check (f : N -> bool) (bound : nat) :
  forallb f (map N.of_nat (seq 0 bound)) = true ->
  forall n, (n < N.of_nat bound)%N -> f n = true.
Proof.
  intros H n Hn. rewrite forallb_forall in H. apply H.
  apply in_map_iff. exists (N.to_nat n). split; [apply N2Nat.id |].
  apply in_seq. lia.
Qed.

Lemma pad2_reads_back n :
  (n < 100)%N ->
  all_chars re.digit (datetime.pad 2 n) = true
  /\ String.length (datetime.pad 2 n) = 2%nat
  /\ datetime.int (datetime.pad 2 n) = n.
Proof.
  intros Hn.
  pose proof (N_range_check
                (fun n => all_chars re.digit (datetime.pad 2 n)
                          && (String.length (datetime.pad 2 n) =? 2)%nat
                          && (datetime.int (datetime.pad 2 n) =? n)%N)
                100 ltac:(vm_compute; reflexivity) n Hn) as H.
  cbv beta in H. apply andb_prop in H as [H H3]. apply andb_prop in H as [H1 H2].
  split; [exact H1 |]. split; [apply Nat.eqb_eq; exact H2 | apply N.eqb_eq; exact H3].
Qed.

Lemma N_range_check2 (f : N -> bool) (base : nat) :
  forallb
    (fun a =>
       forallb (fun b => f (N.of_nat a * N.of_nat base + N.of_nat b)%N)
         (seq 0 base))
    (seq 0 base) = true ->
  forall n, (n < N.of_nat base * N.of_nat base)%N -> f n = true.
Proof.
  intros H n Hn. rewrite forallb_forall in H.
  assert (Hb : (0 < N.of_nat base)%N) by (destruct base; [simpl in Hn |]; lia).
  pose proof (N.div_mod n (N.of_nat base) ltac:(lia)) as Hdm.
  pose proof (N.mod_lt n (N.of_nat base) ltac:(lia)) as Hmod.
  assert (Hdiv : (n / N.of_nat base < N.of_nat base)%N)
    by (apply N.Div0.div_lt_upper_bound; lia).
  remember (n / N.of_nat base)%N as q. remember (n mod N.of_nat base)%N as r.
  assert (Hq : In (N.to_nat q) (seq 0 base)) by (apply in_seq; lia).
  assert (Hr : In (N.to_nat r) (seq 0 base)) by (apply in_seq; lia).
  specialize (H _ Hq). rewrite forallb_forall in H. specialize (H _ Hr).
  rewrite !N2Nat.id in H. rewrite N.mul_comm, <- Hdm in H. exact H.
Qed.

Lemma pad4_reads_back n :
  (n < 10000)%N ->
  all_chars re.digit (datetime.pad 4 n) = true
  /\ String.length (datetime.pad 4 n) = 4%nat
  /\ datetime.int (datetime.pad 4 n) = n.
Proof.
  intros Hn.
  pose proof (N_range_check2
                (fun n => all_chars re.digit (datetime.pad 4 n)
                          && (String.length (datetime.pad 4 n) =? 4)%nat
                          && (datetime.int (datetime.pad 4 n) =? n)%N)
                100 ltac:(vm_compute; reflexivity) n Hn) as H.
  cbv beta in H. apply andb_prop in H as [H H3]. apply andb_prop in H as [H1 H2].
  split; [exact H1 |]. split; [apply Nat.eqb_eq; exact H2 | apply N.eqb_eq; exact H3].
Qed.

(** The sixteen-bit identifiers: printed with digits only, and read
    back by [int]. *)
Lemma event_id_reads_back z :
  (0 <= z < 65536)%Z ->
  all_chars re.digit (str_of_Z z) = true
  /\ str_of_Z z <> ""
  /\ monitor.int (str_of_Z z) = Return z.
Proof.
  intros Hz.
  assert (H : forallb
                (fun a =>
                   forallb
                     (fun b =>
                        (fun n =>
                           let s := str_of_Z (Z.of_N n) in
                           all_chars re.digit s && negb (String.eqb s "")
                           && match monitor.int s with
                              | Return v => (v =? Z.of_N n)%Z
                              | Raise _ => false
                              end)
                          (N.of_nat a * N.of_nat 256 + N.of_nat b)%N)
                     (seq 0 256))
                (seq 0 256) = true)
    by (vm_compute; reflexivity).
  pose proof (N_range_check2 _ 256 H (Z.to_N z) ltac:(lia)) as Hn.
  cbv beta zeta in Hn. rewrite Z2N.id in Hn by lia.
  apply andb_prop in Hn as [Hn H3]. apply andb_prop in Hn as [H1 H2].
  split; [exact H1 |]. split.
  - intros E. rewrite E in H2. discriminate.
  - destruct (monitor.int (str_of_Z z)) as [v | e]; [| discriminate].
    apply Z.eqb_eq in H3. subst v. reflexivity.
Qed.

(** ** The time of a record, printed and read back *)

Lemma N_cases n bound :
  (n < N.of_nat bound)%N -> In n (map N.of_nat (seq 0 bound)).
Proof.
  intros H. apply in_map_iff. exists (N.to_nat n).
  split; [apply N2Nat.id | apply in_seq; lia].
Qed.

Ltac each_value n H bound :=
  let Hin := fresh "Hin" in
  pose proof (N_cases n bound ltac:(cbn; lia)) as Hin;
  vm_compute in Hin;
  repeat (destruct Hin as [<- | Hin];
          [first [ discriminate H | reflexivity ] |]);
  destruct Hin.

Lemma head_year y r :
  (y < 10000)%N ->
  let d := re.Chr re.digit in
  hd_error (re.run (re.Grp (re.Seq d (re.Seq d (re.Seq d d))))
              (datetime.pad 4 y +++ r))
  = Some (re.mkFound (datetime.pad 4 y) [datetime.pad 4 y] r).
Proof.
  intros Hy d. destruct (pad4_reads_back y Hy) as [Hall [Hlen _]].
  destruct (datetime.pad 4 y) as [| c1 [| c2 [| c3 [| c4 [| c5 s]]]]];
    try discriminate Hlen.
  cbn [all_chars] in Hall.
  apply andb_prop in Hall as [H1 Hall]. apply andb_prop in Hall as [H2 Hall].
  apply andb_prop in Hall as [H3 Hall]. apply andb_prop in Hall as [H4 _].
  subst d. cbn [re.run String.append flat_map map app hd_error].
  rewrite H1. cbn [re.run String.append flat_map map app hd_error re.rest].
  rewrite H2. cbn [re.run String.append flat_map map app hd_error re.rest].
  rewrite H3. cbn [re.run String.append flat_map map app hd_error re.rest].
  rewrite H4. reflexivity.
Qed.

Lemma head_month n r :
  ((1 <=? n) && (n <=? 12))%N = true ->
  hd_error
    (re.run
       (re.Grp (re.Alt (re.Seq (re.Lit "1") (re.Chr (re.range "0" "2")))
                  (re.Alt (re.Seq (re.Lit "0") (re.Chr (re.range "1" "9")))
                     (re.Chr (re.range "1" "9")))))
       (datetime.pad 2 n +++ r))
  = Some (re.mkFound (datetime.pad 2 n) [datetime.pad 2 n] r).
Proof.
  intros H.
  assert (Hn : (n < 13)%N)
    by (apply andb_prop in H as [_ H]; apply N.leb_le in H; lia).
  each_value n H 13%nat.
Qed.

Lemma head_day n r :
  ((1 <=? n) && (n <=? 31))%N = true ->
  let d := re.Chr re.digit in
  hd_error
    (re.run
       (re.Grp (re.Alt (re.Seq (re.Lit "3") (re.Chr (re.range "0" "1")))
                  (re.Alt (re.Seq (re.Chr (re.range "1" "2")) d)
                  (re.Alt (re.Seq (re.Lit "0") (re.Chr (re.range "1" "9")))
                  (re.Alt (re.Chr (re.range "1" "9"))
                       (re.Seq (re.Lit " ") (re.Chr (re.range "1" "9"))))))))
       (datetime.pad 2 n +++ r))
  = Some (re.mkFound (datetime.pad 2 n) [datetime.pad 2 n] r).
Proof.
  intros H d.
  assert (Hn : (n < 32)%N)
    by (apply andb_prop in H as [_ H]; apply N.leb_le in H; lia).
  each_value n H 32%nat.
Qed.

Lemma head_hour n r :
  (n <=? 23)%N = true ->
  let d := re.Chr re.digit in
  hd_error
    (re.run
       (re.Grp (re.Alt (re.Seq (re.Lit "2") (re.Chr (re.range "0" "3")))
                  (re.Alt (re.Seq (re.Chr (re.range "0" "1")) d) d)))
       (datetime.pad 2 n +++ r))
  = Some (re.mkFound (datetime.pad 2 n) [datetime.pad 2 n] r).
Proof.
  intros H d.
  assert (Hn : (n < 24)%N) by (apply N.leb_le in H; lia).
  each_value n H 24%nat.
Qed.

Lemma head_minute n r :
  (n <=? 59)%N = true ->
  let d := re.Chr re.digit in
  hd_error
    (re.run (re.Grp (re.Alt (re.Seq (re.Chr (re.range "0" "5")) d) d))
       (datetime.pad 2 n +++ r))
  = Some (re.mkFound (datetime.pad 2 n) [datetime.pad 2 n] r).
Proof.
  intros H d.
  assert (Hn : (n < 60)%N) by (apply N.leb_le in H; lia).
  each_value n H 60%nat.
Qed.

Lemma head_second n r :
  (n <=? 59)%N = true ->
  let d := re.Chr re.digit in
  hd_error
    (re.run
       (re.Grp (re.Alt (re.Seq (re.Lit "6") (re.Chr (re.range "0" "1")))
                  (re.Alt (re.Seq (re.Chr (re.range "0" "5")) d) d)))
       (datetime.pad 2 n +++ r))
  = Some (re.mkFound (datetime.pad 2 n) [datetime.pad 2 n] r).
Proof.
  intros H d.
  assert (Hn : (n < 60)%N) by (apply N.leb_le in H; lia).
  each_value n H 60%nat.
Qed.

Lemma digit_not_space c : re.digit c = true -> is_space c = false.
Proof.
  destruct c as [[] [] [] [] [] [] [] []]; intros H;
    first [reflexivity | discriminate H].
Qed.

Lemma many1_space_digits s r :
  all_chars re.digit s = true -> s <> "" -> re.many1 is_space (s +++ r) = [].
Proof.
  destruct s as [| c s]; [congruence |]. intros H _.
  cbn [all_chars] in H. apply andb_prop in H as [H _].
  cbn [String.append re.many1]. rewrite (digit_not_space c H). reflexivity.
Qed.

Lemma days_in_month_le y m : (datetime.days_in_month y m <= 31)%N.
Proof.
  unfold datetime.days_in_month.
  repeat match goal with |- context [if ?c then _ else _] => destruct c end; lia.
Qed.

Lemma valid_time_bounds t :
  valid_time t = true ->
  (1 <= year t /\ year t < 10000 /\ 1 <= month t <= 12
   /\ 1 <= day t <= datetime.days_in_month (year t) (month t)
   /\ hour t <= 23 /\ minute t <= 59 /\ second t <= 59)%N.
Proof.
  unfold valid_time. intros H.
  repeat match type of H with
         | (_ && _) = true => apply andb_prop in H as [H ?]
         end.
  repeat match goal with
         | E : (_ <=? _)%N = true |- _ => apply N.leb_le in E
         end.
  lia.
Qed.

Lemma nonempty_of_length s n : String.length s = S n -> s <> "".
Proof. destruct s; [discriminate | discriminate]. Qed.

(** The pattern of [strptime] takes the printed time whole, field by
    field. *)
Lemma format_is_matched t :
  valid_time t = true ->
  exists f,
    hd_error (re.run datetime.format_regex (datetime.Format " " t)) = Some f
    /\ re.rest f = ""
    /\ re.groups f
       = [datetime.pad 4 (year t); datetime.pad 2 (month t);
          datetime.pad 2 (day t); datetime.pad 2 (hour t);
          datetime.pad 2 (minute t); datetime.pad 2 (second t)].
Proof.
  intros Hv. pose proof (valid_time_bounds t Hv) as Hb.
  pose proof (days_in_month_le (year t) (month t)) as Hdim.
  destruct (pad2_reads_back (hour t) ltac:(lia)) as [Hh [Hlh _]].
  unfold datetime.format_regex, datetime.Format. cbv zeta.
  rewrite <- (append_nil_r (datetime.pad 2 (second t))).
  eexists. split.
  - eapply head_seq; [apply head_year; lia | cbn [re.rest]].
    eapply head_seq; [apply head_lit | cbn [re.rest]].
    eapply head_seq;
      [apply head_month; apply andb_true_intro; split; apply N.leb_le; lia
      | cbn [re.rest]].
    eapply head_seq; [apply head_lit | cbn [re.rest]].
    eapply head_seq;
      [apply head_day; apply andb_true_intro; split; apply N.leb_le; lia
      | cbn [re.rest]].
    eapply head_seq.
    { apply (head_many1 is_space " ");
        [discriminate | reflexivity |].
      apply many1_space_digits; [exact Hh | eapply nonempty_of_length; exact Hlh]. }
    cbn [re.rest].
    eapply head_seq; [apply head_hour; apply N.leb_le; lia | cbn [re.rest]].
    eapply head_seq; [apply head_lit | cbn [re.rest]].
    eapply head_seq; [apply head_minute; apply N.leb_le; lia | cbn [re.rest]].
    eapply head_seq; [apply head_lit | cbn [re.rest]].
    apply head_second. apply N.leb_le. lia.
  - cbn [re.rest re.groups app]. rewrite !append_nil_r.
    split; reflexivity.
Qed.

(** [strptime] reads back the time that [Format] printed. *)
Lemma strptime_format t :
  valid_time t = true -> datetime.strptime (datetime.Format " " t) = Return t.
Proof.
  intros Hv. pose proof (valid_time_bounds t Hv) as Hb.
  pose proof (days_in_month_le (year t) (month t)) as Hdim.
  destruct (format_is_matched t Hv) as [f [Hf [Hrest Hgroups]]].
  unfold datetime.strptime, re.match_. rewrite Hf, Hrest, Hgroups.
  cbn [map].
  destruct (pad4_reads_back (year t) ltac:(lia)) as [_ [_ ->]].
  destruct (pad2_reads_back (month t) ltac:(lia)) as [_ [_ ->]].
  destruct (pad2_reads_back (day t) ltac:(lia)) as [_ [_ ->]].
  destruct (pad2_reads_back (hour t) ltac:(lia)) as [_ [_ ->]].
  destruct (pad2_reads_back (minute t) ltac:(lia)) as [_ [_ ->]].
  destruct (pad2_reads_back (second t) ltac:(lia)) as [_ [_ ->]].
  replace ((1 <=? year t) && (1 <=? day t)
           && (day t <=? datetime.days_in_month (year t) (month t))
           && (second t <=? 59))%N with true.
  - destruct t; reflexivity.
  - symmetry. repeat (apply andb_true_intro; split); apply N.leb_le; lia.
Qed.

(** ** The detail line of a record, searched *)

Lemma class_excludes (p : ascii -> bool) x s :
  p x = false -> all_chars p s = true ->
  all_chars (fun c => negb (Ascii.eqb c x)) s = true.
Proof.
  intros Hx. apply all_chars_impl. intros c Hc.
  destruct (Ascii.eqb_spec c x) as [-> |]; [congruence | reflexivity].
Qed.

Lemma head_lit_seq l b r g :
  hd_error (re.run b r) = Some g ->
  hd_error (re.run (re.Seq (re.Lit l) b) (l +++ r))
  = Some (re.mkFound (l +++ re.matched g) (re.groups g) (re.rest g)).
Proof.
  intros Hg. cbn [re.run]. rewrite prefix_app, drop_app. cbn [flat_map re.rest].
  destruct (re.run b r) as [| y l']; [discriminate |].
  cbn in Hg. injection Hg as ->. reflexivity.
Qed.

(** The printed time: a date of digits and hyphens, a blank, a time
    of digits and colons. *)
Lemma format_chars t :
  valid_time t = true ->
  exists date time,
    datetime.Format " " t = date +++ " " +++ time
    /\ all_chars (re.either re.digit (re.one "-")) date = true
    /\ all_chars (re.either re.digit (re.one ":")) time = true
    /\ date <> "" /\ time <> "".
Proof.
  intros Hv. pose proof (valid_time_bounds t Hv) as Hb.
  pose proof (days_in_month_le (year t) (month t)) as Hdim.
  destruct (pad4_reads_back (year t) ltac:(lia)) as [Hy [Ly _]].
  destruct (pad2_reads_back (month t) ltac:(lia)) as [Hm _].
  destruct (pad2_reads_back (day t) ltac:(lia)) as [Hd _].
  destruct (pad2_reads_back (hour t) ltac:(lia)) as [Hh [Lh _]].
  destruct (pad2_reads_back (minute t) ltac:(lia)) as [Hmi _].
  destruct (pad2_reads_back (second t) ltac:(lia)) as [Hs _].
  assert (Hdig : forall q s, all_chars re.digit s = true ->
                             all_chars (re.either re.digit q) s = true).
  { intros q s. apply all_chars_impl. intros c Hc. unfold re.either.
    rewrite Hc. reflexivity. }
  exists (datetime.pad 4 (year t) +++ "-" +++ datetime.pad 2 (month t) +++ "-"
          +++ datetime.pad 2 (day t)),
    (datetime.pad 2 (hour t) +++ ":" +++ datetime.pad 2 (minute t) +++ ":"
     +++ datetime.pad 2 (second t)).
  split; [unfold datetime.Format; rewrite !append_assoc'; reflexivity |].
  split; [rewrite !all_chars_app, (Hdig _ _ Hy), (Hdig _ _ Hm), (Hdig _ _ Hd);
          reflexivity |].
  split; [rewrite !all_chars_app, (Hdig _ _ Hh), (Hdig _ _ Hmi), (Hdig _ _ Hs);
          reflexivity |].
  split.
  - destruct (datetime.pad 4 (year t)); discriminate.
  - destruct (datetime.pad 2 (hour t)); discriminate.
Qed.

Lemma format_class t (p : ascii -> bool) :
  valid_time t = true ->
  (forall c, re.digit c = true -> p c = true) ->
  p "-"%char = true -> p " "%char = true -> p ":"%char = true ->
  all_chars p (datetime.Format " " t) = true.
Proof.
  intros Hv Hdigit H1 H2 H3. pose proof (valid_time_bounds t Hv) as Hb.
  pose proof (days_in_month_le (year t) (month t)) as Hdim.
  destruct (pad4_reads_back (year t) ltac:(lia)) as [Hy _].
  destruct (pad2_reads_back (month t) ltac:(lia)) as [Hm _].
  destruct (pad2_reads_back (day t) ltac:(lia)) as [Hd _].
  destruct (pad2_reads_back (hour t) ltac:(lia)) as [Hh _].
  destruct (pad2_reads_back (minute t) ltac:(lia)) as [Hmi _].
  destruct (pad2_reads_back (second t) ltac:(lia)) as [Hs _].
  unfold datetime.Format. rewrite !all_chars_app.
  rewrite (all_chars_impl re.digit p _ Hdigit Hy),
    (all_chars_impl re.digit p _ Hdigit Hm),
    (all_chars_impl re.digit p _ Hdigit Hd),
    (all_chars_impl re.digit p _ Hdigit Hh),
    (all_chars_impl re.digit p _ Hdigit Hmi),
    (all_chars_impl re.digit p _ Hdigit Hs).
  cbn [all_chars]. rewrite H1, H2, H3. reflexivity.
Qed.

(** The printed time holds none of the characters [x] outside the
    digits, the hyphen, the blank and the colon. *)
Lemma format_without t x :
  valid_time t = true ->
  re.digit x = false -> Ascii.eqb x "-" = false -> Ascii.eqb x " " = false ->
  Ascii.eqb x ":" = false ->
  all_chars (fun c => negb (Ascii.eqb c x)) (datetime.Format " " t) = true.
Proof.
  intros Hv Hd H1 H2 H3. apply format_class; [exact Hv | | | |].
  - intros c Hc. destruct (Ascii.eqb_spec c x) as [-> |];
      [congruence | reflexivity].
  - rewrite Ascii.eqb_sym, H1. reflexivity.
  - rewrite Ascii.eqb_sym, H2. reflexivity.
  - rewrite Ascii.eqb_sym, H3. reflexivity.
Qed.

Ltac in_literal :=
  cbn [list_ascii_of_string In];
  first [ solve [repeat first [left; reflexivity | right]]
        | let H := fresh in
          intros H; repeat (destruct H as [H | H]; [discriminate H |]);
          exact H ].

Lemma plain_source_facts s :
  plain_source s = true ->
  all_chars plain_char s = true /\ s <> "" /\ strip s = s.
Proof.
  unfold plain_source. intros H.
  apply andb_prop in H as [H H3]. apply andb_prop in H as [H1 H2].
  split; [exact H1 |]. split.
  - intros ->. discriminate H2.
  - apply String.eqb_eq. exact H3.
Qed.

Lemma plain_char_not_comma c : plain_char c = true -> re.non (re.one ",") c = true.
Proof.
  unfold plain_char, re.non. intros H.
  apply andb_prop in H as [H _]. apply andb_prop in H as [_ H]. exact H.
Qed.

Lemma plain_excludes x s :
  plain_char x = false -> all_chars plain_char s = true ->
  all_chars (fun c => negb (Ascii.eqb c x)) s = true.
Proof. apply class_excludes. Qed.

Section DetailLine.
Variable event : EventLogRecord.
Hypothesis plain : plain_record event = true.

Lemma plain_time : valid_time (TimeGenerated event) = true.
Proof. unfold plain_record in plain. apply andb_prop in plain as [H _]. exact H. Qed.

Lemma plain_name : plain_source (SourceName event) = true.
Proof. unfold plain_record in plain. apply andb_prop in plain as [_ H]. exact H. Qed.

Lemma detail_time :
  exists f,
    re.search time_re (detail_of event) = Some f
    /\ re.group1 f = datetime.Format " " (TimeGenerated event).
Proof.
  destruct (format_chars _ plain_time) as [date [time [E [Hd [Ht [Nd Nt]]]]]].
  unfold detail_of. rewrite E, !append_assoc'.
  eexists. split.
  - apply search_found. unfold time_re.
    apply head_lit_seq. apply head_grp.
    eapply head_seq;
      [apply (head_many1 _ date); [exact Nd | exact Hd | reflexivity] |].
    cbn [re.rest].
    eapply head_seq; [apply head_lit | cbn [re.rest]].
    apply (head_many1 _ time); [exact Nt | exact Ht | reflexivity].
  - reflexivity.
Qed.

Lemma detail_source :
  exists f,
    re.search source_re (detail_of event) = Some f
    /\ re.group1 f = SourceName event.
Proof.
  destruct (plain_source_facts _ plain_name) as [Hs [Ns _]].
  unfold detail_of, source_re. cbn [String.append].
  repeat rewrite search_step by reflexivity.
  rewrite (search_through (ascii_of_nat 236) ","%char);
    [| in_literal | in_literal
     | apply format_without; [exact plain_time | reflexivity ..]].
  repeat rewrite search_step by reflexivity.
  eexists. split.
  - apply search_found.
    apply (head_lit_seq "소스: "). apply head_grp.
    apply (head_many1 _ (SourceName event));
      [exact Ns
      | exact (all_chars_impl _ _ _ plain_char_not_comma Hs)
      | reflexivity].
  - reflexivity.
Qed.

Lemma detail_id :
  exists f,
    re.search event_id_re (detail_of event) = Some f
    /\ re.group1 f = str_of_Z (Z.land (EventID event) 65535).
Proof.
  destruct (plain_source_facts _ plain_name) as [Hs [Ns _]].
  destruct (event_id_reads_back _ (land_16_bits (EventID event)))
    as [Hid [Nid _]].
  unfold detail_of, event_id_re. cbn [String.append].
  repeat rewrite search_step by reflexivity.
  rewrite (search_through "I"%char ","%char);
    [| in_literal | in_literal
     | apply format_without; [exact plain_time | reflexivity ..]].
  repeat rewrite search_step by reflexivity.
  rewrite (search_through ":"%char ","%char);
    [| in_literal | in_literal | apply plain_excludes; [reflexivity | exact Hs]].
  repeat rewrite search_step by reflexivity.
  eexists. split.
  - apply search_found.
    apply (head_lit_seq "ID: "). apply head_grp.
    apply (head_many1 _ (str_of_Z (Z.land (EventID event) 65535)));
      [exact Nid | exact Hid | reflexivity].
  - reflexivity.
Qed.

(** The summarizer builds from the detail line the entry of the
    record, and logs nothing. *)
Lemma parse_line_detail acc w :
  parse_line (detail_of event) acc w = (Return (acc ++ [parsed_of event]), w).
Proof.
  destruct detail_time as [tm [Et Gt]].
  destruct detail_source as [sm [Es Gs]].
  destruct detail_id as [im [Ei Gi]].
  destruct (plain_source_facts _ plain_name) as [_ [_ Hstrip]].
  unfold parse_line. rewrite Et, Es, Ei, Gt, Gs, Gi, Hstrip.
  rewrite (strptime_format _ plain_time). reflexivity.
Qed.

End DetailLine.

Lemma parse_loop_details hits :
  Forall (fun event => plain_record event = true) hits ->
  forall acc w,
    for_each (map detail_of hits)
      (fun log parsed_logs =>
         try_except (parse_line log parsed_logs)
           (except "Exception" (fun e =>
              logger DEBUG "로그 파싱 실패 (무시됨): {e}" [AExn e] ;;;
              ret (parsed_logs ++ [parse_failed log]))
            no_more))
      acc w
    = (Return (acc ++ map parsed_of hits), w).
Proof.
  induction 1 as [| event hits Hplain _ IH]; intros acc w.
  - cbn. rewrite app_nil_r. reflexivity.
  - cbn [map]. rewrite for_each_cons. unfold try_except at 1.
    rewrite (parse_line_detail event Hplain). rewrite IH, <- app_assoc.
    reflexivity.
Qed.

Lemma slice_to_map {A B} (f : A -> B) l n :
  slice_to (map f l) n = map f (slice_to l n).
Proof.
  unfold slice_to. rewrite length_map.
  destruct (0 <=? n)%Z; apply firstn_map.
Qed.

(** X23: the summarizer reads back what the scan wrote.  For the
    detail lines of records with a time that exists and a plain source
    name (printable ASCII without comma or colon, no blanks around
    it), whatever their messages, [preprocess_logs] recovers from each
    line of its window the time, the source and the 16-bit ID of the
    record, logs nothing, and returns the digest of these entries: no
    line is dropped, kept under the sentinel time or labelled
    "unknown". *)
Theorem summarizer_reads_back_the_scan_lines :
  forall hits max_logs w,
    hits <> [] ->
    Forall (fun event => plain_record event = true) (slice_to hits max_logs) ->
    let parsed := map parsed_of (slice_to hits max_logs) in
    parse_logs (slice_to (map detail_of hits) max_logs) w = (Return parsed, w)
    /\ preprocess_logs (map detail_of hits) max_logs w
       = (match digest_lines (sorted parsed) (group_logs (sorted parsed)) with
          | Return result => Return (join nl result)
          | Raise e => Raise e
          end, w).
Proof.
  intros hits max_logs w Hne Hplain parsed.
  assert (E : parse_logs (slice_to (map detail_of hits) max_logs) w
              = (Return parsed, w)).
  { rewrite slice_to_map. unfold parse_logs.
    rewrite (parse_loop_details _ Hplain). reflexivity. }
  split; [exact E |].
  destruct hits as [| hit hits]; [congruence |].
  cbn [map]. rewrite preprocess_logs_nonempty.
  change (detail_of hit :: map detail_of hits)
    with (map detail_of (hit :: hits)).
  rewrite E. reflexivity.
Qed.

Lemma summarizer_reads_back_witness :
  let hits := [record_of "DriverX" 1 58; record_of "Service Control" 7036 57] in
  let parsed := map parsed_of (slice_to hits 20) in
  parse_logs (slice_to (map detail_of hits) 20) world0 = (Return parsed, world0)
  /\ preprocess_logs (map detail_of hits) 20 world0
     = (match digest_lines (sorted parsed) (group_logs (sorted parsed)) with
        | Return result => Return (join nl result)
        | Raise e => Raise e
        end, world0).
Proof.
  apply (summarizer_reads_back_the_scan_lines
           [record_of "DriverX" 1 58; record_of "Service Control" 7036 57] 20
           world0).
  - discriminate.
  - repeat constructor.
Defined.

(** ** The detail line, parsed back into a dictionary *)

Lemma rstrip_keeps_head c r :
  is_space c = false -> exists r', rstrip (String c r) = String c r'.
Proof.
  intros Hc. cbn [rstrip]. destruct (rstrip r) as [| d r''].
  - rewrite Hc. eexists. reflexivity.
  - eexists. reflexivity.
Qed.

Lemma rstrip_idempotent s : rstrip (rstrip s) = rstrip s.
Proof.
  induction s as [| c r IH]; [reflexivity |].
  cbn [rstrip]. destruct (rstrip r) as [| d r''] eqn:E.
  - destruct (is_space c) eqn:Hc; [reflexivity |].
    cbn [rstrip]. rewrite Hc. reflexivity.
  - change (rstrip (String c (String d r'')))
      with (match rstrip (String d r'') with
            | "" => if is_space c then "" else String c ""
            | String x y => String c (String x y)
            end).
    rewrite IH. reflexivity.
Qed.

Lemma lstrip_head s :
  lstrip s = "" \/ exists c r, lstrip s = String c r /\ is_space c = false.
Proof.
  induction s as [| c r IH]; [left; reflexivity |].
  cbn [lstrip]. destruct (is_space c) eqn:Hc; [exact IH |].
  right. exists c, r. split; [reflexivity | exact Hc].
Qed.

Lemma strip_idempotent s : strip (strip s) = strip s.
Proof.
  unfold strip. destruct (lstrip_head s) as [-> | [c [r [-> Hc]]]];
    [reflexivity |].
  destruct (rstrip_keeps_head c r Hc) as [r' E].
  rewrite E at 1. cbn [lstrip]. rewrite Hc, <- E. apply rstrip_idempotent.
Qed.

Lemma head_many1_end p s :
  s <> "" -> all_chars p s = true ->
  hd_error (re.many1 p s) = Some (re.mkFound s [] "").
Proof.
  intros Hne Hall.
  pose proof (head_many1 p s "" Hne Hall eq_refl) as H.
  rewrite append_nil_r in H. exact H.
Qed.

Section DetailLineParsed.
Variable event : EventLogRecord.
Variable msg : string.
Hypothesis plain : plain_record event = true.
Hypothesis formats : formatted event = Return msg.
Hypothesis one_line : all_chars (re.non (re.one nl)) (strip msg) = true.

Lemma detail_message :
  match re.search_end monitor.message_re (detail_of event) with
  | Some f => strip (re.group1 f)
  | None => ""
  end = strip msg.
Proof.
  destruct (plain_source_facts _ (plain_name event plain)) as [Hs [Ns _]].
  destruct (event_id_reads_back _ (land_16_bits (EventID event)))
    as [Hid [Nid _]].
  unfold detail_of, message_of, monitor.message_re. rewrite formats.
  cbn [String.append].
  repeat rewrite search_end_step by reflexivity.
  rewrite (search_end_through (ascii_of_nat 235) ","%char);
    [| in_literal | in_literal
     | apply format_without; [exact (plain_time event plain) | reflexivity ..]].
  repeat rewrite search_end_step by reflexivity.
  rewrite (search_end_through ":"%char ","%char);
    [| in_literal | in_literal | apply plain_excludes; [reflexivity | exact Hs]].
  repeat rewrite search_end_step by reflexivity.
  rewrite (search_end_through ":"%char ","%char);
    [| in_literal | in_literal
     | apply (class_excludes re.digit); [reflexivity | exact Hid]].
  repeat rewrite search_end_step by reflexivity.
  destruct (strip msg) as [| c m] eqn:Em; [reflexivity |].
  match goal with
  | |- context [re.search_end ?r ?s] =>
      assert (Hh : hd_error (re.run r s)
                   = Some (re.mkFound ("메시지: " +++ String c m) [String c m] ""))
  end.
  { apply (head_lit_seq "메시지: " _ _
             (re.mkFound (String c m) [String c m] "")).
    apply (head_grp _ _ (re.mkFound (String c m) [] "")).
    apply head_many1_end; [discriminate | exact one_line]. }
  rewrite (search_end_found _ _ _ Hh eq_refl).
  cbn [re.group1 re.groups nth]. rewrite <- Em. apply strip_idempotent.
Qed.

Lemma parse_detail env w :
  monitor.parse_event_log_string env (detail_of event) w
  = (Return (Some (event_dict event)), w).
Proof.
  destruct (detail_time event plain) as [tm [Et Gt]].
  destruct (detail_source event plain) as [sm [Es Gs]].
  destruct (detail_id event plain) as [im [Ei Gi]].
  destruct (plain_source_facts _ (plain_name event plain)) as [_ [_ Hstrip]].
  destruct (event_id_reads_back _ (land_16_bits (EventID event)))
    as [_ [_ Hint]].
  pose proof detail_message as Hm.
  unfold monitor.parse_event_log_string.
  rewrite Et, Es, Ei, Gt, Gs, Gi, Hstrip, Hint, Hm.
  rewrite (strptime_format _ (plain_time event plain)).
  unfold event_dict, message_of. rewrite formats. reflexivity.
Qed.

End DetailLineParsed.

(** X24: [parse_event_log_string] reads back the detail line of the
    scan.  For a record with a time that exists, a plain source name
    and a message that formats to a text whose stripped form has no
    line break, parsing the detail line returns the very dictionary
    the scan appended for the record, and logs nothing. *)
Theorem parser_reads_back_the_scan_line :
  forall env event msg w,
    plain_record event = true ->
    formatted event = Return msg ->
    all_chars (re.non (re.one nl)) (strip msg) = true ->
    monitor.parse_event_log_string env (detail_of event) w
    = (Return (Some (event_dict event)), w).
Proof.
  intros env event msg w Hplain Hfmt Hline.
  exact (parse_detail event msg Hplain Hfmt Hline env w).
Qed.

Lemma parser_reads_back_witness :
  monitor.parse_event_log_string plain_env
    (detail_of (record_of "Service Control" 7036 57)) world0
  = (Return (Some (event_dict (record_of "Service Control" 7036 57))), world0).
Proof.
  apply (parser_reads_back_the_scan_line plain_env
           (record_of "Service Control" 7036 57) "unplugged" world0);
    reflexivity.
Defined.

(** ** The session of a run *)

Lemma sess_refl w : keeps_sessions w w.
Proof. reflexivity. Qed.

Lemma sess_trans a b c :
  keeps_sessions a b -> keeps_sessions b c -> keeps_sessions a c.
Proof. unfold keeps_sessions. congruence. Qed.

Lemma hoare_emit_sess (R : Exn -> Prop) (Q : unit -> Prop) e :
  Q tt -> hoare keeps_sessions R Q (emit e).
Proof. intros Hq w. split; [reflexivity | exact Hq]. Qed.

Lemma hoare_tick_sess (R : Exn -> Prop) (Q : nat -> Prop) :
  (forall n, Q n) -> hoare keeps_sessions R Q tick.
Proof. intros Hq w. split; [reflexivity | apply Hq]. Qed.

Ltac sess_side := first [apply sess_refl | apply sess_trans].

Ltac sess_step call_tac :=
  rel_step ltac:(sess_side) hoare_emit_sess hoare_tick_sess call_tac.

Lemma ror_here {X B} (target : X -> M B) x :
  reaches_or_raises keeps_sessions (target x) target.
Proof. intros w. right. exists x, w. split; [reflexivity | reflexivity]. Qed.

Lemma ror_bind {X A B} (m : M A) (k : A -> M B) (target : X -> M B) :
  hoare keeps_sessions any any m ->
  (forall a, reaches_or_raises keeps_sessions (k a) target) ->
  reaches_or_raises keeps_sessions (bind m k) target.
Proof.
  intros Hm Hk w. unfold bind. destruct (Hm w) as [Ht _].
  destruct (m w) as [[a | e] w1]; cbn [snd] in Ht.
  - destruct (Hk a w1) as [[e [w' [E T]]] | [x [w2 [T E]]]].
    + left. exists e, w'. split; [exact E | exact (sess_trans _ _ _ Ht T)].
    + right. exists x, w2. split; [exact (sess_trans _ _ _ Ht T) | exact E].
  - left. exists e, w1. split; [reflexivity | exact Ht].
Qed.

Lemma bind_eq {A B} (m : M A) (k : A -> M B) w :
  bind m k w
  = match m w with
    | (Return a, w1) => k a w1
    | (Raise e, w1) => (Raise e, w1)
    end.
Proof. unfold bind. destruct (m w) as [[a | e] w1]; reflexivity. Qed.

Lemma bind_assoc {A B C} (m : M A) (f : A -> M B) (g : B -> M C) w :
  bind (bind m f) g w = bind m (fun a => bind (f a) g) w.
Proof. unfold bind. destruct (m w) as [[a | e] w1]; reflexivity. Qed.

Section SessionsTable.
Variable env : Env.

Lemma store_hardware_info_sess R sid hw_type devices :
  hoare keeps_sessions R any
    (db_manager.store_hardware_info env sid hw_type devices).
Proof.
  intros w.
  destruct (store_hardware_info_run env sid hw_type devices w) as [w' [E Hdb]].
  rewrite E. cbn [fst snd]. split; [| exact I].
  unfold keeps_sessions. rewrite Hdb.
  destruct devices; [| destruct (db_path env); [destruct (negb _) |]];
    reflexivity.
Qed.

Lemma store_events_sess sid events :
  hoare keeps_sessions any any (db_manager.store_events env sid events).
Proof.
  intros w. split.
  - unfold keeps_sessions.
    destruct (store_events_atomic env sid events w) as [Hdb | [_ Hdb]];
      rewrite Hdb; reflexivity.
  - destruct (fst (db_manager.store_events env sid events w)); exact I.
Qed.

Ltac store_hardware_sess :=
  lazymatch goal with
  | |- hoare _ _ _ (db_manager.store_hardware_info _ _ _ _) =>
      apply store_hardware_info_sess
  end.

Lemma get_com_ports_sess sid :
  hoare keeps_sessions any any (monitor.get_com_ports env sid).
Proof.
  unfold monitor.get_com_ports.
  repeat sess_step ltac:(idtac; store_hardware_sess); hoare_trivial.
Qed.

Lemma get_cameras_windows_sess sid :
  hoare keeps_sessions any any (monitor.get_cameras_windows env sid).
Proof.
  unfold monitor.get_cameras_windows.
  repeat sess_step ltac:(idtac; store_hardware_sess); hoare_trivial.
Qed.

Lemma get_usb_devices_windows_sess sid :
  hoare keeps_sessions any any (monitor.get_usb_devices_windows env sid).
Proof.
  unfold monitor.get_usb_devices_windows.
  repeat sess_step ltac:(idtac; store_hardware_sess); hoare_trivial.
Qed.

Lemma preprocess_logs_sess log_details max_logs :
  hoare keeps_sessions any any
    (llm_analyzer.preprocess_logs log_details max_logs).
Proof.
  unfold llm_analyzer.preprocess_logs, llm_analyzer.parse_logs,
    llm_analyzer.parse_line.
  repeat sess_step ltac:(fail); hoare_trivial.
Qed.

Lemma analyze_logs_with_llm_sess log_details config api_key :
  hoare keeps_sessions any any
    (llm_analyzer.analyze_logs_with_llm env log_details config api_key).
Proof.
  unfold llm_analyzer.analyze_logs_with_llm,
    llm_analyzer.request_and_classify, llm_analyzer.raise_for_status.
  repeat sess_step
    ltac:(idtac; lazymatch goal with
          | |- hoare _ _ _ (llm_analyzer.preprocess_logs _ _) =>
              apply preprocess_logs_sess
          end);
    hoare_trivial.
Qed.

Lemma analyze_event_logs_sess config :
  hoare keeps_sessions any any (monitor.analyze_event_logs env config).
Proof.
  intros w. destruct (analyze_event_logs_pure env config) as [r [added H]].
  rewrite H. split; [reflexivity | destruct r; exact I].
Qed.

Lemma load_api_key_sess :
  hoare keeps_sessions any any (utils.load_api_key env).
Proof.
  intros w. destruct (api_key_loaded env w) as [level [template [args E]]].
  rewrite E. split; [reflexivity | exact I].
Qed.

End SessionsTable.

Ltac run_calls :=
  lazymatch goal with
  | |- hoare _ _ _ (utils.load_api_key _) => apply load_api_key_sess
  | |- hoare _ _ _ (monitor.get_com_ports _ _) => apply get_com_ports_sess
  | |- hoare _ _ _ (monitor.get_cameras_windows _ _) =>
      apply get_cameras_windows_sess
  | |- hoare _ _ _ (monitor.get_usb_devices_windows _ _) =>
      apply get_usb_devices_windows_sess
  | |- hoare _ _ _ (monitor.analyze_event_logs _ _) =>
      apply analyze_event_logs_sess
  | |- hoare _ _ _ (llm_analyzer.analyze_logs_with_llm _ _ _ _) =>
      apply analyze_logs_with_llm_sess
  | |- hoare _ _ _ (db_manager.store_events _ _ _) => apply store_events_sess
  end.

Section WorkingDatabase.
Variable env : Env.
Hypothesis reachable : db_path env <> None.
Hypothesis no_faults : forall t, sql_fault env t = false.

Lemma no_session_error t : session_error env t = false.
Proof. unfold session_error. rewrite !no_faults. reflexivity. Qed.

(** The third stage closes the session when it returns, and leaves
    the table of sessions alone when it raises. *)
Lemma llm_stage_closes config api_key id hw scan w :
  let result := monitor.llm_stage env config api_key (Some (S id)) hw scan w in
  match fst result with
  | Return res =>
      monitor.rr_session_id res = Some (S id)
      /\ exists end_time summary,
           scan_sessions_tbl (db (snd result))
           = scan_sessions_tbl
               (with_session_closed (db w) (Z.of_nat (S id)) end_time
                  (Z.of_nat (monitor.rr_event_count res))
                  (Z.of_nat (monitor.rr_hw_devices_found res))
                  (if monitor.rr_llm_analysis_performed res then 1 else 0)%Z
                  (Some summary))
  | Raise _ => keeps_sessions w (snd result)
  end.
Proof.
  unfold monitor.llm_stage. destruct scan as [[c d] r]. cbv zeta.
  rewrite bind_logger.
  match goal with
  | |- context [bind ?A ?k ?w1] =>
      assert (HA : hoare keeps_sessions any any A)
        by (repeat sess_step ltac:(idtac; run_calls); hoare_trivial);
      destruct (HA w1) as [Ht _]; rewrite (bind_eq A k w1);
      destruct (A w1) as [[[[performed llm_result] summary] | e] w2]
  end; cbn [fst snd] in Ht |- *; [| exact Ht].
  cbn [truthy_session].
  match goal with
  | |- context [db_manager.end_scan_session env ?sid ?ef ?h ?l ?s] =>
      destruct (end_scan_session_run env sid ef h l s w2) as [w3 [E3 [Hdb3 _]]]
  end.
  unfold update_reached in E3, Hdb3.
  destruct (db_path env) as [path |] eqn:Epath; [| congruence].
  rewrite !no_faults in E3, Hdb3.
  assert (Hflag : int_fits (Int (if performed then 1 else 0)%Z) = true)
    by (destruct performed; reflexivity).
  cbn [option_map get int_fits int_value] in E3, Hdb3.
  cbn [int_fits] in Hflag. rewrite Hflag in E3, Hdb3.
  cbn [negb orb andb] in E3, Hdb3.
  rewrite bind_assoc, (bind_returns _ _ _ _ _ E3), !bind_logger.
  cbn [ret fst snd add_trace db].
  cbn [monitor.rr_session_id monitor.rr_event_count monitor.rr_hw_devices_found
       monitor.rr_llm_analysis_performed].
  split; [reflexivity |].
  eexists _, _. rewrite Hdb3. unfold with_session_closed.
  cbn [scan_sessions_tbl]. unfold keeps_sessions in Ht. cbn [db add_trace] in Ht.
  rewrite Ht. reflexivity.
Qed.

End WorkingDatabase.

Lemma close_started_session d id start end_time ef hw llm summary :
  id = db_manager.next_session_id d ->
  scan_sessions_tbl
    (with_session_closed
       (with_session d (mkSessionRow id start None 0 0 0 None))
       (Z.of_nat id) end_time ef hw llm summary)
  = scan_sessions_tbl d ++ [mkSessionRow id start (Some end_time) ef hw llm summary].
Proof.
  intros Hid. unfold with_session_closed, with_session. cbn [scan_sessions_tbl].
  rewrite map_app. cbn [map sr_id sr_start_time]. rewrite Z.eqb_refl. f_equal.
  pose proof (next_session_id_fresh d) as Hfresh. rewrite <- Hid in Hfresh.
  clear - Hfresh.
  induction (scan_sessions_tbl d) as [| row rows IH]; [reflexivity |].
  cbn [map]. cbn [map In] in Hfresh.
  destruct (Z.of_nat (sr_id row) =? Z.of_nat id)%Z eqn:E.
  - apply Z.eqb_eq in E. apply Nat2Z.inj in E. exfalso. apply Hfresh.
    left. exact E.
  - f_equal. apply IH. intros H. apply Hfresh. right. exact H.
Qed.

(** X25: the session of a run, on a host whose database is reachable
    and never fails.  A run that returns leaves the session it started
    closed: the row carries the id the run reports, an end time, the
    two counts the run reports, the flag of the analysis and a summary,
    and the other sessions are as they were.  A run that ends with an
    exception leaves the session it started open, with no end time and
    zero counts. *)
Theorem run_closes_its_session_exactly_when_it_returns :
  forall env config w,
    db_path env <> None ->
    (forall t, sql_fault env t = false) ->
    let id := db_manager.next_session_id (db w) in
    let start := now_isoformat env (S (clock w)) in
    let result := monitor.run_monitor env config w in
    match fst result with
    | Return res =>
        monitor.rr_session_id res = Some id
        /\ exists end_time summary,
             scan_sessions_tbl (db (snd result))
             = scan_sessions_tbl (db w)
               ++ [mkSessionRow id start (Some end_time)
                     (Z.of_nat (monitor.rr_event_count res))
                     (Z.of_nat (monitor.rr_hw_devices_found res))
                     (if monitor.rr_llm_analysis_performed res then 1 else 0)%Z
                     (Some summary)]
    | Raise _ =>
        scan_sessions_tbl (db (snd result))
        = scan_sessions_tbl (db w) ++ [mkSessionRow id start None 0 0 0 None]
    end.
Proof.
  intros env config w Hpath Hfault id start result. subst result.
  unfold monitor.run_monitor. rewrite !bind_logger, bind_emit.
  match goal with
  | |- context [bind (db_manager.start_scan_session env) ?k ?w4] =>
      destruct (start_scan_session_run env w4) as [w5 [E5 Hdb5]];
      rewrite (bind_returns _ _ _ _ _ E5)
  end.
  cbn [db clock add_trace] in E5, Hdb5 |- *.
  destruct (db_path env) as [path |] eqn:Epath; [| congruence].
  rewrite (no_session_error env Hfault) in E5, Hdb5 |- *.
  cbn [negb] in E5, Hdb5 |- *.
  fold id in Hdb5. fold start in Hdb5.
  assert (Hopen : scan_sessions_tbl (db w5)
                  = scan_sessions_tbl (db w)
                    ++ [mkSessionRow id start None 0 0 0 None])
    by (rewrite Hdb5; reflexivity).
  match goal with
  | |- context [fst (?m w5)] =>
      assert (Hm : reaches_or_raises keeps_sessions m
                     (fun x : Config * option string * nat * monitor.ScanResult =>
                        let '(c, k, h, s) := x in
                        monitor.llm_stage env c k
                          (Some (db_manager.next_session_id (db w))) h s))
  end.
  { unfold monitor.disable_llm.
    repeat
      (lazymatch goal with
       | |- reaches_or_raises _ (monitor.llm_stage _ ?c ?k _ ?h ?s) _ =>
           exact (ror_here
                    (fun x : Config * option string * nat * monitor.ScanResult =>
                       let '(c, k, h, s) := x in
                       monitor.llm_stage env c k
                         (Some (db_manager.next_session_id (db w))) h s)
                    (c, k, h, s))
       | |- reaches_or_raises _ (bind _ _) _ =>
           apply ror_bind;
           [ repeat sess_step ltac:(idtac; run_calls); hoare_trivial
           | intros ? ]
       end). }
  destruct (Hm w5) as [[e [w' [E T]]] | [[[[c k] h] s] [w6 [T E]]]].
  - rewrite E. cbn [fst snd]. unfold keeps_sessions in T. rewrite T. exact Hopen.
  - rewrite E.
    assert (Hreach : db_path env <> None) by (rewrite Epath; discriminate).
    pose proof (llm_stage_closes env Hreach Hfault c k
                  (list_max (map sr_id (scan_sessions_tbl (db w)))) h s w6) as Hc.
    cbv zeta in Hc. fold (db_manager.next_session_id (db w)) in Hc. fold id in Hc.
    fold id.
    destruct (fst (monitor.llm_stage env c k (Some id) h s w6)) as [res | e].
    + destruct Hc as [Hid [end_time [summary Hc]]].
      split; [exact Hid |]. exists end_time, summary. rewrite Hc.
      unfold keeps_sessions in T.
      unfold with_session_closed. cbn [scan_sessions_tbl]. rewrite T, Hopen.
      pose proof (close_started_session (db w) id start end_time
                    (Z.of_nat (monitor.rr_event_count res))
                    (Z.of_nat (monitor.rr_hw_devices_found res))
                    (if monitor.rr_llm_analysis_performed res then 1 else 0)%Z
                    (Some summary) eq_refl) as Hclose.
      unfold with_session_closed, with_session in Hclose.
      cbn [scan_sessions_tbl] in Hclose. exact Hclose.
    + unfold keeps_sessions in Hc, T. rewrite Hc, T. exact Hopen.
Qed.

Lemma run_closes_its_session_witness :
  let result := monitor.run_monitor c7_env (c7_config 3) world0 in
  match fst result with
  | Return res =>
      monitor.rr_session_id res = Some 1%nat
      /\ exists end_time summary,
           scan_sessions_tbl (db (snd result))
           = scan_sessions_tbl (db world0)
             ++ [mkSessionRow 1 "2024-01-01T00:00:00" (Some end_time)
                   (Z.of_nat (monitor.rr_event_count res))
                   (Z.of_nat (monitor.rr_hw_devices_found res))
                   (if monitor.rr_llm_analysis_performed res then 1 else 0)%Z
                   (Some summary)]
  | Raise _ =>
      scan_sessions_tbl (db (snd result))
      = scan_sessions_tbl (db world0)
        ++ [mkSessionRow 1 "2024-01-01T00:00:00" None 0 0 0 None]
  end.
Proof.
  apply (run_closes_its_session_exactly_when_it_returns c7_env (c7_config 3)
           world0).
  - discriminate.
  - reflexivity.
Defined.
